(** * The [influx restore] command: manifest merging and restore executors

    A shallow embedding of [cmdRestoreBuilder] (package main of the influx
    CLI) and of the properties its restore algorithm is expected to have.

    Layout of the development:
    - the data model: manifests, organizations, buckets, Go errors;
    - the environment the command runs in: the local file system, the
      read-only metadata store of the backup, the remote server, the Go
      runtime (iteration order of [range] over a map);
    - the methods of [cmdRestoreBuilder], one definition per method, loops as
      structural recursion over the slice they range over;
    - the theorems. *)

From Stdlib Require Import ZArith NArith List Permutation.
From stdpp Require Import gmap strings list sorting.

Local Open Scope string_scope.
Local Open Scope list_scope.

(** ** Data model *)

(** [time.Time] values are compared by [After] only.  A time is represented
    by its instant, in nanoseconds since the Unix epoch. *)
Definition Time : Type := Z.

Definition After (t u : Time) : bool := (u <? t)%Z.

(** [influxdb.ID] is a [uint64]; shard identifiers are [uint64] as well. *)
Module influxdb.
Definition ID : Type := N.
End influxdb.

(** [influxdb.ManifestEntry]: one backed-up shard file. *)
Module ManifestEntry.
Record t : Type := mk {
  BucketID : string;
  ShardID : N;
  FileName : string;
  LastModified : Time
}.
End ManifestEntry.

(** [influxdb.ManifestKVEntry]: one backed-up metadata-store snapshot. *)
Module ManifestKVEntry.
Record t : Type := mk {
  FileName : string;
  LastModified : Time
}.
End ManifestKVEntry.

(** [influxdb.Manifest].  [KV] is a struct field, not a pointer:
    [loadIncremental] takes its address with [&manifest.KV]. *)
Module Manifest.
Record t : Type := mk {
  KV : ManifestKVEntry.t;
  Files : list ManifestEntry.t
}.
End Manifest.

Module Organization.
Record t : Type := mk {
  ID : influxdb.ID;
  Name : string
}.
End Organization.

Module Bucket.
Record t : Type := mk {
  ID : influxdb.ID;
  OrgID : influxdb.ID;
  Name : string
}.
End Bucket.

(** [influxdb.OrganizationFilter]; both fields are pointers. *)
Module OrganizationFilter.
Record t : Type := mk {
  ID : option influxdb.ID;
  Name : option string
}.
End OrganizationFilter.

(** [influxdb.BucketFilter]; the fields used here are pointers. *)
Module BucketFilter.
Record t : Type := mk {
  ID : option influxdb.ID;
  Name : option string;
  OrganizationID : option influxdb.ID
}.
End BucketFilter.

(** ** Errors *)

(** A Go [error] value.  [External] is an error handed back by a
    collaborator (the operating system, the JSON decoder, a service client);
    the other constructors are the [fmt.Errorf] calls of this file, by the
    kind of their argument. *)
Inductive error : Type :=
| External (code : string) (msg : string)
| Errorf (format : string)
| ErrorfString (format : string) (arg : string)
| ErrorfError (format : string) (arg : error).

(** Modelled from the spec: the error codes of package influxdb, of which
    the restore command tests [ENotFound] (a lookup that reports
    not-found); an error that is not an [*influxdb.Error] has code
    [EInternal]. *)
Definition ENotFound : string := "not found".

Definition EInternal : string := "internal error".

(** Modelled from the spec: [influxdb.ErrorCode], the code of an error. *)
Definition ErrorCode (e : error) : string :=
  match e with
  | External code _ => code
  | _ => EInternal
  end.

(** The pair (value, error) a Go call returns. *)
Inductive result (A : Type) : Type :=
| Ok (a : A)
| Err (e : error).
Arguments Ok {A} a.
Arguments Err {A} e.

(** ** The command builder *)

(** The [organization] flag group: [--org-id] and [--org]. *)
Module organization.
Record t : Type := mk {
  id : string;
  name : string
}.
End organization.

(** [cmdRestoreBuilder]: the flags and the restore plan.  The service
    clients and the logger of the Go struct are part of the environment
    below. *)
Record cmdRestoreBuilder : Type := mkBuilder {
  full : bool;
  bucketID : string;
  bucketName : string;
  newBucketName : string;
  newOrgName : string;
  org : organization.t;
  path : string;
  kvEntry : option ManifestKVEntry.t;
  shardEntries : gmap N ManifestEntry.t
}.

Definition set_path (b : cmdRestoreBuilder) (p : string) : cmdRestoreBuilder :=
  mkBuilder (full b) (bucketID b) (bucketName b) (newBucketName b)
    (newOrgName b) (org b) p (kvEntry b) (shardEntries b).

Definition set_kvEntry (b : cmdRestoreBuilder) (kv : option ManifestKVEntry.t)
  : cmdRestoreBuilder :=
  mkBuilder (full b) (bucketID b) (bucketName b) (newBucketName b)
    (newOrgName b) (org b) (path b) kv (shardEntries b).

Definition set_shardEntries (b : cmdRestoreBuilder)
  (m : gmap N ManifestEntry.t) : cmdRestoreBuilder :=
  mkBuilder (full b) (bucketID b) (bucketName b) (newBucketName b)
    (newOrgName b) (org b) (path b) (kvEntry b) m.

(** [newCmdRestoreBuilder]: no flag set, no snapshot selected, an empty
    shard map. *)
Definition newCmdRestoreBuilder : cmdRestoreBuilder :=
  mkBuilder false "" "" "" "" (organization.mk "" "") "" None ∅.

(** ** Observable actions *)

(** The fields of a zap log entry. *)
Inductive Field : Type :=
| zap_String (key value : string)
| zap_Uint64 (key : string) (value : N).

Inductive Level : Type :=
| Info
| Warn.

(** Everything the command does that can be seen from outside, in the order
    it happens: log entries, accesses to the backup directory, reads of the
    backup's metadata store, and calls to the remote server together with
    the server's answer.  Releasing a handle ([defer f.Close()]) is not
    recorded. *)
Inductive Event : Type :=
| EvLog (level : Level) (msg : string) (fields : list Field)
| EvGlob (pattern : string)
| EvStat (file : string)
| EvReadFile (file : string)
| EvOpen (file : string)
| EvBoltOpen (file : string)
| EvMetaOpen
| EvFindOrganizations (filter : OrganizationFilter.t)
| EvFindBuckets (filter : BucketFilter.t)
| EvDatabase (name : string)
| CallFindOrganization (name : string) (r : result Organization.t)
| CallCreateOrganization (o : Organization.t) (r : result Organization.t)
| CallCreateBucket (bkt : Bucket.t) (r : result Bucket.t)
| CallRestoreKVStore (file : string) (r : option error)
| CallRestoreBucket (id : influxdb.ID) (buf : list Byte.byte)
    (r : result (gmap N N))
| CallRestoreShard (id : N) (file : string) (r : option error).

(** [meta.DatabaseInfo] with the outcome of its [MarshalBinary] method. *)
Record DatabaseInfo : Type := mkDatabaseInfo {
  MarshalBinary : result (list Byte.byte)
}.

(** ** Environment *)

(** The collaborators of the command.  The backup directory and the
    backup's metadata store are read-only during a restore and are
    functions of their arguments; the answers of the remote server may
    depend on everything that happened before the call.  A client call
    that is given a pointer ([CreateOrganization], [CreateBucket]) answers
    with the contents it leaves behind the pointer. *)
Record Env : Type := mkEnv {
  (* path/filepath, os, io/ioutil, encoding/json, compress/gzip *)
  Join : string → string → string;
  Glob : string → result (list string);
  Stat : string → result bool;
  ReadFile : string → result (list Byte.byte);
  Unmarshal : list Byte.byte → result Manifest.t;
  Open : string → option error;
  gzip_NewReader : string → option error;
  (* logger and HTTP client construction *)
  NewLogger : option error;
  newHTTPClient : option error;
  (* influxdb.ID *)
  IDFromString : string → result influxdb.ID;
  IDString : influxdb.ID → string;
  (* bolt client, tenant service and meta client over the backup's store *)
  BoltOpen : string → option error;
  MetaOpen : option error;
  FindOrganizations : OrganizationFilter.t → result (list Organization.t);
  FindBuckets : BucketFilter.t → result (list Bucket.t);
  Database : string → option DatabaseInfo;
  (* tenant and restore clients of the remote server *)
  FindOrganization : list Event → string → result Organization.t;
  CreateOrganization : list Event → Organization.t → result Organization.t;
  CreateBucket : list Event → Bucket.t → result Bucket.t;
  RestoreKVStore : list Event → string → option error;
  RestoreBucket :
    list Event → influxdb.ID → list Byte.byte → result (gmap N N);
  RestoreShard : list Event → N → string → option error;
  (* Go runtime: the order in which a range statement visits a map *)
  rangeOrder : nat → gmap N ManifestEntry.t → list ManifestEntry.t
}.

(** A [range] over a map visits every element exactly once, in an order
    the runtime chooses anew for every loop. *)
Definition rangeOrder_spec (env : Env) : Prop :=
  ∀ (n : nat) (m : gmap N ManifestEntry.t),
    rangeOrder env n m ≡ₚ (map_to_list m).*2.

(** ** State and the command monad *)

Record World : Type := mkWorld {
  events : list Event;
  seed : nat
}.

Definition M (A : Type) : Type := World → result A * World.

#[global] Instance M_ret : MRet M := λ A a w, (Ok a, w).

#[global] Instance M_bind : MBind M := λ A B k m w,
  match m w with
  | (Ok a, w') => k a w'
  | (Err e, w') => (Err e, w')
  end.

(** [return err] with a non-nil error. *)
Definition throw {A : Type} (e : error) : M A := λ w, (Err e, w).

Definition emit (ev : Event) : M unit :=
  λ w, (Ok tt, mkWorld (events w ++ [ev]) (seed w)).

(** [if err := f(); err != nil { return err }]. *)
Definition check (r : option error) : M unit :=
  match r with
  | None => mret tt
  | Some e => throw e
  end.

(** A call to the remote server: the answer is computed from the history,
    then call and answer are recorded. *)
Definition call {R : Type} (answer : list Event → R) (record : R → Event)
  : M R :=
  λ w, let r := answer (events w) in
       (Ok r, mkWorld (events w ++ [record r]) (seed w)).

(** The elements of a map in the order of the current [range] loop. *)
Definition rangeMap (env : Env) (m : gmap N ManifestEntry.t)
  : M (list ManifestEntry.t) :=
  λ w, (Ok (rangeOrder env (seed w) m), mkWorld (events w) (S (seed w))).

Definition log (level : Level) (msg : string) (fields : list Field) : M unit :=
  emit (EvLog level msg fields).

(** ** cmdRestore: the positional argument *)

(** [cmd.Args]: exactly one positional argument, stored in [b.path] (the
    field the [--input] flag is bound to). *)
Definition Args (b : cmdRestoreBuilder) (args : list string)
  : option error * cmdRestoreBuilder :=
  match args with
  | [] => (Some (Errorf "must specify path to backup directory"), b)
  | [arg] => (None, set_path b arg)
  | _ :: _ :: _ => (Some (Errorf "too many args specified"), b)
  end.

(** The string flags registered by [cmdRestore], by flag name.  [full] is
    the only boolean flag. *)
Definition setFlag (b : cmdRestoreBuilder) (flag value : string)
  : cmdRestoreBuilder :=
  if String.eqb flag "bucket-id" then
    mkBuilder (full b) value (bucketName b) (newBucketName b) (newOrgName b)
      (org b) (path b) (kvEntry b) (shardEntries b)
  else if String.eqb flag "bucket" then
    mkBuilder (full b) (bucketID b) value (newBucketName b) (newOrgName b)
      (org b) (path b) (kvEntry b) (shardEntries b)
  else if String.eqb flag "new-bucket" then
    mkBuilder (full b) (bucketID b) (bucketName b) value (newOrgName b)
      (org b) (path b) (kvEntry b) (shardEntries b)
  else if String.eqb flag "new-org" then
    mkBuilder (full b) (bucketID b) (bucketName b) (newBucketName b) value
      (org b) (path b) (kvEntry b) (shardEntries b)
  else if String.eqb flag "input" then set_path b value
  else b.

(** ** loadIncremental *)

(** [sort.Sort(sort.Reverse(sort.StringSlice(manifests)))]: descending
    byte-wise lexicographic order.  The result of sorting strings does not
    depend on the sorting algorithm. *)
Definition sortReverse (manifests : list string) : list string :=
  merge_sort (λ s1 s2, String.le s2 s1) manifests.

(** The last statement of the inner loop: [sh] replaces the kept entry of
    its shard when there is none or when it was modified after it. *)
Definition keepEntry (m : gmap N ManifestEntry.t) (sh : ManifestEntry.t)
  : gmap N ManifestEntry.t :=
  match m !! ManifestEntry.ShardID sh with
  | None => <[ManifestEntry.ShardID sh := sh]> m
  | Some entry =>
      if After (ManifestEntry.LastModified sh)
           (ManifestEntry.LastModified entry)
      then <[ManifestEntry.ShardID sh := sh]> m
      else m
  end.

(** [for i := range manifest.Files]: load the most recent backup per
    shard, skipping the entries whose file cannot be found. *)
Fixpoint loadFiles (env : Env) (b : cmdRestoreBuilder)
  (files : list ManifestEntry.t) : M cmdRestoreBuilder :=
  match files with
  | [] => mret b
  | sh :: rest =>
      let file := Join env (path b) (ManifestEntry.FileName sh) in
      emit (EvStat file);;
      match Stat env file with
      | Err _ => loadFiles env b rest
      | Ok _ =>
          loadFiles env
            (set_shardEntries b (keepEntry (shardEntries b) sh)) rest
      end
  end.

(** [for _, filename := range manifests].  The builder is behind a
    pointer: what the loop stored is returned together with the error. *)
Fixpoint loadManifests (env : Env) (b : cmdRestoreBuilder)
  (manifests : list string) : M (cmdRestoreBuilder * option error) :=
  match manifests with
  | [] => mret (b, None)
  | filename :: rest =>
      emit (EvStat filename);;
      match Stat env filename with
      | Err e => mret (b, Some e)
      | Ok true => loadManifests env b rest
      | Ok false =>
          emit (EvReadFile filename);;
          match ReadFile env filename with
          | Err e => mret (b, Some e)
          | Ok buf =>
              match Unmarshal env buf with
              | Err e => mret (b, Some (ErrorfError "read manifest: %v" e))
              | Ok manifest =>
                  let b1 :=
                    match kvEntry b with
                    | None => set_kvEntry b (Some (Manifest.KV manifest))
                    | Some _ => b
                    end in
                  b2 ← loadFiles env b1 (Manifest.Files manifest);
                  loadManifests env b2 rest
              end
          end
      end
  end.

Definition loadIncremental (env : Env) (b : cmdRestoreBuilder)
  : M (cmdRestoreBuilder * option error) :=
  let pattern := Join env (path b) "*.manifest" in
  emit (EvGlob pattern);;
  match Glob env pattern with
  | Err e => mret (b, Some e)
  | Ok manifests =>
      if Nat.eqb (length manifests) 0 then mret (b, None)
      else loadManifests env (set_shardEntries b ∅) (sortReverse manifests)
  end.

(** ** Shard transfer *)

(** A nil pointer dereference: the run stops with a panic. *)
Definition nilDereference : error :=
  External "panic" "invalid memory address or nil pointer dereference".

Definition restoreShard (env : Env) (b : cmdRestoreBuilder) (newShardID : N)
  (file : ManifestEntry.t) : M unit :=
  log Info "Restoring shard live from backup"
    [zap_Uint64 "shard" newShardID;
     zap_String "filename" (ManifestEntry.FileName file)];;
  let f := Join env (path b) (ManifestEntry.FileName file) in
  emit (EvOpen f);;
  check (Open env f);;
  check (gzip_NewReader env f);;
  r ← call (λ h, RestoreShard env h newShardID f)
        (CallRestoreShard newShardID f);
  check r.

(** ** Full restore *)

Definition restoreKVStore (env : Env) (b : cmdRestoreBuilder) : M unit :=
  match kvEntry b with
  | None => throw nilDereference
  | Some kv =>
      let f := Join env (path b) (ManifestKVEntry.FileName kv) in
      emit (EvOpen f);;
      check (Open env f);;
      r ← call (λ h, RestoreKVStore env h f) (CallRestoreKVStore f);
      check r;;
      log Info "Full metadata restored." []
  end.

(** [for _, file := range b.shardEntries] of [restoreFull]. *)
Fixpoint restoreShards (env : Env) (b : cmdRestoreBuilder)
  (files : list ManifestEntry.t) : M unit :=
  match files with
  | [] => mret tt
  | file :: rest =>
      restoreShard env b (ManifestEntry.ShardID file) file;;
      restoreShards env b rest
  end.

(** [restoreFull] completely replaces the bolt metadata file and restores
    all shard data. *)
Definition restoreFull (env : Env) (b : cmdRestoreBuilder) : M unit :=
  restoreKVStore env b;;
  files ← rangeMap env (shardEntries b);
  restoreShards env b files.

(** ** Partial restore *)

Definition warnMetaNotFound (file : ManifestEntry.t) : Event :=
  EvLog Warn "Meta info not found, skipping file"
    [zap_Uint64 "shard" (ManifestEntry.ShardID file);
     zap_String "bucket_id" (ManifestEntry.BucketID file);
     zap_String "filename" (ManifestEntry.FileName file)].

(** [for _, file := range b.shardEntries] of [restoreBucket]. *)
Fixpoint restoreBucketShards (env : Env) (b : cmdRestoreBuilder)
  (bkt : Bucket.t) (shardIDMap : gmap N N) (files : list ManifestEntry.t)
  : M unit :=
  match files with
  | [] => mret tt
  | file :: rest =>
      if negb (String.eqb (IDString env (Bucket.ID bkt))
                 (ManifestEntry.BucketID file))
      then restoreBucketShards env b bkt shardIDMap rest
      else
        match shardIDMap !! ManifestEntry.ShardID file with
        | None => emit (warnMetaNotFound file);; mret tt
        | Some newID =>
            restoreShard env b newID file;;
            restoreBucketShards env b bkt shardIDMap rest
        end
  end.

(** The bucket sent to [CreateBucket]: a copy of [bkt], renamed when
    [--new-bucket] is given. *)
Definition newBucketOf (b : cmdRestoreBuilder) (bkt : Bucket.t) : Bucket.t :=
  if negb (String.eqb (newBucketName b) "")
  then Bucket.mk (Bucket.ID bkt) (Bucket.OrgID bkt) (newBucketName b)
  else bkt.

Definition restoreBucket (env : Env) (b : cmdRestoreBuilder) (bkt : Bucket.t)
  : M unit :=
  log Info "Restoring bucket"
    [zap_String "id" (IDString env (Bucket.ID bkt));
     zap_String "name" (Bucket.Name bkt)];;
  r ← call (λ h, CreateBucket env h (newBucketOf b bkt))
        (CallCreateBucket (newBucketOf b bkt));
  match r with
  | Err e => throw (ErrorfError "cannot create bucket: %w" e)
  | Ok newBucket =>
      emit (EvDatabase (IDString env (Bucket.ID bkt)));;
      match Database env (IDString env (Bucket.ID bkt)) with
      | None =>
          throw (ErrorfString "bucket database not found: %s"
                   (IDString env (Bucket.ID bkt)))
      | Some dbi =>
          match MarshalBinary dbi with
          | Err e => throw (ErrorfError "cannot marshal database info: %w" e)
          | Ok buf =>
              r ← call (λ h, RestoreBucket env h (Bucket.ID newBucket) buf)
                    (CallRestoreBucket (Bucket.ID newBucket) buf);
              match r with
              | Err e => throw (ErrorfError "cannot restore bucket: %w" e)
              | Ok shardIDMap =>
                  files ← rangeMap env (shardEntries b);
                  restoreBucketShards env b bkt shardIDMap files
              end
          end
      end
  end.

(** [strings.HasPrefix]. *)
Definition HasPrefix (s prefix : string) : bool := String.prefix prefix s.

(** [bkt.Clone()] followed by [bkt.OrgID = newOrg.ID]. *)
Definition cloneInto (newOrgID : influxdb.ID) (bkt : Bucket.t) : Bucket.t :=
  Bucket.mk (Bucket.ID bkt) newOrgID (Bucket.Name bkt).

(** [for _, bkt := range buckets] of [restoreOrganization]. *)
Fixpoint restoreBuckets (env : Env) (b : cmdRestoreBuilder)
  (newOrgID : influxdb.ID) (buckets : list Bucket.t) : M unit :=
  match buckets with
  | [] => mret tt
  | bkt :: rest =>
      if HasPrefix (Bucket.Name bkt) "_"
      then restoreBuckets env b newOrgID rest
      else
        restoreBucket env b (cloneInto newOrgID bkt);;
        restoreBuckets env b newOrgID rest
  end.

(** The organization looked up and created on the server: a copy of
    [org], renamed when [--new-org] is given. *)
Definition newOrgOf (b : cmdRestoreBuilder) (org : Organization.t)
  : Organization.t :=
  if negb (String.eqb (newOrgName b) "")
  then Organization.mk (Organization.ID org) (newOrgName b)
  else org.

(** The filter of the bucket enumeration; [OrganizationID] is the backup's
    org ID. *)
Definition bucketFilter (env : Env) (b : cmdRestoreBuilder)
  (org : Organization.t) : result BucketFilter.t :=
  if negb (String.eqb (bucketID b) "") then
    match IDFromString env (bucketID b) with
    | Err e => Err e
    | Ok id => Ok (BucketFilter.mk (Some id) None (Some (Organization.ID org)))
    end
  else if negb (String.eqb (bucketName b) "") then
    Ok (BucketFilter.mk None (Some (bucketName b))
          (Some (Organization.ID org)))
  else Ok (BucketFilter.mk None None (Some (Organization.ID org))).

(** The first half of [restoreOrganization]: create the organization on
    the server if it does not already exist; the result is [newOrg.ID]. *)
Definition resolveOrganization (env : Env) (b : cmdRestoreBuilder)
  (org : Organization.t) : M influxdb.ID :=
  let newOrg := newOrgOf b org in
  r ← call (λ h, FindOrganization env h (Organization.Name newOrg))
        (CallFindOrganization (Organization.Name newOrg));
  match r with
  | Err err =>
      if String.eqb (ErrorCode err) ENotFound then
        r ← call (λ h, CreateOrganization env h newOrg)
              (CallCreateOrganization newOrg);
        match r with
        | Err err => throw (ErrorfError "cannot create organization: %w" err)
        | Ok created => mret (Organization.ID created)
        end
      else throw (ErrorfError "cannot find existing organization: %#v" err)
  | Ok o => mret (Organization.ID o)
  end.

Definition restoreOrganization (env : Env) (b : cmdRestoreBuilder)
  (org : Organization.t) : M unit :=
  log Info "Restoring organization"
    [zap_String "id" (IDString env (Organization.ID org));
     zap_String "name" (Organization.Name org)];;
  newOrgID ← resolveOrganization env b org;
  match bucketFilter env b org with
  | Err e => throw e
  | Ok filter =>
      emit (EvFindBuckets filter);;
      match FindBuckets env filter with
      | Err e => throw e
      | Ok buckets => restoreBuckets env b newOrgID buckets
      end
  end.

(** [for _, org := range orgs] of [restoreOrganizations]. *)
Fixpoint restoreOrgs (env : Env) (b : cmdRestoreBuilder)
  (orgs : list Organization.t) : M unit :=
  match orgs with
  | [] => mret tt
  | org :: rest =>
      restoreOrganization env b org;;
      restoreOrgs env b rest
  end.

Definition organizationFilter (env : Env) (b : cmdRestoreBuilder)
  : result OrganizationFilter.t :=
  if negb (String.eqb (organization.id (org b)) "") then
    match IDFromString env (organization.id (org b)) with
    | Err e => Err e
    | Ok id => Ok (OrganizationFilter.mk (Some id) None)
    end
  else if negb (String.eqb (organization.name (org b)) "") then
    Ok (OrganizationFilter.mk None (Some (organization.name (org b))))
  else Ok (OrganizationFilter.mk None None).

Definition restoreOrganizations (env : Env) (b : cmdRestoreBuilder) : M unit :=
  match organizationFilter env b with
  | Err e => throw e
  | Ok filter =>
      emit (EvFindOrganizations filter);;
      match FindOrganizations env filter with
      | Err e => throw e
      | Ok orgs => restoreOrgs env b orgs
      end
  end.

(** [restorePartial] restores shard data to a server without deleting
    existing data. *)
Definition restorePartial (env : Env) (b : cmdRestoreBuilder) : M unit :=
  match kvEntry b with
  | None => throw nilDereference
  | Some kv =>
      let f := Join env (path b) (ManifestKVEntry.FileName kv) in
      emit (EvBoltOpen f);;
      check (BoltOpen env f);;
      emit EvMetaOpen;;
      check (MetaOpen env);;
      restoreOrganizations env b;;
      log Info "Restore complete" []
  end.

(** ** restoreRunE *)

Definition errRenameOrg : error :=
  Errorf "must specify source org id or name when renaming restored org".

Definition errRenameBucket : error :=
  Errorf "must specify source bucket id or name when renaming restored bucket".

Definition restoreRunE (env : Env) (b : cmdRestoreBuilder) : M unit :=
  check (NewLogger env);;
  if negb (String.eqb (newOrgName b) "")
     && String.eqb (organization.id (org b)) ""
     && String.eqb (organization.name (org b)) ""
  then throw errRenameOrg
  else if negb (String.eqb (newBucketName b) "")
          && String.eqb (bucketID b) ""
          && String.eqb (bucketName b) ""
  then throw errRenameBucket
  else
    loaded ← loadIncremental env b;
    match loaded.2 with
    | Some err =>
        throw
          (ErrorfError "restore failed while processing manifest files: %s"
             err)
    | None =>
        match kvEntry loaded.1 with
        | None =>
            throw (ErrorfString "no manifest files found in: %s"
                     (path loaded.1))
        | Some _ =>
            check (newHTTPClient env);;
            if negb (full loaded.1) then restorePartial env loaded.1
            else restoreFull env loaded.1
        end
    end.

(** * Vocabulary of the statements *)

(** ** Manifest files *)

(** What [loadManifests] finds behind a name returned by [Glob]. *)
Inductive manifestFile : Type :=
| Unreadable (e : error)
| Directory
| Regular (m : Manifest.t).

Definition readManifest (env : Env) (filename : string) : manifestFile :=
  match Stat env filename with
  | Err e => Unreadable e
  | Ok true => Directory
  | Ok false =>
      match ReadFile env filename with
      | Err e => Unreadable e
      | Ok buf =>
          match Unmarshal env buf with
          | Err e => Unreadable (ErrorfError "read manifest: %v" e)
          | Ok m => Regular m
          end
      end
  end.

Definition readable (env : Env) (filename : string) : Prop :=
  ∀ e : error, readManifest env filename ≠ Unreadable e.

(** The archive a shard descriptor refers to is in the backup directory
    [dir]: [os.Stat] finds it. *)
Definition archivePresent (env : Env) (dir : string) (sh : ManifestEntry.t)
  : bool :=
  match Stat env (Join env dir (ManifestEntry.FileName sh)) with
  | Ok _ => true
  | Err _ => false
  end.

(** The shard descriptors of one manifest file that are not skipped. *)
Definition descriptors (env : Env) (dir : string) (filename : string)
  : list ManifestEntry.t :=
  match readManifest env filename with
  | Regular m => filter (λ sh, archivePresent env dir sh) (Manifest.Files m)
  | _ => []
  end.

(** The descriptors for shard [id] in a list of manifest files, in the
    order in which the files are processed. *)
Definition candidates (env : Env) (dir : string) (manifests : list string)
  (id : N) : list ManifestEntry.t :=
  filter (λ sh, ManifestEntry.ShardID sh = id)
    (manifests ≫= descriptors env dir).

(** What the loops of [loadIncremental] keep in the shard map, whatever
    the outcome: entries whose archive is there, under their own shard
    ID. *)
Definition planInvariant (env : Env) (dir : string)
  (m : gmap N ManifestEntry.t) : Prop :=
  ∀ id e, m !! id = Some e →
    archivePresent env dir e = true ∧ ManifestEntry.ShardID e = id.

(** [e] is a candidate with the greatest last-modified time. *)
Definition greatest (cands : list ManifestEntry.t) (e : ManifestEntry.t)
  : Prop :=
  e ∈ cands
  ∧ ∀ e', e' ∈ cands →
      (ManifestEntry.LastModified e' ≤ ManifestEntry.LastModified e)%Z.

(** The KV entry of the first file of the list that is a regular manifest
    file. *)
Fixpoint firstKV (env : Env) (manifests : list string)
  : option ManifestKVEntry.t :=
  match manifests with
  | [] => None
  | filename :: rest =>
      match readManifest env filename with
      | Regular m => Some (Manifest.KV m)
      | _ => firstKV env rest
      end
  end.

(** One step of the merge, seen from a single shard ID. *)
Definition pick (kept : option ManifestEntry.t) (sh : ManifestEntry.t)
  : option ManifestEntry.t :=
  match kept with
  | None => Some sh
  | Some entry =>
      if After (ManifestEntry.LastModified sh)
           (ManifestEntry.LastModified entry)
      then Some sh
      else Some entry
  end.

(** The builder [loadManifests] leaves behind when every file of the list
    is readable. *)
Definition merged (env : Env) (b : cmdRestoreBuilder)
  (manifests : list string) : cmdRestoreBuilder :=
  set_shardEntries
    (set_kvEntry b
       (match kvEntry b with
        | Some kv => Some kv
        | None => firstKV env manifests
        end))
    (foldl keepEntry (shardEntries b)
       (manifests ≫= descriptors env (path b))).

(** ** Traces *)

(** The calls to the remote server among a list of events. *)
Definition isRemoteCall (ev : Event) : bool :=
  match ev with
  | CallFindOrganization _ _
  | CallCreateOrganization _ _
  | CallCreateBucket _ _
  | CallRestoreKVStore _ _
  | CallRestoreBucket _ _ _
  | CallRestoreShard _ _ _ => true
  | _ => false
  end.

Definition remoteCalls (evs : list Event) : list Event :=
  List.filter isRemoteCall evs.

(** The transfer of the archive of [file] under shard ID [id], with the
    server's answer. *)
Definition transfer (env : Env) (b : cmdRestoreBuilder) (id : N)
  (file : ManifestEntry.t) (answer : option error) : Event :=
  CallRestoreShard id (Join env (path b) (ManifestEntry.FileName file)) answer.

(** The buckets sent to [CreateBucket]. *)
Definition createdBuckets (evs : list Event) : list Bucket.t :=
  omap (λ ev, match ev with
              | CallCreateBucket bkt _ => Some bkt
              | _ => None
              end) evs.

(** A bucket of the backup that is not an internal bucket. *)
Definition restorable (bkt : Bucket.t) : bool :=
  negb (HasPrefix (Bucket.Name bkt) "_").

(** The transfer [restoreBucket] makes for [file] when it restores [bkt]
    with the shard ID map [shardIDMap]: none for a shard of another
    bucket. *)
Definition remapped (env : Env) (b : cmdRestoreBuilder) (bkt : Bucket.t)
  (shardIDMap : gmap N N) (file : ManifestEntry.t) : option Event :=
  if String.eqb (IDString env (Bucket.ID bkt)) (ManifestEntry.BucketID file)
  then (λ newID, transfer env b newID file None)
       <$> shardIDMap !! ManifestEntry.ShardID file
  else None.

(** What can happen while the buckets [buckets] of an organization are
    restored into the remote organization [newOrgID]: a bucket is created
    only as the copy of a restorable bucket of the list, moved to
    [newOrgID]; a shard is transferred only for a restorable bucket of the
    list; the organization and the metadata store are left alone. *)
Definition bucketEvent (env : Env) (b : cmdRestoreBuilder)
  (newOrgID : influxdb.ID) (buckets : list Bucket.t) (ev : Event) : Prop :=
  match ev with
  | CallCreateBucket bk _ =>
      ∃ bkt, bkt ∈ buckets ∧ restorable bkt = true
             ∧ bk = newBucketOf b (cloneInto newOrgID bkt)
  | CallRestoreShard _ file _ =>
      ∃ bkt n f, bkt ∈ buckets ∧ restorable bkt = true
                 ∧ f ∈ rangeOrder env n (shardEntries b)
                 ∧ ManifestEntry.BucketID f = IDString env (Bucket.ID bkt)
                 ∧ file = Join env (path b) (ManifestEntry.FileName f)
  | CallFindOrganization _ _
  | CallCreateOrganization _ _
  | CallRestoreKVStore _ _ => False
  | _ => True
  end.

(** What can happen while the shards of [bkt] are restored, after the
    server has answered [RestoreBucket]: shard transfers for entries of
    [files] that belong to [bkt], and log entries. *)
Definition shardEvent (env : Env) (b : cmdRestoreBuilder) (bkt : Bucket.t)
  (files : list ManifestEntry.t) (ev : Event) : Prop :=
  match ev with
  | EvLog _ _ _ | EvOpen _ => True
  | CallRestoreShard _ file _ =>
      ∃ f, f ∈ files
           ∧ ManifestEntry.BucketID f = IDString env (Bucket.ID bkt)
           ∧ file = Join env (path b) (ManifestEntry.FileName f)
  | _ => False
  end.

(** The same environment over a backup whose metadata store lists no
    internal bucket. *)
Definition withoutInternalBuckets (env : Env) : Env :=
  {| Join := Join env;
     Glob := Glob env;
     Stat := Stat env;
     ReadFile := ReadFile env;
     Unmarshal := Unmarshal env;
     Open := Open env;
     gzip_NewReader := gzip_NewReader env;
     NewLogger := NewLogger env;
     newHTTPClient := newHTTPClient env;
     IDFromString := IDFromString env;
     IDString := IDString env;
     BoltOpen := BoltOpen env;
     MetaOpen := MetaOpen env;
     FindOrganizations := FindOrganizations env;
     FindBuckets := λ filter,
       match FindBuckets env filter with
       | Ok buckets => Ok (List.filter restorable buckets)
       | Err e => Err e
       end;
     Database := Database env;
     FindOrganization := FindOrganization env;
     CreateOrganization := CreateOrganization env;
     CreateBucket := CreateBucket env;
     RestoreKVStore := RestoreKVStore env;
     RestoreBucket := RestoreBucket env;
     RestoreShard := RestoreShard env;
     rangeOrder := rangeOrder env |}.

(** The second half of [restoreOrganization], once [newOrg.ID] is
    known: enumerate the buckets of the organization in the backup and
    restore them. *)
Definition restoreOrganizationBuckets (env : Env) (b : cmdRestoreBuilder)
  (org : Organization.t) (newOrgID : influxdb.ID) : M unit :=
  match bucketFilter env b org with
  | Err e => throw e
  | Ok filter =>
      emit (EvFindBuckets filter);;
      match FindBuckets env filter with
      | Err e => throw e
      | Ok buckets => restoreBuckets env b newOrgID buckets
      end
  end.

Definition logRestoringOrganization (env : Env) (org : Organization.t)
  : Event :=
  EvLog Info "Restoring organization"
    [zap_String "id" (IDString env (Organization.ID org));
     zap_String "name" (Organization.Name org)].

(** ** The KV selection rule as the specification words it *)

(** The metadata-store snapshot a manifest names exists: the manifest
    names a file and the file is in the backup directory. *)
Definition snapshotExists (env : Env) (dir : string)
  (kv : ManifestKVEntry.t) : bool :=
  negb (String.eqb (ManifestKVEntry.FileName kv) "")
  && match Stat env (Join env dir (ManifestKVEntry.FileName kv)) with
     | Ok isDir => negb isDir
     | Err _ => false
     end.

(** The KV entry of the first manifest of the list whose metadata-store
    snapshot exists. *)
Fixpoint specKVEntry (env : Env) (dir : string) (manifests : list string)
  : option ManifestKVEntry.t :=
  match manifests with
  | [] => None
  | filename :: rest =>
      match readManifest env filename with
      | Regular m =>
          if snapshotExists env dir (Manifest.KV m)
          then Some (Manifest.KV m)
          else specKVEntry env dir rest
      | _ => specKVEntry env dir rest
      end
  end.

(** ** A backup directory with two incremental backups *)

Module Example.

Local Open Scope N_scope.

Definition T1 : Time := 1672531200000000000%Z.
Definition T2 : Time := 1672617600000000000%Z.

Definition shard7_0101 : ManifestEntry.t :=
  ManifestEntry.mk "0000000000000b01" 7 "20230101T000000Z.s7.tar.gz" T1.

Definition shard7_0102 : ManifestEntry.t :=
  ManifestEntry.mk "0000000000000b01" 7 "20230102T000000Z.s7.tar.gz" T2.

Definition shard8_0101 : ManifestEntry.t :=
  ManifestEntry.mk "0000000000000b01" 8 "20230101T000000Z.s8.tar.gz" T1.

(** The archive of this descriptor is not in the directory. *)
Definition shard9_0101 : ManifestEntry.t :=
  ManifestEntry.mk "0000000000000b02" 9 "20230101T000000Z.s9.tar.gz" T1.

Definition kv_0101 : ManifestKVEntry.t :=
  ManifestKVEntry.mk "20230101T000000Z.bolt" T1.

Definition kv_0102 : ManifestKVEntry.t :=
  ManifestKVEntry.mk "20230102T000000Z.bolt" T2.

(** The zero value the JSON decoder leaves in [manifest.KV] when the
    document has no "kv" member. *)
Definition kv_zero : ManifestKVEntry.t := ManifestKVEntry.mk "" 0%Z.

Definition manifest_0101 : Manifest.t :=
  Manifest.mk kv_0101 [shard7_0101; shard8_0101; shard9_0101].

Definition manifest_0102 : Manifest.t := Manifest.mk kv_0102 [shard7_0102].

(** The manifest of 2 January when that backup took no snapshot of the
    metadata store. *)
Definition manifest_0102_nokv : Manifest.t :=
  Manifest.mk kv_zero [shard7_0102].

Definition enoent : error := External "ENOENT" "no such file or directory".

Definition join (dir name : string) : string :=
  if String.eqb name "" then dir else (dir ++ "/" ++ name)%string.

Definition names : list string :=
  ["backup/20230101T000000Z.manifest"; "backup/20230102T000000Z.manifest"].

Definition files : list string :=
  names
  ++ ["backup/20230101T000000Z.bolt"; "backup/20230102T000000Z.bolt";
      "backup/20230101T000000Z.s7.tar.gz"; "backup/20230101T000000Z.s8.tar.gz";
      "backup/20230102T000000Z.s7.tar.gz"].

Definition stat (file : string) : result bool :=
  if String.eqb file "backup" then Ok true
  else if bool_decide (file ∈ files) then Ok false
  else Err enoent.

Definition glob (pattern : string) : result (list string) :=
  if String.eqb pattern "backup/*.manifest" then Ok names else Ok [].

Definition readFile (file : string) : result (list Byte.byte) :=
  if String.eqb file "backup/20230101T000000Z.manifest" then Ok [Byte.x01]
  else if String.eqb file "backup/20230102T000000Z.manifest"
  then Ok [Byte.x02]
  else Err enoent.

Definition unmarshal (second : Manifest.t) (buf : list Byte.byte)
  : result Manifest.t :=
  match buf with
  | [Byte.x01] => Ok manifest_0101
  | [Byte.x02] => Ok second
  | _ => Err (External EInternal "unexpected end of JSON input")
  end.

Definition openFile (file : string) : option error :=
  match stat file with
  | Ok false => None
  | Ok true => Some (External EInternal "is a directory")
  | Err e => Some e
  end.

Definition idString (id : influxdb.ID) : string :=
  if N.eqb id 2817 then "0000000000000b01"
  else if N.eqb id 2818 then "0000000000000b02"
  else "0000000000000000".

Definition idFromString (s : string) : result influxdb.ID :=
  if String.eqb s "0000000000000b01" then Ok 2817
  else if String.eqb s "0000000000000b02" then Ok 2818
  else Err (External "invalid" "id must have a length of 16 bytes").

Definition org1 : Organization.t := Organization.mk 161 "org1".

Definition telegraf : Bucket.t := Bucket.mk 2817 161 "telegraf".

Definition tasks : Bucket.t := Bucket.mk 2818 161 "_tasks".

Definition matches (filter : BucketFilter.t) (bkt : Bucket.t) : bool :=
  match BucketFilter.OrganizationID filter with
  | Some id => N.eqb (Bucket.OrgID bkt) id
  | None => true
  end
  && match BucketFilter.ID filter with
     | Some id => N.eqb (Bucket.ID bkt) id
     | None => true
     end
  && match BucketFilter.Name filter with
     | Some name => String.eqb (Bucket.Name bkt) name
     | None => true
     end.

Definition findBuckets (filter : BucketFilter.t) : result (list Bucket.t) :=
  Ok (List.filter (matches filter) [tasks; telegraf]).

(** The server knows no organization until one is created; it then finds
    it under the name it was created with.  It numbers what it creates. *)
Definition created (h : list Event) : list Organization.t :=
  omap (λ ev, match ev with
              | CallCreateOrganization _ (Ok o) => Some o
              | _ => None
              end) h.

Definition findOrganization (h : list Event) (name : string)
  : result Organization.t :=
  match List.filter (λ o, String.eqb (Organization.Name o) name) (created h)
  with
  | o :: _ => Ok o
  | [] => Err (External ENotFound "organization not found")
  end.

Definition createOrganization (h : list Event) (o : Organization.t)
  : result Organization.t :=
  Ok (Organization.mk (1000 + N.of_nat (length h)) (Organization.Name o)).

Definition createBucket (h : list Event) (bkt : Bucket.t) : result Bucket.t :=
  Ok (Bucket.mk (2000 + N.of_nat (length h)) (Bucket.OrgID bkt)
        (Bucket.Name bkt)).

(** The server has a catalog entry for shard 7 only. *)
Definition envWith (second : Manifest.t) : Env :=
  {| Join := join;
     Glob := glob;
     Stat := stat;
     ReadFile := readFile;
     Unmarshal := unmarshal second;
     Open := openFile;
     gzip_NewReader := λ _, None;
     NewLogger := None;
     newHTTPClient := None;
     IDFromString := idFromString;
     IDString := idString;
     BoltOpen := openFile;
     MetaOpen := None;
     FindOrganizations := λ _, Ok [org1];
     FindBuckets := findBuckets;
     Database := λ _, Some (mkDatabaseInfo (Ok [Byte.x0a]));
     FindOrganization := findOrganization;
     CreateOrganization := createOrganization;
     CreateBucket := createBucket;
     RestoreKVStore := λ _ _, None;
     RestoreBucket := λ _ _ _, Ok {[7 := 70]};
     RestoreShard := λ _ _ _, None;
     rangeOrder := λ _ m, (map_to_list m).*2 |}.

Definition env : Env := envWith manifest_0102.

Definition envNoKV : Env := envWith manifest_0102_nokv.

(** The builder after [influx restore backup]. *)
Definition builder : cmdRestoreBuilder :=
  (Args newCmdRestoreBuilder ["backup"]).2.

Definition world : World := mkWorld [] 0%nat.

(** The builder after [loadIncremental] has read the directory. *)
Definition loadedWith (env : Env) : cmdRestoreBuilder :=
  match (loadIncremental env builder world).1 with
  | Ok (b1, _) => b1
  | Err _ => builder
  end.

Definition loaded : cmdRestoreBuilder := loadedWith env.

End Example.

(** ** Vocabulary of the further properties *)

(** A read of the backup directory by [loadIncremental]. *)
Definition isLocalRead (ev : Event) : bool :=
  match ev with
  | EvGlob _ | EvStat _ | EvReadFile _ => true
  | _ => false
  end.

(** The fields of the builder that hold the command line. *)
Definition sameFlags (b b' : cmdRestoreBuilder) : Prop :=
  full b' = full b
  ∧ bucketID b' = bucketID b
  ∧ bucketName b' = bucketName b
  ∧ newBucketName b' = newBucketName b
  ∧ newOrgName b' = newOrgName b
  ∧ org b' = org b
  ∧ path b' = path b.

(** The test [restoreRunE] makes on a rename target and its two source
    filters. *)
Definition missingSource (newName id name : string) : bool :=
  negb (String.eqb newName "") && String.eqb id "" && String.eqb name "".

(** Neither rename target lacks its source filter. *)
Definition flagsConsistent (b : cmdRestoreBuilder) : bool :=
  negb (missingSource (newOrgName b) (organization.id (org b))
          (organization.name (org b)))
  && negb (missingSource (newBucketName b) (bucketID b) (bucketName b)).

(** [e] is the first descriptor of [cands] that no other descriptor
    beats: the ones before it are strictly older, the ones after it are
    not younger. *)
Definition firstGreatest (cands : list ManifestEntry.t)
  (e : ManifestEntry.t) : Prop :=
  ∃ before after,
    cands = before ++ e :: after
    ∧ (∀ x, x ∈ before →
         (ManifestEntry.LastModified x < ManifestEntry.LastModified e)%Z)
    ∧ (∀ x, x ∈ after →
         (ManifestEntry.LastModified x ≤ ManifestEntry.LastModified e)%Z).

(** The names under which organizations are looked up on the server. *)
Definition lookups (evs : list Event) : list string :=
  omap (λ ev, match ev with
              | CallFindOrganization name _ => Some name
              | _ => None
              end) evs.

(** An event of a partial restore: anything but the replacement of the
    server's metadata store. *)
Definition isPartialEvent (ev : Event) : bool :=
  match ev with
  | CallRestoreKVStore _ _ => false
  | _ => true
  end.

(** An event of a full restore: a log entry, the opening of a file of
    the backup, the replacement of the metadata store or the transfer of a
    shard. *)
Definition isFullEvent (ev : Event) : bool :=
  match ev with
  | EvLog _ _ _ | EvOpen _ | CallRestoreKVStore _ _ | CallRestoreShard _ _ _ =>
      true
  | _ => false
  end.

(** ** Variations of the example *)

Module Edge.

(** The environment of [Example] with another JSON decoder, another list
    of organizations and databases in the backup's store, and another
    answer of the server to [RestoreBucket]. *)
Definition envWith (unmarshal : list Byte.byte → result Manifest.t)
  (orgs : list Organization.t) (database : string → option DatabaseInfo)
  (shardIDMap : gmap N N) : Env :=
  {| Join := Example.join;
     Glob := Example.glob;
     Stat := Example.stat;
     ReadFile := Example.readFile;
     Unmarshal := unmarshal;
     Open := Example.openFile;
     gzip_NewReader := λ _, None;
     NewLogger := None;
     newHTTPClient := None;
     IDFromString := Example.idFromString;
     IDString := Example.idString;
     BoltOpen := Example.openFile;
     MetaOpen := None;
     FindOrganizations := λ _, Ok orgs;
     FindBuckets := Example.findBuckets;
     Database := database;
     FindOrganization := Example.findOrganization;
     CreateOrganization := Example.createOrganization;
     CreateBucket := Example.createBucket;
     RestoreKVStore := λ _ _, None;
     RestoreBucket := λ _ _ _, Ok shardIDMap;
     RestoreShard := λ _ _ _, None;
     rangeOrder := λ _ m, (map_to_list m).*2 |}.

Definition syntaxError : error :=
  External EInternal "invalid character 'x' looking for beginning of value".

(** The manifest of 2 January is not a JSON document. *)
Definition unmarshalCorrupt (buf : list Byte.byte) : result Manifest.t :=
  match buf with
  | [Byte.x01] => Ok Example.manifest_0101
  | _ => Err syntaxError
  end.

Definition database : string → option DatabaseInfo :=
  λ _, Some (mkDatabaseInfo (Ok [Byte.x0a])).

Definition envCorrupt : Env :=
  envWith unmarshalCorrupt [Example.org1] database {[7%N := 70%N]}.

(** The backup's store lists no organization. *)
Definition envNoOrg : Env :=
  envWith (Example.unmarshal Example.manifest_0102) [] database
    {[7%N := 70%N]}.

(** The backup's store has no database for any bucket. *)
Definition envNoDatabase : Env :=
  envWith (Example.unmarshal Example.manifest_0102) [Example.org1]
    (λ _, None) {[7%N := 70%N]}.

(** The server maps both shards of the bucket. *)
Definition envMapped : Env :=
  envWith (Example.unmarshal Example.manifest_0102) [Example.org1] database
    {[7%N := 70%N; 8%N := 80%N]}.

(** [influx restore empty], a directory without manifest files. *)
Definition emptyBuilder : cmdRestoreBuilder :=
  (Args newCmdRestoreBuilder ["empty"]).2.

(** [influx restore --full backup]. *)
Definition fullBuilder : cmdRestoreBuilder :=
  mkBuilder true "" "" "" "" (organization.mk "" "") "backup" None ∅.

(** [influx restore --org-id 0000000000000b01 --org org1 backup], after
    the load. *)
Definition orgIDBuilder : cmdRestoreBuilder :=
  mkBuilder false "" "" "" "" (organization.mk "0000000000000b01" "org1")
    "backup" (kvEntry Example.loaded) (shardEntries Example.loaded).

End Edge.

(** * Properties *)

(** ** Running the monad *)

Lemma run_bind {A B : Type} (m : M A) (k : A → M B) (w : World) :
  (m ≫= k) w =
  match m w with
  | (Ok a, w') => k a w'
  | (Err e, w') => (Err e, w')
  end.
Proof. reflexivity. Qed.

Lemma run_ret {A : Type} (a : A) (w : World) :
  (mret a : M A) w = (Ok a, w).
Proof. reflexivity. Qed.

Lemma run_emit (ev : Event) (w : World) :
  emit ev w = (Ok tt, mkWorld (events w ++ [ev]) (seed w)).
Proof. reflexivity. Qed.

Lemma run_check_None (w : World) : check None w = (Ok tt, w).
Proof. reflexivity. Qed.

Lemma run_check_Some (e : error) (w : World) : check (Some e) w = (Err e, w).
Proof. reflexivity. Qed.

Lemma run_call {R : Type} (answer : list Event → R) (record : R → Event)
  (w : World) :
  call answer record w
  = (Ok (answer (events w)),
     mkWorld (events w ++ [record (answer (events w))]) (seed w)).
Proof. reflexivity. Qed.

Lemma run_throw {A : Type} (e : error) (w : World) :
  (throw e : M A) w = (Err e, w).
Proof. reflexivity. Qed.

Lemma run_rangeMap (env : Env) (m : gmap N ManifestEntry.t) (w : World) :
  rangeMap env m w
  = (Ok (rangeOrder env (seed w) m), mkWorld (events w) (S (seed w))).
Proof. reflexivity. Qed.

Ltac run_step :=
  unfold log;
  repeat (rewrite ?run_bind, ?run_emit, ?run_ret, ?run_check_None,
            ?run_check_Some, ?run_call, ?run_throw, ?run_rangeMap;
          cbn [fst snd events seed]).

(** Close a goal [m w = (?r, mkWorld (events w ++ ?new) (seed w))] once [m]
    has run. *)
Ltac trace_ex :=
  do 2 eexists; split; [rewrite <- ?app_assoc; cbn [app]; reflexivity|].

(** ** The positional argument *)

(** C10: the restore command takes exactly one positional argument.  With
    none, [Args] fails with the must-specify-path error; with two or more,
    with the too-many-args error; with exactly one, the argument becomes
    the backup path, whatever the [--input] flag had stored there. *)
Theorem Args_exactly_one_path (b : cmdRestoreBuilder) :
  Args b [] = (Some (Errorf "must specify path to backup directory"), b)
  ∧ (∀ (a1 a2 : string) (rest : list string),
       Args b (a1 :: a2 :: rest)
       = (Some (Errorf "too many args specified"), b))
  ∧ (∀ (input arg : string),
       Args (setFlag b "input" input) [arg] = (None, set_path b arg)
       ∧ path (Args (setFlag b "input" input) [arg]).2 = arg).
Proof.
  split; [reflexivity|]. split; [reflexivity|].
  intros input arg. split; reflexivity.
Qed.

(** ** The rename precondition *)

Section RenamePrecondition.
Context (env : Env).

(** C4: when a new organization name is given without a source org id or
    name, or a new bucket name without a source bucket id or name,
    [restoreRunE] returns an error and leaves the world as it found it: no
    manifest was looked for, no call was made to the server, nothing was
    restored.  Once the logger is built, the error is the configuration
    error of the violated rule. *)
Theorem restoreRunE_rename_precondition (b : cmdRestoreBuilder) (w : World) :
  (newOrgName b ≠ ""
   ∧ organization.id (org b) = "" ∧ organization.name (org b) = "")
  ∨ (newBucketName b ≠ "" ∧ bucketID b = "" ∧ bucketName b = "") →
  ∃ e : error,
    restoreRunE env b w = (Err e, w)
    ∧ (NewLogger env = None → e = errRenameOrg ∨ e = errRenameBucket)
    ∧ (NewLogger env = None → newOrgName b ≠ "" →
       organization.id (org b) = "" → organization.name (org b) = "" →
       e = errRenameOrg).
Proof.
  intros Hbad. unfold restoreRunE. run_step.
  destruct (NewLogger env) as [e|] eqn:Hlog; cbn.
  { exists e. split; [reflexivity|]. split; intros; discriminate. }
  destruct (negb (String.eqb (newOrgName b) "")
            && String.eqb (organization.id (org b)) ""
            && String.eqb (organization.name (org b)) "") eqn:Horg.
  { exists errRenameOrg. split; [reflexivity|]. split; auto. }
  destruct Hbad as [(Hn & Hi & Hm) | (Hn & Hi & Hm)].
  { apply String.eqb_neq in Hn. rewrite Hn, Hi, Hm in Horg. discriminate. }
  apply String.eqb_neq in Hn. rewrite Hn, Hi, Hm. cbn.
  exists errRenameBucket. split; [reflexivity|]. split; [auto|].
  intros _ Hn' Hi' Hm'. apply String.eqb_neq in Hn'.
  rewrite Hn', Hi', Hm' in Horg. discriminate.
Qed.

End RenamePrecondition.

(** ** Merging manifests *)

Section Merge.
Context (env : Env).

Lemma keepEntry_lookup (m : gmap N ManifestEntry.t) (sh : ManifestEntry.t) :
  keepEntry m sh !! ManifestEntry.ShardID sh
  = pick (m !! ManifestEntry.ShardID sh) sh.
Proof.
  unfold keepEntry, pick.
  destruct (m !! ManifestEntry.ShardID sh) as [entry|] eqn:Hm.
  - destruct (After _ _); [apply lookup_insert_eq | exact Hm].
  - apply lookup_insert_eq.
Qed.

Lemma keepEntry_lookup_ne (m : gmap N ManifestEntry.t) (sh : ManifestEntry.t)
  (id : N) :
  ManifestEntry.ShardID sh ≠ id → keepEntry m sh !! id = m !! id.
Proof.
  intros Hne. unfold keepEntry.
  destruct (m !! ManifestEntry.ShardID sh) as [entry|].
  - destruct (After _ _); [by apply lookup_insert_ne | reflexivity].
  - by apply lookup_insert_ne.
Qed.

Lemma foldl_keepEntry_lookup (l : list ManifestEntry.t)
  (m : gmap N ManifestEntry.t) (id : N) :
  foldl keepEntry m l !! id
  = foldl pick (m !! id) (filter (λ sh, ManifestEntry.ShardID sh = id) l).
Proof.
  revert m. induction l as [|sh l IH]; intros m; [reflexivity|].
  cbn [foldl]. rewrite IH, filter_cons.
  destruct (decide (ManifestEntry.ShardID sh = id)) as [<-|Hne].
  - cbn [foldl]. by rewrite keepEntry_lookup.
  - by rewrite keepEntry_lookup_ne.
Qed.

Lemma foldl_pick_is_Some (l : list ManifestEntry.t) (e : ManifestEntry.t) :
  is_Some (foldl pick (Some e) l).
Proof.
  revert e. induction l as [|sh l IH]; intros e; cbn; [eauto|].
  destruct (After _ _); apply IH.
Qed.

Lemma foldl_pick_None (l : list ManifestEntry.t)
  (o : option ManifestEntry.t) :
  foldl pick o l = None ↔ o = None ∧ l = [].
Proof.
  split.
  - destruct l as [|sh l]; cbn; [auto|]. intros H.
    destruct (foldl_pick_is_Some l
                (default sh (pick o sh))) as [x Hx].
    destruct o as [k|]; cbn in *; [destruct (After _ _)|]; cbn in *;
      congruence.
  - intros [-> ->]. reflexivity.
Qed.

Lemma foldl_pick_greatest (l : list ManifestEntry.t)
  (o : option ManifestEntry.t) (e : ManifestEntry.t) :
  foldl pick o l = Some e →
  (o = Some e ∨ e ∈ l)
  ∧ (∀ k, o = Some k →
       (ManifestEntry.LastModified k ≤ ManifestEntry.LastModified e)%Z)
  ∧ (∀ e', e' ∈ l →
       (ManifestEntry.LastModified e' ≤ ManifestEntry.LastModified e)%Z).
Proof.
  revert o. induction l as [|sh l IH]; intros o; cbn [foldl].
  - intros ->. split; [by left|]. split.
    + intros k [= ->]. lia.
    + intros e' He'. by apply elem_of_nil in He'.
  - intros H. apply IH in H as (Hin & Hkept & Hall).
    assert (Hsh : (ManifestEntry.LastModified sh
                   ≤ ManifestEntry.LastModified e)%Z
                  ∧ (∀ k, o = Some k →
                       (ManifestEntry.LastModified k
                        ≤ ManifestEntry.LastModified e)%Z)).
    { unfold pick, After in Hkept. destruct o as [k|].
      - destruct (Z.ltb_spec (ManifestEntry.LastModified k)
                    (ManifestEntry.LastModified sh)).
        + specialize (Hkept _ eq_refl). split; [lia|].
          intros k' [= <-]. lia.
        + specialize (Hkept _ eq_refl). split; [lia|].
          intros k' [= <-]. lia.
      - specialize (Hkept _ eq_refl). split; [lia|]. intros k' [=]. }
    destruct Hsh as [Hsh Ho]. split; [|split].
    + destruct Hin as [Hin|Hin].
      * unfold pick in Hin. destruct o as [k|].
        -- destruct (After _ _); injection Hin as <-;
             [right; apply list_elem_of_here | by left].
        -- injection Hin as <-. right. apply list_elem_of_here.
      * right. by apply list_elem_of_further.
    + exact Ho.
    + intros e' He'. apply elem_of_cons in He' as [->|He']; [exact Hsh|].
      by apply Hall.
Qed.

Lemma greatest_unique (cands : list ManifestEntry.t)
  (e1 e2 : ManifestEntry.t) :
  NoDup (ManifestEntry.LastModified <$> cands) →
  greatest cands e1 → greatest cands e2 → e1 = e2.
Proof.
  intros Hnd [Hin1 Hmax1] [Hin2 Hmax2].
  assert (Heq : ManifestEntry.LastModified e1 = ManifestEntry.LastModified e2).
  { specialize (Hmax1 _ Hin2). specialize (Hmax2 _ Hin1). lia. }
  clear Hmax1 Hmax2. induction cands as [|c cands IH].
  - by apply elem_of_nil in Hin1.
  - rewrite fmap_cons in Hnd. apply NoDup_cons in Hnd as [Hc Hnd].
    apply elem_of_cons in Hin1 as [->|Hin1];
      apply elem_of_cons in Hin2 as [->|Hin2]; auto.
    + exfalso. apply Hc. rewrite Heq. by apply list_elem_of_fmap_2.
    + exfalso. apply Hc. rewrite <- Heq. by apply list_elem_of_fmap_2.
Qed.

Lemma greatest_Permutation (l1 l2 : list ManifestEntry.t)
  (e : ManifestEntry.t) :
  l1 ≡ₚ l2 → greatest l1 e → greatest l2 e.
Proof.
  intros Hp [Hin Hmax]. split.
  - by rewrite <- Hp.
  - intros e' He'. apply Hmax. by rewrite Hp.
Qed.

Lemma candidates_Permutation (dir : string) (l1 l2 : list string) (id : N) :
  l1 ≡ₚ l2 → candidates env dir l1 id ≡ₚ candidates env dir l2 id.
Proof. intros Hp. unfold candidates. by rewrite Hp. Qed.

Lemma sortReverse_Permutation (l : list string) : sortReverse l ≡ₚ l.
Proof. apply merge_sort_Permutation. Qed.

(** The map built from the empty map, at one shard ID. *)
Lemma foldl_keepEntry_greatest (dir : string) (l : list string) (id : N) :
  let m := foldl keepEntry ∅ (l ≫= descriptors env dir) in
  (∀ e, m !! id = Some e → greatest (candidates env dir l id) e)
  ∧ (m !! id = None ↔ candidates env dir l id = []).
Proof.
  cbn zeta. rewrite foldl_keepEntry_lookup, lookup_empty.
  fold (candidates env dir l id). split.
  - intros e He. apply foldl_pick_greatest in He as ([Hin|Hin] & _ & Hall).
    + discriminate.
    + by split.
  - rewrite foldl_pick_None. split; [by intros [_ ?] | by intros ->].
Qed.

(** *** The loops *)

Lemma loadFiles_run (files : list ManifestEntry.t) (b : cmdRestoreBuilder)
  (w : World) :
  ∃ w' : World,
    loadFiles env b files w
    = (Ok (set_shardEntries b
             (foldl keepEntry (shardEntries b)
                (filter (λ sh, archivePresent env (path b) sh) files))), w').
Proof.
  revert b w. induction files as [|sh files IH]; intros b w.
  - exists w. by destruct b.
  - cbn [loadFiles]. run_step. rewrite filter_cons.
    destruct (Stat env (Join env (path b) (ManifestEntry.FileName sh)))
      eqn:HS.
    + assert (Hp : Is_true (archivePresent env (path b) sh)).
      { unfold archivePresent. rewrite HS. exact I. }
      rewrite decide_True by exact Hp.
      edestruct IH as [w' ->]. exists w'. reflexivity.
    + assert (Hp : ¬ Is_true (archivePresent env (path b) sh)).
      { unfold archivePresent. rewrite HS. intros []. }
      rewrite decide_False by exact Hp.
      apply IH.
Qed.

Lemma loadManifests_total (l : list string) (b : cmdRestoreBuilder)
  (w : World) :
  ∃ b' err w', loadManifests env b l w = (Ok (b', err), w').
Proof.
  revert b w. induction l as [|f l IH]; intros b w; cbn [loadManifests].
  - by eexists _, _, _.
  - run_step. destruct (Stat env f) as [[]|]; [apply IH| |by eexists _, _, _].
    run_step. destruct (ReadFile env f); [|by eexists _, _, _].
    destruct (Unmarshal env a); [|by eexists _, _, _].
    run_step. edestruct loadFiles_run as [w' ->]. apply IH.
Qed.

Lemma merged_cons_skip (f : string) (l : list string)
  (b : cmdRestoreBuilder) :
  (∀ m, readManifest env f ≠ Regular m) →
  merged env b (f :: l) = merged env b l.
Proof.
  intros Hf. unfold merged. cbn [firstKV mbind list_bind].
  unfold descriptors at 1.
  destruct (readManifest env f) as [| |m]; [done|done|].
  by destruct (Hf m).
Qed.

Lemma loadManifests_readable (l : list string) (b : cmdRestoreBuilder)
  (w : World) :
  Forall (readable env) l →
  ∃ w', loadManifests env b l w = (Ok (merged env b l, None), w').
Proof.
  revert b w. induction l as [|f l IH]; intros b w Hl; cbn [loadManifests].
  - exists w. by destruct b as [? ? ? ? ? ? ? [] ?].
  - apply Forall_cons in Hl as [Hf Hl]. run_step.
    unfold readable, readManifest in Hf.
    destruct (Stat env f) as [[]|e] eqn:HS; [| |by destruct (Hf e)].
    { rewrite merged_cons_skip; [by apply IH|].
      unfold readManifest. by rewrite HS. }
    run_step. destruct (ReadFile env f) as [buf|e] eqn:HR;
      [|by destruct (Hf e)].
    destruct (Unmarshal env buf) as [m|e] eqn:HU;
      [|by destruct (Hf (ErrorfError "read manifest: %v" e))].
    run_step. edestruct loadFiles_run as [w1 ->].
    edestruct IH as [w' ->]; [exact Hl|]. exists w'. do 2 f_equal.
    unfold merged, descriptors, readManifest.
    cbn [firstKV mbind list_bind]. unfold readManifest.
    rewrite HS, HR, HU. rewrite foldl_app.
    by destruct b as [? ? ? ? ? ? ? [] ?].
Qed.

Lemma loadManifests_success (l : list string) (b b' : cmdRestoreBuilder)
  (w w' : World) :
  loadManifests env b l w = (Ok (b', None), w') → Forall (readable env) l.
Proof.
  revert b w. induction l as [|f l IH]; intros b w; cbn [loadManifests];
    [constructor|].
  run_step. unfold readable at 1, readManifest.
  destruct (Stat env f) as [[]|e] eqn:HS.
  - intros H. constructor; [by rewrite HS | by eapply IH].
  - run_step. destruct (ReadFile env f) as [buf|e] eqn:HR; [|by intros [=]].
    destruct (Unmarshal env buf) as [m|e] eqn:HU; [|by intros [=]].
    run_step. edestruct loadFiles_run as [w1 ->]. intros H.
    constructor; [by rewrite HS, HR, HU | by eapply IH].
  - by intros [=].
Qed.

Lemma keepEntry_invariant (dir : string) (m : gmap N ManifestEntry.t)
  (sh : ManifestEntry.t) :
  archivePresent env dir sh = true →
  planInvariant env dir m → planInvariant env dir (keepEntry m sh).
Proof.
  intros Hsh Hm id e. destruct (decide (ManifestEntry.ShardID sh = id)) as [<-|].
  - rewrite keepEntry_lookup. unfold pick.
    destruct (m !! ManifestEntry.ShardID sh) as [k|] eqn:Hk.
    + destruct (After _ _); intros [= <-]; [done|]. by apply Hm.
    + by intros [= <-].
  - rewrite keepEntry_lookup_ne by done. apply Hm.
Qed.

Lemma loadFiles_invariant (files : list ManifestEntry.t)
  (b b' : cmdRestoreBuilder) (w w' : World) :
  loadFiles env b files w = (Ok b', w') →
  planInvariant env (path b) (shardEntries b) →
  path b' = path b ∧ planInvariant env (path b) (shardEntries b').
Proof.
  destruct (loadFiles_run files b w) as [w1 ->]. intros [= <- <-] Hb.
  split; [reflexivity|]. cbn.
  induction files as [|sh files IH] using rev_ind; [done|].
  rewrite filter_app, foldl_app, filter_cons, filter_nil.
  destruct (decide _) as [Hsh|]; [|done]. cbn.
  apply keepEntry_invariant; [|done]. by apply Is_true_true.
Qed.

Lemma loadManifests_invariant (l : list string) (b b' : cmdRestoreBuilder)
  (err : option error) (w w' : World) :
  loadManifests env b l w = (Ok (b', err), w') →
  planInvariant env (path b) (shardEntries b) →
  path b' = path b ∧ planInvariant env (path b) (shardEntries b').
Proof.
  revert b w. induction l as [|f l IH]; intros b w; cbn [loadManifests].
  - by intros [= <- <- <-].
  - run_step. destruct (Stat env f) as [[]|e].
    + apply IH.
    + run_step. destruct (ReadFile env f) as [buf|e];
        [|by intros [= <- <- <-]].
      destruct (Unmarshal env buf) as [m|e]; [|by intros [= <- <- <-]].
      run_step.
      set (b1 := match kvEntry b with
                 | Some _ => b
                 | None => set_kvEntry b (Some (Manifest.KV m))
                 end).
      assert (Hb1 : path b1 = path b ∧ shardEntries b1 = shardEntries b)
        by (subst b1; by destruct (kvEntry b)).
      destruct Hb1 as [Hpath Hshards].
      destruct (loadFiles env b1 (Manifest.Files m) _) as [[b2|] w2] eqn:HF;
        [|by edestruct loadFiles_run as [? Hrun]; rewrite Hrun in HF].
      intros Hrun Hb. apply loadFiles_invariant in HF as [Hp Hinv];
        [|by rewrite Hpath, Hshards].
      apply IH in Hrun as [Hp' Hinv']; [|by rewrite Hp].
      rewrite Hp, Hpath in Hp', Hinv'. by split.
    + by intros [= <- <- <-].
Qed.

End Merge.

(** ** loadIncremental *)

Section LoadIncremental.
Context (env : Env).

Lemma loadIncremental_run (b : cmdRestoreBuilder) (w : World)
  (names : list string) :
  Glob env (Join env (path b) "*.manifest") = Ok names →
  loadIncremental env b w
  = match names with
    | [] =>
        (Ok (b, None),
         mkWorld (events w ++ [EvGlob (Join env (path b) "*.manifest")])
           (seed w))
    | _ :: _ =>
        loadManifests env (set_shardEntries b ∅) (sortReverse names)
          (mkWorld (events w ++ [EvGlob (Join env (path b) "*.manifest")])
             (seed w))
    end.
Proof.
  intros HG. unfold loadIncremental. run_step. rewrite HG.
  by destruct names.
Qed.

(** A successful load leaves the merge of the sorted file list behind. *)
Lemma loadIncremental_merged (b b1 : cmdRestoreBuilder) (w w1 : World)
  (names : list string) :
  Glob env (Join env (path b) "*.manifest") = Ok names →
  loadIncremental env b w = (Ok (b1, None), w1) →
  Forall (readable env) names
  ∧ shardEntries b1
    = match names with
      | [] => shardEntries b
      | _ :: _ =>
          foldl keepEntry ∅ (sortReverse names ≫= descriptors env (path b))
      end
  ∧ kvEntry b1
    = match kvEntry b with
      | Some kv => Some kv
      | None => firstKV env (sortReverse names)
      end.
Proof.
  intros HG. rewrite (loadIncremental_run _ _ _ HG).
  destruct names as [|n names].
  - intros [= <- <-]. split; [constructor|]. split; [done|].
    by destruct (kvEntry b).
  - intros Hrun. pose proof (loadManifests_success _ _ _ _ _ _ Hrun) as Hr.
    destruct (loadManifests_readable env _ (set_shardEntries b ∅)
                (mkWorld (events w ++ [EvGlob (Join env (path b) "*.manifest")])
                   (seed w)) Hr) as [w' Hrun'].
    rewrite Hrun' in Hrun. injection Hrun as <- <-.
    split; [by rewrite <- (sortReverse_Permutation (n :: names))|].
    split; reflexivity.
Qed.

(** C1: merge correctness.  Take the shard descriptors for one shard ID
    that [loadIncremental] considers (those of the manifest files of the
    backup directory whose archive is there), with last-modified times that
    all differ.  After a successful load the plan maps the shard ID to the
    descriptor with the greatest time, and to nothing only when there is no
    descriptor; processing the manifest files in any other order gives the
    same entry; and a descriptor replaces the kept one only when its time is
    strictly greater. *)
Theorem loadIncremental_keeps_greatest (b b1 : cmdRestoreBuilder)
  (w w1 : World) (names : list string) (id : N) :
  shardEntries b = ∅ →
  Glob env (Join env (path b) "*.manifest") = Ok names →
  NoDup (ManifestEntry.LastModified <$> candidates env (path b) names id) →
  loadIncremental env b w = (Ok (b1, None), w1) →
  (∀ e, shardEntries b1 !! id = Some e
        ↔ greatest (candidates env (path b) names id) e)
  ∧ (shardEntries b1 !! id = None ↔ candidates env (path b) names id = [])
  ∧ (∀ (order : list string) (w0 : World),
       order ≡ₚ names →
       ∃ b2 w2,
         loadManifests env (set_shardEntries b ∅) order w0
         = (Ok (b2, None), w2)
         ∧ shardEntries b2 !! id = shardEntries b1 !! id)
  ∧ (∀ (m : gmap N ManifestEntry.t) (sh kept : ManifestEntry.t),
       m !! ManifestEntry.ShardID sh = Some kept →
       keepEntry m sh
       = if decide (ManifestEntry.LastModified kept
                    < ManifestEntry.LastModified sh)%Z
         then <[ManifestEntry.ShardID sh := sh]> m
         else m)
  ∧ (∀ (m : gmap N ManifestEntry.t) (sh : ManifestEntry.t),
       m !! ManifestEntry.ShardID sh = None →
       keepEntry m sh = <[ManifestEntry.ShardID sh := sh]> m).
Proof.
  intros Hempty HG Hnd Hrun.
  destruct (loadIncremental_merged _ _ _ _ _ HG Hrun) as (Hread & Hplan & _).
  assert (Hplan' : shardEntries b1
            = foldl keepEntry ∅
                (sortReverse names ≫= descriptors env (path b)))
    by (rewrite Hplan; by destruct names).
  clear Hplan. rename Hplan' into Hplan.
  (* the plan at [id], for any processing order *)
  assert (Hany : ∀ order, order ≡ₚ names →
            ∀ e, foldl keepEntry ∅ (order ≫= descriptors env (path b)) !! id
                 = Some e
                 ↔ greatest (candidates env (path b) names id) e).
  { intros order Hp e.
    destruct (foldl_keepEntry_greatest env (path b) order id) as [Hg Hn].
    split.
    - intros He. eapply greatest_Permutation; [|by apply Hg].
      by apply candidates_Permutation.
    - intros He.
      destruct (foldl keepEntry ∅ (order ≫= descriptors env (path b)) !! id)
        as [e'|] eqn:Hl.
      + f_equal. apply (greatest_unique _ _ _ Hnd); [|done].
        eapply greatest_Permutation; [|by apply Hg].
        by apply candidates_Permutation.
      + destruct Hn as [Hn _]. specialize (Hn eq_refl).
        destruct He as [Hin _].
        rewrite <- (candidates_Permutation env (path b) _ _ id Hp), Hn in Hin.
        by apply elem_of_nil in Hin. }
  assert (Hlook : ∀ order, order ≡ₚ names →
            foldl keepEntry ∅ (order ≫= descriptors env (path b)) !! id
            = shardEntries b1 !! id).
  { intros order Hp. rewrite Hplan. apply option_eq. intros e.
    rewrite (Hany order Hp), (Hany (sortReverse names)); [done|].
    apply sortReverse_Permutation. }
  split; [|split; [|split; [|split]]].
  - intros e. rewrite Hplan. apply Hany, sortReverse_Permutation.
  - rewrite Hplan.
    destruct (foldl_keepEntry_greatest env (path b) (sortReverse names) id)
      as [_ ->].
    split; intros Hn.
    + apply Permutation_nil_r. rewrite <- Hn.
      apply candidates_Permutation. symmetry. apply sortReverse_Permutation.
    + apply Permutation_nil_r. rewrite <- Hn.
      apply candidates_Permutation, sortReverse_Permutation.
  - intros order w0 Hp.
    destruct (loadManifests_readable env order (set_shardEntries b ∅) w0)
      as [w2 Hrun2]; [by rewrite Hp|].
    eexists _, w2. split; [exact Hrun2|]. cbn. by apply Hlook.
  - intros m sh kept Hk. unfold keepEntry, After. rewrite Hk.
    destruct (Z.ltb_spec (ManifestEntry.LastModified kept)
                (ManifestEntry.LastModified sh));
      [by rewrite decide_True | by rewrite decide_False by lia].
  - intros m sh Hk. unfold keepEntry. by rewrite Hk.
Qed.

(** C3: missing-file exclusion.  Whatever [loadIncremental] returns, every
    entry of the shard map it leaves behind has its archive in the backup
    directory; a shard descriptor whose archive is missing is therefore
    nowhere in the plan. *)
Theorem loadIncremental_excludes_missing (b b1 : cmdRestoreBuilder)
  (err : option error) (w w1 : World) :
  shardEntries b = ∅ →
  loadIncremental env b w = (Ok (b1, err), w1) →
  (∀ id e, shardEntries b1 !! id = Some e →
     ∃ fi, Stat env (Join env (path b1) (ManifestEntry.FileName e)) = Ok fi)
  ∧ (∀ sh err',
       Stat env (Join env (path b1) (ManifestEntry.FileName sh)) = Err err' →
       ∀ id, shardEntries b1 !! id ≠ Some sh).
Proof.
  intros Hempty Hrun.
  assert (Hinv : path b1 = path b ∧ planInvariant env (path b) (shardEntries b1)).
  { unfold loadIncremental in Hrun. revert Hrun. run_step.
    destruct (Glob env _) as [names|globErr].
    - destruct (Nat.eqb _ _).
      + intros [= <- <- <-]. split; [done|]. rewrite Hempty.
        intros id e He. by rewrite lookup_empty in He.
      + intros Hrun. apply loadManifests_invariant in Hrun; [done|].
        intros id e He. cbn in He. by rewrite lookup_empty in He.
    - intros [= <- <- <-]. split; [done|]. rewrite Hempty.
      intros id e He. by rewrite lookup_empty in He. }
  destruct Hinv as [Hpath Hinv]. rewrite Hpath.
  assert (H1 : ∀ id e, shardEntries b1 !! id = Some e →
            ∃ fi, Stat env (Join env (path b) (ManifestEntry.FileName e))
                  = Ok fi).
  { intros id e He. apply Hinv in He as [He _]. unfold archivePresent in He.
    destruct (Stat env _) as [fi|]; [by exists fi | done]. }
  split; [exact H1|].
  intros sh err' Hsh id Hid. apply H1 in Hid as [fi Hfi]. congruence.
Qed.

End LoadIncremental.

(** ** Selection of the metadata-store snapshot *)

Section SelectKV.
Context (env : Env).

#[local] Instance descending_trans :
  Transitive (λ s1 s2 : string, String.le s2 s1).
Proof. intros x y z Hxy Hyz. by trans y. Qed.

#[local] Instance descending_total :
  Total (λ s1 s2 : string, String.le s2 s1).
Proof. intros x y. destruct (total String.le x y); auto. Qed.

Lemma sortReverse_sorted (l : list string) :
  StronglySorted (λ s1 s2 : string, String.le s2 s1) (sortReverse l).
Proof. apply (StronglySorted_merge_sort _). Qed.

(** In a list in descending order the first regular manifest file is the
    greatest one. *)
Lemma firstKV_descending (l : list string) :
  StronglySorted (λ s1 s2 : string, String.le s2 s1) l →
  match firstKV env l with
  | Some kv =>
      ∃ f m, f ∈ l ∧ readManifest env f = Regular m ∧ kv = Manifest.KV m
             ∧ ∀ g m', g ∈ l → readManifest env g = Regular m' →
                 String.le g f
  | None => ∀ f m, f ∈ l → readManifest env f ≠ Regular m
  end.
Proof.
  induction 1 as [|f l Hsorted IH Hf]; cbn [firstKV].
  - intros f m Hin. by apply elem_of_nil in Hin.
  - destruct (readManifest env f) as [e| |m] eqn:Hread.
    + destruct (firstKV env l) as [kv|].
      * destruct IH as (f' & m & Hin & Hm & Hkv & Hmax).
        exists f', m. split; [by apply list_elem_of_further|].
        split; [done|]. split; [done|].
        intros g m' Hg Hgm. apply elem_of_cons in Hg as [->|Hg];
          [congruence | by eapply Hmax].
      * intros g m' Hg. apply elem_of_cons in Hg as [->|Hg];
          [congruence | by apply IH].
    + destruct (firstKV env l) as [kv|].
      * destruct IH as (f' & m & Hin & Hm & Hkv & Hmax).
        exists f', m. split; [by apply list_elem_of_further|].
        split; [done|]. split; [done|].
        intros g m' Hg Hgm. apply elem_of_cons in Hg as [->|Hg];
          [congruence | by eapply Hmax].
      * intros g m' Hg. apply elem_of_cons in Hg as [->|Hg];
          [congruence | by apply IH].
    + exists f, m. split; [apply list_elem_of_here|].
      split; [done|]. split; [done|].
      intros g m' Hg _. apply elem_of_cons in Hg as [->|Hg]; [done|].
      rewrite Forall_forall in Hf. by apply Hf.
Qed.

Lemma elem_of_sortReverse (f : string) (l : list string) :
  f ∈ sortReverse l ↔ f ∈ l.
Proof. by rewrite sortReverse_Permutation. Qed.

(** C2, as the code has it: after a successful load that started without
    a selected snapshot, [kvEntry] is the KV entry of the first manifest
    file, in descending filename order, that is not a directory: the
    entry of the lexicographically greatest regular manifest file, whether
    or not the snapshot it names exists.  The entry of an older manifest is
    never taken in its place. *)
Theorem loadIncremental_selects_newest_manifest_kv
  (b b1 : cmdRestoreBuilder) (w w1 : World) (names : list string) :
  kvEntry b = None →
  Glob env (Join env (path b) "*.manifest") = Ok names →
  loadIncremental env b w = (Ok (b1, None), w1) →
  kvEntry b1 = firstKV env (sortReverse names)
  ∧ match kvEntry b1 with
    | Some kv =>
        ∃ f m, f ∈ names ∧ readManifest env f = Regular m
               ∧ kv = Manifest.KV m
               ∧ ∀ g m', g ∈ names → readManifest env g = Regular m' →
                   String.le g f
    | None => ∀ f, f ∈ names → readManifest env f = Directory
    end.
Proof.
  intros Hnil HG Hrun.
  destruct (loadIncremental_merged _ _ _ _ _ _ HG Hrun) as (Hread & _ & Hkv).
  rewrite Hnil in Hkv. split; [exact Hkv|]. rewrite Hkv.
  pose proof (firstKV_descending _ (sortReverse_sorted names)) as Hfirst.
  destruct (firstKV env (sortReverse names)) as [kv|].
  - destruct Hfirst as (f & m & Hin & Hm & -> & Hmax).
    exists f, m. apply (proj1 (elem_of_sortReverse _ _)) in Hin.
    split; [done|]. split; [done|]. split; [done|].
    intros g m' Hg. apply Hmax. by apply elem_of_sortReverse.
  - intros f Hf. rewrite Forall_forall in Hread.
    assert (Hfirst' : ∀ m, readManifest env f ≠ Regular m)
      by (intros m; by apply Hfirst, elem_of_sortReverse).
    specialize (Hread f Hf). unfold readable in Hread.
    destruct (readManifest env f) as [e| |m]; [|done|].
    + by destruct (Hread e).
    + by destruct (Hfirst' m).
Qed.

End SelectKV.

Lemma loadIncremental_selects_newest_manifest_kv_witness :
  kvEntry Example.builder = None
  ∧ kvEntry Example.loaded = firstKV Example.env (sortReverse Example.names)
  ∧ kvEntry Example.loaded = Some Example.kv_0102.
Proof.
  split; [reflexivity|]. split; [|by vm_compute].
  refine (proj1 (loadIncremental_selects_newest_manifest_kv Example.env
                   Example.builder Example.loaded Example.world
                   (loadIncremental Example.env Example.builder
                      Example.world).2
                   Example.names eq_refl eq_refl _)).
  vm_compute. reflexivity.
Defined.

(** C2 as the specification words it fails on the directory of [Example]
    when the backup of 2 January took no snapshot: the newest manifest
    names no snapshot, the manifest of 1 January names one that exists.
    The specification's rule selects the snapshot of 1 January;
    [loadIncremental] selects the empty entry of the manifest of
    2 January. *)
Lemma loadIncremental_kv_not_first_existing :
  Glob Example.envNoKV
    (Join Example.envNoKV (path Example.builder) "*.manifest")
  = Ok Example.names
  ∧ specKVEntry Example.envNoKV "backup" (sortReverse Example.names)
    = Some Example.kv_0101
  ∧ ∃ b1 w1,
      loadIncremental Example.envNoKV Example.builder Example.world
      = (Ok (b1, None), w1)
      ∧ kvEntry b1 = Some Example.kv_zero
      ∧ kvEntry b1
        ≠ specKVEntry Example.envNoKV "backup" (sortReverse Example.names).
Proof.
  split; [reflexivity|]. split; [by vm_compute|].
  exists (Example.loadedWith Example.envNoKV),
    (loadIncremental Example.envNoKV Example.builder Example.world).2.
  split; [by vm_compute|]. split; [by vm_compute|].
  vm_compute. discriminate.
Qed.

(** ** Shard transfer and full restore *)

Section FullRestore.
Context (env : Env).

Lemma remoteCalls_app (l1 l2 : list Event) :
  remoteCalls (l1 ++ l2) = remoteCalls l1 ++ remoteCalls l2.
Proof. apply List.filter_app. Qed.

(** One transfer: at most one call, made last. *)
Lemma restoreShard_trace (b : cmdRestoreBuilder) (id : N)
  (file : ManifestEntry.t) (w : World) :
  ∃ (r : result unit) (new : list Event),
    restoreShard env b id file w = (r, mkWorld (events w ++ new) (seed w))
    ∧ ((r = Ok tt ∧ remoteCalls new = [transfer env b id file None])
       ∨ ∃ e, r = Err e
              ∧ (remoteCalls new = []
                 ∨ remoteCalls new = [transfer env b id file (Some e)]))
    ∧ Forall (λ ev, match ev with
                    | EvLog Info _ _ | EvOpen _ => True
                    | CallRestoreShard id' file' _ =>
                        id' = id
                        ∧ file'
                          = Join env (path b) (ManifestEntry.FileName file)
                    | _ => False
                    end) new.
Proof.
  unfold restoreShard. run_step.
  destruct (Open env _) as [e|]; run_step.
  { trace_ex. split; [|by repeat constructor].
    right. exists e. by split; [|left]. }
  destruct (gzip_NewReader env _) as [e|]; run_step.
  { trace_ex. split; [|by repeat constructor].
    right. exists e. by split; [|left]. }
  destruct (RestoreShard env _ id _) as [e|]; run_step.
  - trace_ex. split; [|by repeat constructor].
    right. exists e. split; [done|]. by right.
  - trace_ex. split; [|by repeat constructor]. by left.
Qed.

(** The loop of [restoreFull]: the files are transferred in order under
    their own shard ID, up to the first failure. *)
Lemma restoreShards_trace (b : cmdRestoreBuilder)
  (files : list ManifestEntry.t) (w : World) :
  ∃ (r : result unit) (new : list Event),
    restoreShards env b files w = (r, mkWorld (events w ++ new) (seed w))
    ∧ match r with
      | Ok _ =>
          remoteCalls new
          = map (λ file, transfer env b (ManifestEntry.ShardID file) file None)
              files
      | Err e =>
          ∃ done file rest,
            files = done ++ file :: rest
            ∧ (remoteCalls new
               = map (λ file,
                        transfer env b (ManifestEntry.ShardID file) file None)
                   done
               ∨ remoteCalls new
                 = map (λ file,
                          transfer env b (ManifestEntry.ShardID file) file
                            None) done
                   ++ [transfer env b (ManifestEntry.ShardID file) file
                         (Some e)])
      end.
Proof.
  revert w. induction files as [|file files IH]; intros w.
  - exists (Ok tt), []. split; [|done]. cbn. rewrite app_nil_r. by destruct w.
  - cbn [restoreShards]. run_step.
    destruct (restoreShard_trace b (ManifestEntry.ShardID file) file w)
      as (r1 & new1 & -> & Hr1 & _).
    destruct Hr1 as [[-> Hc1] | (e & -> & Hc1)].
    + destruct (IH (mkWorld (events w ++ new1) (seed w)))
        as (r2 & new2 & -> & Hr2). cbn [events seed].
      exists r2, (new1 ++ new2). split; [by rewrite app_assoc|].
      rewrite remoteCalls_app, Hc1. destruct r2 as [[]|e].
      * cbn. by rewrite Hr2.
      * destruct Hr2 as (done & f & rest & -> & Hc2).
        exists (file :: done), f, rest. split; [done|].
        destruct Hc2 as [-> | ->]; [by left | by right].
    + exists (Err e), new1. split; [done|].
      exists [], file, files. split; [done|].
      destruct Hc1 as [-> | ->]; [by left | by right].
Qed.

Lemma restoreKVStore_trace (b : cmdRestoreBuilder) (kv : ManifestKVEntry.t)
  (w : World) :
  kvEntry b = Some kv →
  ∃ (r : result unit) (new : list Event),
    restoreKVStore env b w = (r, mkWorld (events w ++ new) (seed w))
    ∧ match r with
      | Ok _ =>
          remoteCalls new
          = [CallRestoreKVStore
               (Join env (path b) (ManifestKVEntry.FileName kv)) None]
      | Err e =>
          remoteCalls new = []
          ∨ remoteCalls new
            = [CallRestoreKVStore
                 (Join env (path b) (ManifestKVEntry.FileName kv)) (Some e)]
      end.
Proof.
  intros Hkv. unfold restoreKVStore. rewrite Hkv. run_step.
  destruct (Open env _) as [e|]; run_step.
  { trace_ex. by left. }
  destruct (RestoreKVStore env _ _) as [e|]; run_step.
  - trace_ex. by right.
  - trace_ex. done.
Qed.

(** C5: full restore.  The metadata-store snapshot is sent to the server
    first.  When that call fails, [restoreFull] returns its error and no
    shard is transferred.  When it succeeds, the shard entries of the plan
    are transferred one after the other, each under its own shard ID, in
    the order in which the map is ranged over: all of them when
    [restoreFull] succeeds; when a transfer fails, the ones before it
    (which stay transferred: nothing is called to undo them) and none
    after it. *)
Theorem restoreFull_metadata_then_shards (b : cmdRestoreBuilder)
  (kv : ManifestKVEntry.t) (w w' : World) (r : result unit) :
  rangeOrder_spec env →
  kvEntry b = Some kv →
  restoreFull env b w = (r, w') →
  let f := Join env (path b) (ManifestKVEntry.FileName kv) in
  let order := rangeOrder env (seed w) (shardEntries b) in
  let sent := λ file, transfer env b (ManifestEntry.ShardID file) file None in
  order ≡ₚ (map_to_list (shardEntries b)).*2
  ∧ ∃ new : list Event,
      events w' = events w ++ new
      ∧ (∀ e, In (CallRestoreKVStore f (Some e)) new →
           r = Err e ∧ remoteCalls new = [CallRestoreKVStore f (Some e)])
      ∧ match r with
        | Ok _ => remoteCalls new = CallRestoreKVStore f None :: map sent order
        | Err e =>
            remoteCalls new = []
            ∨ remoteCalls new = [CallRestoreKVStore f (Some e)]
            ∨ ∃ done file rest,
                order = done ++ file :: rest
                ∧ (remoteCalls new
                   = CallRestoreKVStore f None :: map sent done
                   ∨ remoteCalls new
                     = CallRestoreKVStore f None :: map sent done
                       ++ [transfer env b (ManifestEntry.ShardID file) file
                             (Some e)])
        end.
Proof.
  intros Horder Hkv Hrun f order sent. split; [apply Horder|].
  assert (Hin : ∀ new ev, In ev new → isRemoteCall ev = true →
                  In ev (remoteCalls new)).
  { intros new ev Hev Hrem. apply List.filter_In. by split. }
  unfold restoreFull in Hrun. revert Hrun. rewrite run_bind.
  destruct (restoreKVStore_trace b kv w Hkv) as (r1 & new1 & -> & Hc1).
  fold f in Hc1. destruct r1 as [[]|e1].
  - run_step. fold order.
    destruct (restoreShards_trace b order
                (mkWorld (events w ++ new1) (S (seed w))))
      as (r2 & new2 & -> & Hc2). cbn [events seed].
    intros [= <- <-]. exists (new1 ++ new2). cbn [events].
    split; [by rewrite app_assoc|]. rewrite remoteCalls_app, Hc1.
    assert (Hno : ∀ e, ¬ In (CallRestoreKVStore f (Some e))
                           (remoteCalls new1 ++ remoteCalls new2)).
    { intros e. rewrite Hc1. cbn [app In]. intros [Hh|Ht]; [discriminate|].
      unfold sent, transfer in Hc2. destruct r2 as [[]|e2].
      - rewrite Hc2 in Ht. apply in_map_iff in Ht as (? & [=] & _).
      - destruct Hc2 as (done & file & rest & _ & [Hc2|Hc2]);
          rewrite Hc2 in Ht.
        + apply in_map_iff in Ht as (? & [=] & _).
        + apply in_app_iff in Ht. destruct Ht as [Ht|Ht].
          * apply in_map_iff in Ht as (? & [=] & _).
          * cbn in Ht. by destruct Ht as [[=]|[]]. }
    split.
    { intros e He. exfalso. apply (Hno e). rewrite <- remoteCalls_app.
      by apply Hin. }
    destruct r2 as [[]|e2]; cbn [app].
    + by rewrite Hc2.
    + right; right. destruct Hc2 as (done & file & rest & -> & Hc2).
      exists done, file, rest. split; [done|].
      destruct Hc2 as [-> | ->]; [by left | by right].
  - intros [= <- <-]. exists new1. split; [done|]. split.
    + intros e He. apply Hin in He; [|done].
      destruct Hc1 as [Hc1|Hc1]; rewrite Hc1 in He; [destruct He|].
      destruct He as [[= ->]|[]]. by split.
    + destruct Hc1 as [-> | ->]; [by left | by right; left].
Qed.

End FullRestore.

(** ** Partial restore: the shards of a bucket *)

Section BucketShards.
Context (env : Env) (b : cmdRestoreBuilder) (bkt : Bucket.t)
  (shardIDMap : gmap N N).

Lemma transfer_not_warning (id : N) (file : ManifestEntry.t)
  (new : list Event) (f : ManifestEntry.t) :
  Forall (λ ev, match ev with
                | EvLog Info _ _ | EvOpen _ => True
                | CallRestoreShard id' file' _ =>
                    id' = id
                    ∧ file' = Join env (path b) (ManifestEntry.FileName file)
                | _ => False
                end) new →
  ¬ In (warnMetaNotFound f) new.
Proof.
  intros Hall Hin. rewrite Forall_forall in Hall.
  apply list_elem_of_In, Hall in Hin. exact Hin.
Qed.

Lemma remapped_own (g : ManifestEntry.t) (newID : N) :
  String.eqb (IDString env (Bucket.ID bkt)) (ManifestEntry.BucketID g) = true →
  shardIDMap !! ManifestEntry.ShardID g = Some newID →
  remapped env b bkt shardIDMap g = Some (transfer env b newID g None).
Proof. intros Hown Hid. unfold remapped. by rewrite Hown, Hid. Qed.

Lemma remapped_other (g : ManifestEntry.t) :
  String.eqb (IDString env (Bucket.ID bkt)) (ManifestEntry.BucketID g) = false →
  remapped env b bkt shardIDMap g = None.
Proof. intros Hown. unfold remapped. by rewrite Hown. Qed.

(** The loop up to the first entry of the bucket that has no remapped ID:
    the entries of the bucket before it are transferred, in order, under
    their remapped IDs; then either the warning is logged and the loop
    returns nil, or one of these transfers has failed. *)
Lemma restoreBucketShards_first_unmapped (pre : list ManifestEntry.t)
  (file : ManifestEntry.t) (post : list ManifestEntry.t) (w : World) :
  ManifestEntry.BucketID file = IDString env (Bucket.ID bkt) →
  shardIDMap !! ManifestEntry.ShardID file = None →
  (∀ g, g ∈ pre →
     ManifestEntry.BucketID g = IDString env (Bucket.ID bkt) →
     is_Some (shardIDMap !! ManifestEntry.ShardID g)) →
  ∃ (r : result unit) (new : list Event),
    restoreBucketShards env b bkt shardIDMap (pre ++ file :: post) w
    = (r, mkWorld (events w ++ new) (seed w))
    ∧ match r with
      | Ok _ =>
          (∃ before, new = before ++ [warnMetaNotFound file])
          ∧ remoteCalls new = omap (remapped env b bkt shardIDMap) pre
      | Err e =>
          ¬ In (warnMetaNotFound file) new
          ∧ ∃ done g rest newID,
              pre = done ++ g :: rest
              ∧ ManifestEntry.BucketID g = IDString env (Bucket.ID bkt)
              ∧ shardIDMap !! ManifestEntry.ShardID g = Some newID
              ∧ (remoteCalls new
                 = omap (remapped env b bkt shardIDMap) done
                 ∨ remoteCalls new
                   = omap (remapped env b bkt shardIDMap) done
                     ++ [transfer env b newID g (Some e)])
      end.
Proof.
  intros Hown Hnone. revert w.
  induction pre as [|g pre IH]; intros w Hpre.
  - cbn [app restoreBucketShards]. rewrite <- Hown, String.eqb_refl.
    cbn [negb]. rewrite Hnone. run_step. trace_ex.
    split; [by exists []|done].
  - cbn [app restoreBucketShards].
    assert (Hpre' : ∀ g', g' ∈ pre →
              ManifestEntry.BucketID g' = IDString env (Bucket.ID bkt) →
              is_Some (shardIDMap !! ManifestEntry.ShardID g'))
      by (intros g' Hg'; apply Hpre; by apply list_elem_of_further).
    destruct (String.eqb (IDString env (Bucket.ID bkt))
                (ManifestEntry.BucketID g)) eqn:Hg; cbn [negb].
    + destruct (Hpre g) as [newID HnewID]; [apply list_elem_of_here| |].
      { symmetry. by apply String.eqb_eq. }
      rewrite HnewID, run_bind.
      destruct (restoreShard_trace env b newID g w)
        as (r1 & new1 & -> & Hr1 & Hshape).
      pose proof (transfer_not_warning _ _ _ file Hshape) as Hnowarn.
      destruct Hr1 as [[-> Hc1] | (e & -> & Hc1)].
      * destruct (IH (mkWorld (events w ++ new1) (seed w)) Hpre')
          as (r2 & new2 & -> & Hr2). cbn [events seed].
        exists r2, (new1 ++ new2). split; [by rewrite app_assoc|].
        rewrite remoteCalls_app, Hc1. cbn [omap list_omap].
        rewrite (remapped_own g newID Hg HnewID).
        destruct r2 as [[]|e].
        -- destruct Hr2 as [[before ->] Hc2]. split.
           ++ exists (new1 ++ before). by rewrite app_assoc.
           ++ by rewrite Hc2.
        -- destruct Hr2 as (Hno & done & g' & rest & id' & -> & Hg'
                            & Hid' & Hc2).
           split.
           { intros Hin. apply in_app_iff in Hin as [Hin|Hin]; tauto. }
           exists (g :: done), g', rest, id'. split; [done|].
           split; [done|]. split; [done|]. cbn [omap list_omap].
           rewrite (remapped_own g newID Hg HnewID).
           destruct Hc2 as [-> | ->]; [by left | by right].
      * exists (Err e), new1. split; [done|]. split; [done|].
        exists [], g, pre, newID. split; [done|].
        split; [symmetry; by apply String.eqb_eq|]. split; [done|].
        destruct Hc1 as [-> | ->]; [by left | by right].
    + destruct (IH w Hpre') as (r2 & new2 & -> & Hr2).
      exists r2, new2. split; [done|]. cbn [omap list_omap].
      rewrite (remapped_other g Hg). destruct r2 as [[]|e]; [done|].
      destruct Hr2 as (Hno & done & g' & rest & id' & -> & Hg' & Hid' & Hc2).
      split; [done|]. exists (g :: done), g', rest, id'.
      split; [done|]. split; [done|]. split; [done|]. cbn [omap list_omap].
      by rewrite (remapped_other g Hg).
Qed.

(** Whatever the ID map, the loop does nothing but transfer shards of the
    bucket and log. *)
Lemma restoreBucketShards_events (files : list ManifestEntry.t) (w : World) :
  ∃ (r : result unit) (new : list Event),
    restoreBucketShards env b bkt shardIDMap files w
    = (r, mkWorld (events w ++ new) (seed w))
    ∧ Forall (shardEvent env b bkt files) new.
Proof.
  revert w. induction files as [|g files IH]; intros w.
  - exists (Ok tt), []. cbn. rewrite app_nil_r. by destruct w.
  - assert (Hmono : ∀ new, Forall (shardEvent env b bkt files) new →
                      Forall (shardEvent env b bkt (g :: files)) new).
    { intros new Hnew. eapply Forall_impl; [exact Hnew|].
      intros [] Hev; cbn in *; try done.
      destruct Hev as (f & Hf & ?). exists f. split; [|done].
      by apply list_elem_of_further. }
    cbn [restoreBucketShards].
    destruct (String.eqb (IDString env (Bucket.ID bkt))
                (ManifestEntry.BucketID g)) eqn:Hg; cbn [negb].
    + destruct (shardIDMap !! ManifestEntry.ShardID g) as [newID|].
      * rewrite run_bind.
        destruct (restoreShard_trace env b newID g w)
          as (r1 & new1 & -> & _ & Hshape).
        assert (Hnew1 : Forall (shardEvent env b bkt (g :: files)) new1).
        { eapply Forall_impl; [exact Hshape|].
          intros [] Hev; cbn in *; try done.
          destruct Hev as [_ ->]. exists g. split; [apply list_elem_of_here|].
          split; [symmetry; by apply String.eqb_eq | done]. }
        destruct r1 as [[]|e].
        -- destruct (IH (mkWorld (events w ++ new1) (seed w)))
             as (r2 & new2 & -> & Hr2). cbn [events seed].
           exists r2, (new1 ++ new2). split; [by rewrite app_assoc|].
           apply Forall_app. split; [done | by apply Hmono].
        -- by exists (Err e), new1.
      * run_step. trace_ex. by repeat constructor.
    + destruct (IH w) as (r2 & new2 & -> & Hr2).
      exists r2, new2. split; [done | by apply Hmono].
Qed.

End BucketShards.

(** ** Partial restore: one bucket *)

Section Bucket.
Context (env : Env) (b : cmdRestoreBuilder).

(** [restoreBucket], step by step. *)
Lemma restoreBucket_run (bkt : Bucket.t) (w : World) :
  let name := IDString env (Bucket.ID bkt) in
  let h1 := events w
            ++ [EvLog Info "Restoring bucket"
                  [zap_String "id" name;
                   zap_String "name" (Bucket.Name bkt)]] in
  let created := CreateBucket env h1 (newBucketOf b bkt) in
  let h2 := h1 ++ [CallCreateBucket (newBucketOf b bkt) created] in
  let h3 := h2 ++ [EvDatabase name] in
  restoreBucket env b bkt w
  = match created with
    | Err e =>
        (Err (ErrorfError "cannot create bucket: %w" e), mkWorld h2 (seed w))
    | Ok newBucket =>
        match Database env name with
        | None =>
            (Err (ErrorfString "bucket database not found: %s" name),
             mkWorld h3 (seed w))
        | Some dbi =>
            match MarshalBinary dbi with
            | Err e =>
                (Err (ErrorfError "cannot marshal database info: %w" e),
                 mkWorld h3 (seed w))
            | Ok buf =>
                let answer := RestoreBucket env h3 (Bucket.ID newBucket) buf in
                let h4 :=
                  h3 ++ [CallRestoreBucket (Bucket.ID newBucket) buf answer] in
                match answer with
                | Err e =>
                    (Err (ErrorfError "cannot restore bucket: %w" e),
                     mkWorld h4 (seed w))
                | Ok shardIDMap =>
                    restoreBucketShards env b bkt shardIDMap
                      (rangeOrder env (seed w) (shardEntries b))
                      (mkWorld h4 (S (seed w)))
                end
            end
        end
    end.
Proof.
  cbn zeta. unfold restoreBucket. run_step.
  destruct (CreateBucket env _ _) as [newBucket|e]; [|reflexivity]. run_step.
  destruct (Database env _) as [dbi|]; [|reflexivity].
  destruct (MarshalBinary dbi) as [buf|e]; [|reflexivity]. run_step.
  destruct (RestoreBucket env _ _ _); run_step; reflexivity.
Qed.

Lemma shardEvent_not_bucket_call (bkt : Bucket.t)
  (files : list ManifestEntry.t) (new : list Event) :
  Forall (shardEvent env b bkt files) new →
  createdBuckets new = []
  ∧ (∀ bk r, ¬ In (CallCreateBucket bk r) new)
  ∧ (∀ id buf r, ¬ In (CallRestoreBucket id buf r) new).
Proof.
  induction 1 as [|ev new Hev _ (IH1 & IH2 & IH3)].
  { split; [done|]. split; intros; intros []. }
  split; [|split].
  - destruct ev; cbn in *; done.
  - intros bk r [->|Hin]; [destruct Hev | by eapply IH2].
  - intros id buf r [->|Hin]; [destruct Hev | by eapply IH3].
Qed.

(** C8: partial restore of a bucket whose shard catalog, as the server
    restored it, lacks a shard.  Let [file] be the first entry of the
    bucket, in the order of the loop, that has no remapped ID in the map the
    server returned.  When the loop reaches it (the transfers before it
    succeeded), [restoreBucket] logs the warning and returns nil at once:
    the warning is the last thing that happens, only the entries of the
    bucket before [file] were transferred, and no error is reported.  The
    other possibility is that a transfer before [file] failed, and then
    that error is returned. *)
Theorem restoreBucket_stops_at_unmapped_shard (bkt : Bucket.t) (w w' : World)
  (r : result unit) (new : list Event) (id : influxdb.ID)
  (buf : list Byte.byte) (shardIDMap : gmap N N)
  (pre : list ManifestEntry.t) (file : ManifestEntry.t)
  (post : list ManifestEntry.t) :
  restoreBucket env b bkt w = (r, w') →
  events w' = events w ++ new →
  In (CallRestoreBucket id buf (Ok shardIDMap)) new →
  rangeOrder env (seed w) (shardEntries b) = pre ++ file :: post →
  ManifestEntry.BucketID file = IDString env (Bucket.ID bkt) →
  shardIDMap !! ManifestEntry.ShardID file = None →
  (∀ g, g ∈ pre →
     ManifestEntry.BucketID g = IDString env (Bucket.ID bkt) →
     is_Some (shardIDMap !! ManifestEntry.ShardID g)) →
  ∃ newBucket : Bucket.t,
    let calls :=
      [CallCreateBucket (newBucketOf b bkt) (Ok newBucket);
       CallRestoreBucket id buf (Ok shardIDMap)] in
    match r with
    | Ok _ =>
        (∃ before, new = before ++ [warnMetaNotFound file])
        ∧ remoteCalls new
          = calls ++ omap (remapped env b bkt shardIDMap) pre
    | Err e =>
        ¬ In (warnMetaNotFound file) new
        ∧ ∃ done g rest newID,
            pre = done ++ g :: rest
            ∧ ManifestEntry.BucketID g = IDString env (Bucket.ID bkt)
            ∧ shardIDMap !! ManifestEntry.ShardID g = Some newID
            ∧ (remoteCalls new
               = calls ++ omap (remapped env b bkt shardIDMap) done
               ∨ remoteCalls new
                 = calls ++ omap (remapped env b bkt shardIDMap) done
                   ++ [transfer env b newID g (Some e)])
    end.
Proof.
  intros Hrun Hnew Hcall Horder Hown Hnone Hpre.
  rewrite restoreBucket_run in Hrun. cbn zeta in Hrun.
  destruct (CreateBucket env _ _) as [newBucket|e].
  2:{ injection Hrun as <- <-. cbn [events] in Hnew.
      rewrite <- !app_assoc in Hnew. apply app_inv_head in Hnew as <-.
      cbn in Hcall. by destruct Hcall as [|[|]]. }
  destruct (Database env _) as [dbi|].
  2:{ injection Hrun as <- <-. cbn [events] in Hnew.
      rewrite <- !app_assoc in Hnew. apply app_inv_head in Hnew as <-.
      cbn in Hcall. by destruct Hcall as [|[|[|]]]. }
  destruct (MarshalBinary dbi) as [buf'|e].
  2:{ injection Hrun as <- <-. cbn [events] in Hnew.
      rewrite <- !app_assoc in Hnew. apply app_inv_head in Hnew as <-.
      cbn in Hcall. by destruct Hcall as [|[|[|]]]. }
  destruct (RestoreBucket env _ _ _) as [m|e].
  2:{ injection Hrun as <- <-. cbn [events] in Hnew.
      rewrite <- !app_assoc in Hnew. apply app_inv_head in Hnew as <-.
      cbn in Hcall. by destruct Hcall as [|[|[|[|]]]]. }
  match type of Hrun with
  | restoreBucketShards _ _ _ _ _ ?w0 = _ => set (w4 := w0) in *
  end.
  destruct (restoreBucketShards_events env b bkt m
              (rangeOrder env (seed w) (shardEntries b)) w4)
    as (r0 & loop & Hloop & Hshape).
  rewrite Hloop in Hrun. injection Hrun as -> <-.
  subst w4. cbn [events] in Hnew. rewrite <- !app_assoc in Hnew.
  apply app_inv_head in Hnew as <-. cbn [app] in *.
  destruct (shardEvent_not_bucket_call _ _ _ Hshape) as (_ & _ & Hnoloop).
  assert (Hm : Bucket.ID newBucket = id ∧ buf' = buf ∧ m = shardIDMap).
  { destruct Hcall as [|[|[|[Heq|Hin]]]]; try done.
    - by injection Heq as -> -> ->.
    - by destruct (Hnoloop _ _ _ Hin). }
  destruct Hm as (-> & -> & ->). clear Hcall.
  rewrite Horder in Hloop.
  edestruct (restoreBucketShards_first_unmapped env b bkt shardIDMap pre file
               post) as (r1 & loop1 & Hloop1 & Hr1);
    [exact Hown | exact Hnone | exact Hpre |].
  rewrite Hloop1 in Hloop. injection Hloop as -> Hl.
  apply app_inv_head in Hl as ->.
  exists newBucket. cbn zeta. destruct r as [[]|e].
  - destruct Hr1 as [[before ->] Hcalls]. split.
    + eexists (_ :: _ :: _ :: _ :: before). reflexivity.
    + cbn. cbn in Hcalls. unfold remoteCalls in Hcalls. by rewrite Hcalls.
  - destruct Hr1 as (Hno & done & g & rest & newID & -> & Hg & HnewID & Hc).
    split.
    + intros [|[|[|[|Hin]]]]; done.
    + exists done, g, rest, newID. split; [done|]. split; [done|].
      split; [done|]. cbn. unfold remoteCalls in Hc.
      destruct Hc as [-> | ->]; [by left | by right].
Qed.

End Bucket.

(** ** Partial restore: the buckets of an organization *)

Section Buckets.
Context (env : Env) (b : cmdRestoreBuilder) (newOrgID : influxdb.ID).

Lemma bucketEvent_mono (l1 l2 : list Bucket.t) (ev : Event) :
  (∀ bkt, bkt ∈ l1 → bkt ∈ l2) →
  bucketEvent env b newOrgID l1 ev → bucketEvent env b newOrgID l2 ev.
Proof.
  intros Hsub. destruct ev; cbn; try done.
  - intros (bkt0 & Hin & ?). exists bkt0. split; [by apply Hsub | done].
  - intros (bkt0 & n & f & Hin & ?). exists bkt0, n, f.
    split; [by apply Hsub | done].
Qed.

Lemma createdBuckets_app (l1 l2 : list Event) :
  createdBuckets (l1 ++ l2) = createdBuckets l1 ++ createdBuckets l2.
Proof. apply omap_app. Qed.

(** One bucket: [CreateBucket] is called once, with the copy of the
    bucket; when it fails nothing else happens. *)
Lemma restoreBucket_events (bkt : Bucket.t) (w w' : World) (r : result unit) :
  restorable bkt = true →
  restoreBucket env b (cloneInto newOrgID bkt) w = (r, w') →
  ∃ new : list Event,
    events w' = events w ++ new
    ∧ createdBuckets new = [newBucketOf b (cloneInto newOrgID bkt)]
    ∧ Forall (bucketEvent env b newOrgID [bkt]) new
    ∧ (∀ bk e, In (CallCreateBucket bk (Err e)) new →
         r = Err (ErrorfError "cannot create bucket: %w" e)
         ∧ ∃ pre, new = pre ++ [CallCreateBucket bk (Err e)]).
Proof.
  intros Hbkt Hrun. rewrite restoreBucket_run in Hrun. cbn zeta in Hrun.
  assert (Hcreate : ∀ answer,
            bucketEvent env b newOrgID [bkt]
              (CallCreateBucket (newBucketOf b (cloneInto newOrgID bkt))
                 answer)).
  { intros answer. exists bkt. split; [apply list_elem_of_here | done]. }
  destruct (CreateBucket env _ _) as [newBucket|e].
  2:{ injection Hrun as <- <-. eexists. split.
      { cbn [events]. rewrite <- !app_assoc. reflexivity. }
      cbn [app]. split; [done|]. split; [by repeat constructor|].
      intros bk e' [|[[= <- <-]|[]]]; [done|]. split; [done|].
      by eexists [_]. }
  destruct (Database env _) as [dbi|].
  2:{ injection Hrun as <- <-. eexists. split.
      { cbn [events]. rewrite <- !app_assoc. reflexivity. }
      cbn [app]. split; [done|]. split; [by repeat constructor|].
      by intros bk e' [|[|[|[]]]]. }
  destruct (MarshalBinary dbi) as [buf|e].
  2:{ injection Hrun as <- <-. eexists. split.
      { cbn [events]. rewrite <- !app_assoc. reflexivity. }
      cbn [app]. split; [done|]. split; [by repeat constructor|].
      by intros bk e' [|[|[|[]]]]. }
  destruct (RestoreBucket env _ _ _) as [m|e].
  2:{ injection Hrun as <- <-. eexists. split.
      { cbn [events]. rewrite <- !app_assoc. reflexivity. }
      cbn [app]. split; [done|]. split; [by repeat constructor|].
      by intros bk e' [|[|[|[|[]]]]]. }
  match type of Hrun with
  | restoreBucketShards _ _ _ _ ?fs ?w0 = _ =>
      destruct (restoreBucketShards_events env b (cloneInto newOrgID bkt) m
                  fs w0) as (r0 & loop & Hloop & Hshape)
  end.
  rewrite Hloop in Hrun. injection Hrun as <- <-.
  destruct (shardEvent_not_bucket_call _ _ _ _ _ Hshape)
    as (Hnone & Hnocreate & _).
  eexists. split.
  { cbn [events]. rewrite <- !app_assoc. reflexivity. }
  split; [|split].
  - rewrite !createdBuckets_app, Hnone. reflexivity.
  - cbn [app]. repeat (constructor; [done|]).
    eapply Forall_impl; [exact Hshape|]. intros [] Hev; cbn in *; try done.
    destruct Hev as (f & Hf & Hown & ->).
    exists bkt, (seed w), f. split; [apply list_elem_of_here|]. done.
  - cbn [app]. intros bk e' [|[|[|[|Hin]]]]; try done.
    by destruct (Hnocreate _ _ Hin).
Qed.

(** The loop over the buckets: the restorable buckets are created in
    order, each as its copy in the target organization, up to the first
    failure. *)
Lemma restoreBuckets_trace (buckets : list Bucket.t) (w w' : World)
  (r : result unit) :
  restoreBuckets env b newOrgID buckets w = (r, w') →
  ∃ new : list Event,
    events w' = events w ++ new
    ∧ Forall (bucketEvent env b newOrgID buckets) new
    ∧ (∃ n, createdBuckets new
            = map (λ bkt, newBucketOf b (cloneInto newOrgID bkt))
                (take n (List.filter restorable buckets)))
    ∧ (r = Ok tt →
       createdBuckets new
       = map (λ bkt, newBucketOf b (cloneInto newOrgID bkt))
           (List.filter restorable buckets))
    ∧ (∀ bk e, In (CallCreateBucket bk (Err e)) new →
         r = Err (ErrorfError "cannot create bucket: %w" e)
         ∧ ∃ pre, new = pre ++ [CallCreateBucket bk (Err e)]).
Proof.
  revert w. induction buckets as [|bkt buckets IH]; intros w.
  - intros [= <- <-]. exists []. rewrite app_nil_r.
    split; [done|]. split; [constructor|]. split; [by exists 0%nat|].
    split; [done|]. intros bk e [].
  - cbn [restoreBuckets].
    assert (Hres : restorable bkt = negb (HasPrefix (Bucket.Name bkt) "_"))
      by reflexivity.
    destruct (HasPrefix (Bucket.Name bkt) "_") eqn:Hint; cbn [negb] in Hres.
    + assert (Hf : List.filter restorable (bkt :: buckets)
                   = List.filter restorable buckets)
        by (cbn [List.filter]; by rewrite Hres).
      rewrite Hf.
      intros Hrun. apply IH in Hrun as (new & Hnew & Hall & Hn & Hok & Herr).
      exists new. split; [done|]. split; [|done].
      eapply Forall_impl; [exact Hall|]. intros ev. apply bucketEvent_mono.
      intros bkt'. apply list_elem_of_further.
    + assert (Hf : List.filter restorable (bkt :: buckets)
                   = bkt :: List.filter restorable buckets)
        by (cbn [List.filter]; by rewrite Hres).
      rewrite Hf. rewrite run_bind.
      destruct (restoreBucket env b (cloneInto newOrgID bkt) w)
        as [rb wb] eqn:Hb.
      apply restoreBucket_events in Hb
          as (newb & Hnewb & Hcb & Hallb & Herrb); [|done].
      assert (Hallb' : Forall (bucketEvent env b newOrgID (bkt :: buckets))
                         newb).
      { eapply Forall_impl; [exact Hallb|]. intros ev. apply bucketEvent_mono.
        intros bkt' ->%list_elem_of_singleton. apply list_elem_of_here. }
      destruct rb as [[]|e].
      * intros Hrun. apply IH in Hrun as (new & Hnew & Hall & Hn & Hok & Herr).
        exists (newb ++ new). rewrite Hnew, Hnewb, app_assoc.
        split; [done|]. split; [|split; [|split]].
        -- apply Forall_app. split; [done|].
           eapply Forall_impl; [exact Hall|]. intros ev.
           apply bucketEvent_mono. intros bkt'. apply list_elem_of_further.
        -- destruct Hn as [n Hn]. exists (S n).
           by rewrite createdBuckets_app, Hcb, Hn.
        -- intros Hr. by rewrite createdBuckets_app, Hcb, (Hok Hr).
        -- intros bk e Hin. apply in_app_iff in Hin as [Hin|Hin].
           ++ by destruct (Herrb _ _ Hin).
           ++ destruct (Herr _ _ Hin) as [-> [pre ->]]. split; [done|].
              exists (newb ++ pre). by rewrite app_assoc.
      * intros [= <- <-]. exists newb. split; [done|]. split; [done|].
        split; [|split].
        -- exists 1%nat. rewrite Hcb. cbn. by rewrite take_0.
        -- done.
        -- exact Herrb.
Qed.

End Buckets.

(** ** Partial restore: one organization *)

Section Organization.
Context (env : Env) (b : cmdRestoreBuilder).

(** [resolveOrganization], step by step. *)
Lemma resolveOrganization_run (org : Organization.t) (w : World) :
  let newOrg := newOrgOf b org in
  let found := FindOrganization env (events w) (Organization.Name newOrg) in
  let h1 :=
    events w ++ [CallFindOrganization (Organization.Name newOrg) found] in
  let created := CreateOrganization env h1 newOrg in
  let h2 := h1 ++ [CallCreateOrganization newOrg created] in
  resolveOrganization env b org w
  = match found with
    | Ok o => (Ok (Organization.ID o), mkWorld h1 (seed w))
    | Err err =>
        if String.eqb (ErrorCode err) ENotFound then
          match created with
          | Ok o => (Ok (Organization.ID o), mkWorld h2 (seed w))
          | Err e =>
              (Err (ErrorfError "cannot create organization: %w" e),
               mkWorld h2 (seed w))
          end
        else
          (Err (ErrorfError "cannot find existing organization: %#v" err),
           mkWorld h1 (seed w))
    end.
Proof.
  cbn zeta. unfold resolveOrganization. run_step.
  destruct (FindOrganization env _ _) as [o|err]; [reflexivity|].
  destruct (String.eqb (ErrorCode err) ENotFound); [|reflexivity].
  run_step. destruct (CreateOrganization env _ _); reflexivity.
Qed.

Lemma restoreOrganization_run (org : Organization.t) (w : World) :
  restoreOrganization env b org w
  = match resolveOrganization env b org
            (mkWorld (events w ++ [logRestoringOrganization env org])
               (seed w)) with
    | (Ok newOrgID, w1) => restoreOrganizationBuckets env b org newOrgID w1
    | (Err e, w1) => (Err e, w1)
    end.
Proof. reflexivity. Qed.

(** The bucket phase, by cases. *)
Lemma restoreOrganizationBuckets_trace (org : Organization.t)
  (newOrgID : influxdb.ID) (w w' : World) (r : result unit) :
  restoreOrganizationBuckets env b org newOrgID w = (r, w') →
  ∃ new : list Event,
    events w' = events w ++ new
    ∧ match bucketFilter env b org with
      | Err e => r = Err e ∧ new = []
      | Ok filter =>
          match FindBuckets env filter with
          | Err e => r = Err e ∧ new = [EvFindBuckets filter]
          | Ok buckets =>
              ∃ new',
                new = EvFindBuckets filter :: new'
                ∧ Forall (bucketEvent env b newOrgID buckets) new'
                ∧ (∃ n, createdBuckets new'
                        = map (λ bkt, newBucketOf b (cloneInto newOrgID bkt))
                            (take n (List.filter restorable buckets)))
                ∧ (r = Ok tt →
                   createdBuckets new'
                   = map (λ bkt, newBucketOf b (cloneInto newOrgID bkt))
                       (List.filter restorable buckets))
                ∧ (∀ bk e, In (CallCreateBucket bk (Err e)) new' →
                     r = Err (ErrorfError "cannot create bucket: %w" e)
                     ∧ ∃ pre, new' = pre ++ [CallCreateBucket bk (Err e)])
          end
      end.
Proof.
  unfold restoreOrganizationBuckets.
  destruct (bucketFilter env b org) as [filter|e].
  2:{ intros [= <- <-]. exists []. by rewrite app_nil_r. }
  run_step. destruct (FindBuckets env filter) as [buckets|e].
  2:{ intros [= <- <-]. by eexists. }
  intros Hrun.
  apply restoreBuckets_trace in Hrun as (new' & Hnew & Hrest).
  exists (EvFindBuckets filter :: new'). cbn [events] in Hnew.
  rewrite Hnew, <- app_assoc. split; [done|]. by exists new'.
Qed.

(** A created bucket is in the organization it was cloned into. *)
Lemma bucketEvent_OrgID (newOrgID : influxdb.ID) (buckets : list Bucket.t)
  (new : list Event) :
  Forall (bucketEvent env b newOrgID buckets) new →
  (∀ o r, ¬ In (CallCreateOrganization o r) new)
  ∧ (∀ bk r, In (CallCreateBucket bk r) new → Bucket.OrgID bk = newOrgID).
Proof.
  intros Hall. rewrite Forall_forall in Hall. split.
  - intros o r Hin. apply list_elem_of_In, Hall in Hin. exact Hin.
  - intros bk r Hin. apply list_elem_of_In, Hall in Hin.
    destruct Hin as (bkt & _ & _ & ->). unfold newBucketOf.
    by destruct (negb _).
Qed.

Lemma restoreOrganizationBuckets_OrgID (org : Organization.t)
  (newOrgID : influxdb.ID) (w w' : World) (r : result unit) :
  restoreOrganizationBuckets env b org newOrgID w = (r, w') →
  ∃ new : list Event,
    events w' = events w ++ new
    ∧ (∀ o r', ¬ In (CallCreateOrganization o r') new)
    ∧ (∀ bk r', In (CallCreateBucket bk r') new →
         Bucket.OrgID bk = newOrgID).
Proof.
  intros Hrun.
  apply restoreOrganizationBuckets_trace in Hrun as (new & Hnew & Hcases).
  exists new. split; [done|].
  destruct (bucketFilter env b org) as [filter|e].
  2:{ destruct Hcases as [_ ->]. split; intros ? ? []. }
  destruct (FindBuckets env filter) as [buckets|e].
  2:{ destruct Hcases as [_ ->]. split; intros ? ? [|[]]; done. }
  destruct Hcases as (new' & -> & Hall & _).
  destruct (bucketEvent_OrgID _ _ _ Hall) as [Hno Hid]. split.
  - intros o r' [|Hin]; [done | by eapply Hno].
  - intros bk r' [|Hin]; [done | by eapply Hid].
Qed.

(** C7: resolving the organization.  [restoreOrganization] first asks the
    server for the organization by its target name, which is the new name
    when one is given.  A not-found answer is followed by the creation of
    the organization, and a creation error ends the restore; any other
    lookup error ends the restore at once; a successful lookup is followed
    by no creation, and every bucket is created with the ID of the
    organization found. *)
Theorem restoreOrganization_finds_or_creates (org : Organization.t)
  (w w' : World) (r : result unit) :
  restoreOrganization env b org w = (r, w') →
  let target := Organization.Name (newOrgOf b org) in
  target = (if String.eqb (newOrgName b) "" then Organization.Name org
            else newOrgName b)
  ∧ ∃ (found : result Organization.t) (rest : list Event),
      events w'
      = events w
        ++ logRestoringOrganization env org
           :: CallFindOrganization target found :: rest
      ∧ match found with
        | Ok o =>
            (∀ o' r', ¬ In (CallCreateOrganization o' r') rest)
            ∧ (∀ bk r', In (CallCreateBucket bk r') rest →
                 Bucket.OrgID bk = Organization.ID o)
        | Err err =>
            if String.eqb (ErrorCode err) ENotFound then
              ∃ (created : result Organization.t) (rest' : list Event),
                rest
                = CallCreateOrganization (newOrgOf b org) created :: rest'
                ∧ (∀ o' r', ¬ In (CallCreateOrganization o' r') rest')
                ∧ match created with
                  | Ok o =>
                      ∀ bk r', In (CallCreateBucket bk r') rest' →
                        Bucket.OrgID bk = Organization.ID o
                  | Err e =>
                      r = Err (ErrorfError "cannot create organization: %w" e)
                      ∧ rest' = []
                  end
            else
              r = Err (ErrorfError "cannot find existing organization: %#v"
                         err)
              ∧ rest = []
        end.
Proof.
  intros Hrun. cbn zeta. split.
  { unfold newOrgOf. by destruct (String.eqb (newOrgName b) ""). }
  rewrite restoreOrganization_run, resolveOrganization_run in Hrun.
  cbn zeta in Hrun. cbn [events seed] in Hrun.
  destruct (FindOrganization env _ _) as [o|err].
  - apply restoreOrganizationBuckets_OrgID in Hrun as (new & Hnew & Hno & Hid).
    exists (Ok o), new. split; [|done].
    cbn [events] in Hnew. by rewrite Hnew, <- !app_assoc.
  - exists (Err err). destruct (String.eqb (ErrorCode err) ENotFound).
    + destruct (CreateOrganization env _ _) as [o|e].
      * apply restoreOrganizationBuckets_OrgID in Hrun
          as (new & Hnew & Hno & Hid).
        eexists. split.
        { cbn [events] in Hnew. rewrite Hnew, <- !app_assoc. reflexivity. }
        by eexists _, new.
      * injection Hrun as <- <-. eexists. split.
        { cbn [events]. rewrite <- !app_assoc. reflexivity. }
        eexists _, []. split; [done|]. split; [intros ? ? []|done].
    + injection Hrun as <- <-. exists []. split; [|done].
      cbn [events]. by rewrite <- !app_assoc.
Qed.

End Organization.

(** ** Partial restore: bucket selection and internal buckets *)

Section BucketSelection.
Context (env : Env) (b : cmdRestoreBuilder).

(** C9: the buckets of an organization.  Once the organization is
    resolved to the remote ID [newOrgID], the buckets are enumerated in the
    backup with a filter on the ID the organization has in the backup,
    narrowed by the bucket ID when [--bucket-id] is given and otherwise by
    the bucket name when [--bucket] is given.  The buckets found (internal
    buckets aside) are created on the server in order, each as a copy with
    the organization ID replaced by [newOrgID] and the name replaced by the
    new bucket name when one is given; all of them when the restore
    succeeds.  A creation error is the last thing that happens and is
    returned as the error of the restore. *)
Theorem restoreOrganization_creates_matching_buckets (org : Organization.t)
  (w w' w1 : World) (r : result unit) (newOrgID : influxdb.ID) :
  restoreOrganization env b org w = (r, w') →
  resolveOrganization env b org
    (mkWorld (events w ++ [logRestoringOrganization env org]) (seed w))
  = (Ok newOrgID, w1) →
  let copy := λ bkt, newBucketOf b (cloneInto newOrgID bkt) in
  (∀ bkt, copy bkt
          = Bucket.mk (Bucket.ID bkt) newOrgID
              (if String.eqb (newBucketName b) "" then Bucket.Name bkt
               else newBucketName b))
  ∧ match bucketFilter env b org with
    | Err e => r = Err e ∧ events w' = events w1
    | Ok filter =>
        BucketFilter.OrganizationID filter = Some (Organization.ID org)
        ∧ BucketFilter.ID filter
          = (if String.eqb (bucketID b) "" then None
             else match IDFromString env (bucketID b) with
                  | Ok id => Some id
                  | Err _ => None
                  end)
        ∧ BucketFilter.Name filter
          = (if String.eqb (bucketID b) ""
             then if String.eqb (bucketName b) "" then None
                  else Some (bucketName b)
             else None)
        ∧ match FindBuckets env filter with
          | Err e =>
              r = Err e ∧ events w' = events w1 ++ [EvFindBuckets filter]
          | Ok buckets =>
              ∃ new : list Event,
                events w' = events w1 ++ EvFindBuckets filter :: new
                ∧ (∃ n, createdBuckets new
                        = map copy (take n (List.filter restorable buckets)))
                ∧ (r = Ok tt →
                   createdBuckets new
                   = map copy (List.filter restorable buckets))
                ∧ (∀ bk e, In (CallCreateBucket bk (Err e)) new →
                     r = Err (ErrorfError "cannot create bucket: %w" e)
                     ∧ ∃ pre, new = pre ++ [CallCreateBucket bk (Err e)])
          end
    end.
Proof.
  intros Hrun Hresolve. cbn zeta. split.
  { intros bkt. unfold newBucketOf, cloneInto.
    by destruct (String.eqb (newBucketName b) ""). }
  rewrite restoreOrganization_run, Hresolve in Hrun.
  apply restoreOrganizationBuckets_trace in Hrun as (new & Hnew & Hcases).
  assert (Hfilter : ∀ filter, bucketFilter env b org = Ok filter →
            BucketFilter.OrganizationID filter = Some (Organization.ID org)
            ∧ BucketFilter.ID filter
              = (if String.eqb (bucketID b) "" then None
                 else match IDFromString env (bucketID b) with
                      | Ok id => Some id
                      | Err _ => None
                      end)
            ∧ BucketFilter.Name filter
              = (if String.eqb (bucketID b) ""
                 then if String.eqb (bucketName b) "" then None
                      else Some (bucketName b)
                 else None)).
  { intros filter. unfold bucketFilter.
    destruct (String.eqb (bucketID b) ""); cbn [negb].
    - by destruct (String.eqb (bucketName b) ""); intros [= <-].
    - by destruct (IDFromString env (bucketID b)); intros [= <-]. }
  destruct (bucketFilter env b org) as [filter|e].
  2:{ destruct Hcases as [-> ->]. by rewrite app_nil_r in Hnew. }
  destruct (Hfilter filter eq_refl) as (Ho & Hi & Hn).
  split; [done|]. split; [done|]. split; [done|].
  destruct (FindBuckets env filter) as [buckets|e].
  2:{ by destruct Hcases as [-> ->]. }
  destruct Hcases as (new' & -> & _ & Hcreated & Hok & Herr).
  by exists new'.
Qed.

(** *** The environment without internal buckets *)

Lemma restoreBucketShards_withoutInternal (bkt : Bucket.t)
  (shardIDMap : gmap N N) (files : list ManifestEntry.t) (w : World) :
  restoreBucketShards (withoutInternalBuckets env) b bkt shardIDMap files w
  = restoreBucketShards env b bkt shardIDMap files w.
Proof.
  revert w. induction files as [|file files IH]; intros w; [reflexivity|].
  cbn [restoreBucketShards]. change (IDString (withoutInternalBuckets env))
    with (IDString env).
  destruct (negb _); [apply IH|].
  destruct (shardIDMap !! ManifestEntry.ShardID file) as [newID|];
    [|reflexivity].
  rewrite !run_bind.
  change (restoreShard (withoutInternalBuckets env) b newID file w)
    with (restoreShard env b newID file w).
  destruct (restoreShard env b newID file w) as [[[]|e] w1];
    [apply IH | reflexivity].
Qed.

Lemma restoreBucket_withoutInternal (bkt : Bucket.t) (w : World) :
  restoreBucket (withoutInternalBuckets env) b bkt w
  = restoreBucket env b bkt w.
Proof.
  rewrite !restoreBucket_run. cbn zeta.
  cbn [withoutInternalBuckets IDString CreateBucket Database RestoreBucket
         rangeOrder].
  destruct (CreateBucket env _ _) as [newBucket|e]; [|reflexivity].
  destruct (Database env _) as [dbi|]; [|reflexivity].
  destruct (MarshalBinary dbi) as [buf|e]; [|reflexivity].
  destruct (RestoreBucket env _ _ _) as [m|e]; [|reflexivity].
  apply restoreBucketShards_withoutInternal.
Qed.

Lemma restoreBuckets_withoutInternal (newOrgID : influxdb.ID)
  (buckets : list Bucket.t) (w : World) :
  restoreBuckets (withoutInternalBuckets env) b newOrgID buckets w
  = restoreBuckets env b newOrgID buckets w.
Proof.
  revert w. induction buckets as [|bkt buckets IH]; intros w; [reflexivity|].
  cbn [restoreBuckets]. destruct (HasPrefix _ _); [apply IH|].
  rewrite !run_bind, restoreBucket_withoutInternal.
  destruct (restoreBucket env b _ w) as [[[]|e] w1]; [apply IH | reflexivity].
Qed.

(** The loop over the buckets does not see the internal buckets. *)
Lemma restoreBuckets_restorable (newOrgID : influxdb.ID)
  (buckets : list Bucket.t) (w : World) :
  restoreBuckets env b newOrgID (List.filter restorable buckets) w
  = restoreBuckets env b newOrgID buckets w.
Proof.
  revert w. induction buckets as [|bkt buckets IH]; intros w; [reflexivity|].
  cbn [restoreBuckets List.filter]. unfold restorable at 1.
  destruct (HasPrefix (Bucket.Name bkt) "_") eqn:Hint; cbn [negb];
    [apply IH|].
  cbn [restoreBuckets]. rewrite Hint, !run_bind.
  destruct (restoreBucket env b _ w) as [[[]|e] w1]; [apply IH | reflexivity].
Qed.

(** C6: internal buckets.  A bucket of the backup whose name begins with
    "_" is skipped by partial restore, with or without a bucket ID or name
    filter that selects it: restoring an organization does exactly what it
    would do for a backup that lists no internal bucket; every bucket it
    creates on the server is the copy of a bucket of the enumeration whose
    name does not begin with "_"; and every shard it transfers belongs to
    such a bucket. *)
Theorem restoreOrganization_skips_internal_buckets (org : Organization.t)
  (w : World) :
  restoreOrganization env b org w
  = restoreOrganization (withoutInternalBuckets env) b org w
  ∧ ∀ (r : result unit) (w' : World),
      restoreOrganization env b org w = (r, w') →
      ∃ new : list Event,
        events w' = events w ++ new
        ∧ (∀ bk answer, In (CallCreateBucket bk answer) new →
             ∃ filter buckets bkt,
               bucketFilter env b org = Ok filter
               ∧ FindBuckets env filter = Ok buckets
               ∧ bkt ∈ buckets
               ∧ HasPrefix (Bucket.Name bkt) "_" = false
               ∧ bk = newBucketOf b (cloneInto (Bucket.OrgID bk) bkt))
        ∧ (∀ id file answer, In (CallRestoreShard id file answer) new →
             ∃ filter buckets bkt n f,
               bucketFilter env b org = Ok filter
               ∧ FindBuckets env filter = Ok buckets
               ∧ bkt ∈ buckets
               ∧ HasPrefix (Bucket.Name bkt) "_" = false
               ∧ f ∈ rangeOrder env n (shardEntries b)
               ∧ ManifestEntry.BucketID f = IDString env (Bucket.ID bkt)
               ∧ file = Join env (path b) (ManifestEntry.FileName f)).
Proof.
  split.
  - rewrite !restoreOrganization_run.
    change (resolveOrganization (withoutInternalBuckets env) b org)
      with (resolveOrganization env b org).
    change (logRestoringOrganization (withoutInternalBuckets env) org)
      with (logRestoringOrganization env org).
    destruct (resolveOrganization env b org _) as [[newOrgID|e] w1];
      [|reflexivity].
    unfold restoreOrganizationBuckets.
    change (bucketFilter (withoutInternalBuckets env) b org)
      with (bucketFilter env b org).
    destruct (bucketFilter env b org) as [filter|e]; [|reflexivity].
    run_step. cbn [withoutInternalBuckets FindBuckets].
    destruct (FindBuckets env filter) as [buckets|e]; [|reflexivity].
    by rewrite restoreBuckets_withoutInternal, restoreBuckets_restorable.
  - intros r w' Hrun.
    rewrite restoreOrganization_run, resolveOrganization_run in Hrun.
    cbn zeta in Hrun. cbn [events seed] in Hrun.
    assert (Hphase : ∀ newOrgID w1 pre,
              events w1 = events w ++ pre →
              (∀ bk answer, ¬ In (CallCreateBucket bk answer) pre) →
              (∀ id file answer, ¬ In (CallRestoreShard id file answer) pre) →
              restoreOrganizationBuckets env b org newOrgID w1 = (r, w') →
              ∃ new : list Event,
                events w' = events w ++ new
                ∧ (∀ bk answer, In (CallCreateBucket bk answer) new →
                     ∃ filter buckets bkt,
                       bucketFilter env b org = Ok filter
                       ∧ FindBuckets env filter = Ok buckets
                       ∧ bkt ∈ buckets
                       ∧ HasPrefix (Bucket.Name bkt) "_" = false
                       ∧ bk = newBucketOf b (cloneInto (Bucket.OrgID bk) bkt))
                ∧ (∀ id file answer,
                     In (CallRestoreShard id file answer) new →
                     ∃ filter buckets bkt n f,
                       bucketFilter env b org = Ok filter
                       ∧ FindBuckets env filter = Ok buckets
                       ∧ bkt ∈ buckets
                       ∧ HasPrefix (Bucket.Name bkt) "_" = false
                       ∧ f ∈ rangeOrder env n (shardEntries b)
                       ∧ ManifestEntry.BucketID f
                         = IDString env (Bucket.ID bkt)
                       ∧ file
                         = Join env (path b) (ManifestEntry.FileName f))).
    { intros newOrgID w1 pre Hw1 Hpre1 Hpre2 Hb.
      apply restoreOrganizationBuckets_trace in Hb as (new & Hnew & Hcases).
      exists (pre ++ new). rewrite Hnew, Hw1, app_assoc. split; [done|].
      destruct (bucketFilter env b org) as [filter|e].
      2:{ destruct Hcases as [_ ->]. rewrite app_nil_r. split.
          - intros bk answer Hin. by destruct (Hpre1 _ _ Hin).
          - intros id file answer Hin. by destruct (Hpre2 _ _ _ Hin). }
      destruct (FindBuckets env filter) as [buckets|e] eqn:HF.
      2:{ destruct Hcases as [_ ->]. split.
          - intros bk answer Hin. apply in_app_iff in Hin as [Hin|[|[]]];
              [by destruct (Hpre1 _ _ Hin) | done].
          - intros id file answer Hin.
            apply in_app_iff in Hin as [Hin|[|[]]];
              [by destruct (Hpre2 _ _ _ Hin) | done]. }
      destruct Hcases as (new' & -> & Hall & _).
      rewrite Forall_forall in Hall. split.
      - intros bk answer Hin. apply in_app_iff in Hin as [Hin|[|Hin]];
          [by destruct (Hpre1 _ _ Hin) | done |].
        apply list_elem_of_In, Hall in Hin as (bkt & Hbkt & Hres & Hbk).
        exists filter, buckets, bkt. split; [done|]. split; [done|].
        split; [done|]. split; [by apply negb_true_iff in Hres|].
        assert (Bucket.OrgID bk = newOrgID) as ->; [|exact Hbk].
        rewrite Hbk. unfold newBucketOf. by destruct (negb _).
      - intros id file answer Hin.
        apply in_app_iff in Hin as [Hin|[|Hin]];
          [by destruct (Hpre2 _ _ _ Hin) | done |].
        apply list_elem_of_In, Hall in Hin
          as (bkt & n & f & Hbkt & Hres & Hf & Hown & ->).
        exists filter, buckets, bkt, n, f. split; [done|]. split; [done|].
        split; [done|]. split; [by apply negb_true_iff in Hres|]. done. }
    destruct (FindOrganization env _ _) as [o|err].
    + eapply Hphase; [| | |exact Hrun].
      * cbn [events]. rewrite <- !app_assoc. reflexivity.
      * by intros bk answer [|[|[]]].
      * by intros id file answer [|[|[]]].
    + destruct (String.eqb (ErrorCode err) ENotFound).
      * destruct (CreateOrganization env _ _) as [o|e].
        -- eapply Hphase; [| | |exact Hrun].
           ++ cbn [events]. rewrite <- !app_assoc. reflexivity.
           ++ by intros bk answer [|[|[|[]]]].
           ++ by intros id file answer [|[|[|[]]]].
        -- injection Hrun as <- <-. eexists. split.
           { cbn [events]. rewrite <- !app_assoc. reflexivity. }
           split; [by intros bk answer [|[|[|[]]]]|].
           by intros id file answer [|[|[|[]]]].
      * injection Hrun as <- <-. eexists. split.
        { cbn [events]. rewrite <- !app_assoc. reflexivity. }
        split; [by intros bk answer [|[|[]]]|].
        by intros id file answer [|[|[]]].
Qed.

End BucketSelection.

(** * The theorems on the example directory *)

(** The plan keeps the descriptor of 2 January for shard 7. *)
Lemma loadIncremental_keeps_greatest_witness :
  shardEntries Example.builder = ∅
  ∧ NoDup (ManifestEntry.LastModified
             <$> candidates Example.env "backup" Example.names 7)
  ∧ greatest (candidates Example.env "backup" Example.names 7)
      Example.shard7_0102.
Proof.
  assert (Hnd : NoDup (ManifestEntry.LastModified
                         <$> candidates Example.env "backup" Example.names 7)).
  { apply (bool_decide_unpack _). by vm_compute. }
  split; [reflexivity|]. split; [exact Hnd|].
  refine (proj1 (proj1 (loadIncremental_keeps_greatest Example.env
                          Example.builder Example.loaded Example.world
                          (loadIncremental Example.env Example.builder
                             Example.world).2
                          Example.names 7%N eq_refl eq_refl Hnd _)
                   Example.shard7_0102) _).
  - vm_compute. reflexivity.
  - vm_compute. reflexivity.
Defined.

(** The descriptor of shard 9, whose archive is missing, is not in the
    plan. *)
Lemma loadIncremental_excludes_missing_witness :
  shardEntries Example.builder = ∅
  ∧ Stat Example.env "backup/20230101T000000Z.s9.tar.gz" = Err Example.enoent
  ∧ ∀ id, shardEntries Example.loaded !! id ≠ Some Example.shard9_0101.
Proof.
  split; [reflexivity|]. split; [reflexivity|].
  refine (proj2 (loadIncremental_excludes_missing Example.env Example.builder
                   Example.loaded None Example.world
                   (loadIncremental Example.env Example.builder
                      Example.world).2 eq_refl _)
            Example.shard9_0101 Example.enoent _).
  - vm_compute. reflexivity.
  - vm_compute. reflexivity.
Defined.

(** [influx restore --new-org analytics backup] stops before it reads the
    directory. *)
Lemma restoreRunE_rename_precondition_witness :
  newOrgName (setFlag Example.builder "new-org" "analytics") ≠ ""
  ∧ ∃ e : error,
      restoreRunE Example.env (setFlag Example.builder "new-org" "analytics")
        Example.world
      = (Err e, Example.world)
      ∧ (NewLogger Example.env = None →
         e = errRenameOrg ∨ e = errRenameBucket).
Proof.
  assert (Hn : newOrgName (setFlag Example.builder "new-org" "analytics") ≠ "")
    by discriminate.
  split; [exact Hn|].
  destruct (restoreRunE_rename_precondition Example.env
              (setFlag Example.builder "new-org" "analytics") Example.world
              (or_introl (conj Hn (conj eq_refl eq_refl))))
    as (e & Hrun & He & _).
  exists e. split; [exact Hrun | exact He].
Defined.

Lemma Example_rangeOrder_spec (second : Manifest.t) :
  rangeOrder_spec (Example.envWith second).
Proof. intros n m. reflexivity. Qed.

(** Full restore of the example: the snapshot, then shards 8 and 7. *)
Lemma restoreFull_metadata_then_shards_witness :
  kvEntry Example.loaded = Some Example.kv_0102
  ∧ ∃ new : list Event,
      events (restoreFull Example.env Example.loaded Example.world).2 = new
      ∧ remoteCalls new
        = [CallRestoreKVStore "backup/20230102T000000Z.bolt" None;
           CallRestoreShard 8 "backup/20230101T000000Z.s8.tar.gz" None;
           CallRestoreShard 7 "backup/20230102T000000Z.s7.tar.gz" None].
Proof.
  assert (Hkv : kvEntry Example.loaded = Some Example.kv_0102)
    by (vm_compute; reflexivity).
  assert (Hrun : restoreFull Example.env Example.loaded Example.world
                 = (Ok tt,
                    (restoreFull Example.env Example.loaded Example.world).2))
    by (vm_compute; reflexivity).
  split; [exact Hkv|].
  destruct (restoreFull_metadata_then_shards Example.env Example.loaded
              Example.kv_0102 Example.world _ (Ok tt)
              (Example_rangeOrder_spec _) Hkv Hrun)
    as (_ & new & Hnew & _ & Hcalls).
  exists new. split; [exact Hnew|]. rewrite Hcalls. vm_compute. reflexivity.
Defined.

(** Restoring [org1] with [--bucket _tasks] creates no bucket. *)
Lemma restoreOrganization_skips_internal_buckets_witness :
  let b := setFlag Example.loaded "bucket" "_tasks" in
  FindBuckets Example.env
    (BucketFilter.mk None (Some "_tasks") (Some 161%N))
  = Ok [Example.tasks]
  ∧ ∀ bk answer,
      ¬ In (CallCreateBucket bk answer)
          (events (restoreOrganization Example.env b Example.org1
                     Example.world).2).
Proof.
  cbn zeta. split; [reflexivity|]. intros bk answer Hin.
  destruct (proj2 (restoreOrganization_skips_internal_buckets Example.env
                     (setFlag Example.loaded "bucket" "_tasks") Example.org1
                     Example.world) _ _ (surjective_pairing _))
    as (new & Hnew & Hcreate & _).
  cbn [Example.world events app] in Hnew. rewrite Hnew in Hin.
  destruct (Hcreate bk answer Hin)
    as (filter & buckets & bkt & HF & HB & Hbkt & Hint & _).
  vm_compute in HF. injection HF as <-.
  vm_compute in HB. injection HB as <-.
  apply list_elem_of_singleton in Hbkt as ->. discriminate.
Defined.

(** Restoring [org1] on a server that does not know it. *)
Lemma restoreOrganization_finds_or_creates_witness :
  ∃ (found : result Organization.t) (rest : list Event),
    events (restoreOrganization Example.env Example.loaded Example.org1
              Example.world).2
    = logRestoringOrganization Example.env Example.org1
      :: CallFindOrganization "org1" found :: rest.
Proof.
  destruct (restoreOrganization_finds_or_creates Example.env Example.loaded
              Example.org1 Example.world _ _ (surjective_pairing _))
    as (_ & found & rest & Hev & _).
  exists found, rest. exact Hev.
Defined.

(** The server restored the catalog entry of shard 7 only; the loop meets
    shard 8 first. *)
Lemma restoreBucket_stops_at_unmapped_shard_witness :
  let w' := (restoreBucket Example.env Example.loaded
               (cloneInto 1001%N Example.telegraf) Example.world).2 in
  rangeOrder Example.env 0 (shardEntries Example.loaded)
  = [] ++ Example.shard8_0101 :: [Example.shard7_0102]
  ∧ ∃ before, events w' = before ++ [warnMetaNotFound Example.shard8_0101].
Proof.
  cbn zeta.
  assert (Horder : rangeOrder Example.env 0 (shardEntries Example.loaded)
                   = [] ++ Example.shard8_0101 :: [Example.shard7_0102])
    by (vm_compute; reflexivity).
  split; [exact Horder|].
  assert (Hrun : restoreBucket Example.env Example.loaded
                   (cloneInto 1001%N Example.telegraf) Example.world
                 = (Ok tt,
                    (restoreBucket Example.env Example.loaded
                       (cloneInto 1001%N Example.telegraf) Example.world).2))
    by (vm_compute; reflexivity).
  assert (Hcall : In (CallRestoreBucket 2001%N [Byte.x0a] (Ok {[7%N := 70%N]}))
                    (events (restoreBucket Example.env Example.loaded
                               (cloneInto 1001%N Example.telegraf)
                               Example.world).2)).
  { vm_compute. do 3 right. left. reflexivity. }
  destruct (restoreBucket_stops_at_unmapped_shard Example.env Example.loaded
              (cloneInto 1001%N Example.telegraf) Example.world _ (Ok tt)
              _ 2001%N [Byte.x0a] {[7%N := 70%N]} [] Example.shard8_0101
              [Example.shard7_0102] Hrun eq_refl Hcall Horder eq_refl eq_refl
              (λ g Hg _, False_ind _ (proj1 (elem_of_nil g) Hg)))
    as (newBucket & Hwarn & _).
  exact Hwarn.
Defined.

(** [--bucket telegraf --new-bucket imported]: one bucket is created, in
    the organization the server created, under the new name. *)
Lemma restoreOrganization_creates_matching_buckets_witness :
  let b := setFlag (setFlag Example.loaded "bucket" "telegraf")
             "new-bucket" "imported" in
  ∃ w1 new,
    resolveOrganization Example.env b Example.org1
      (mkWorld [logRestoringOrganization Example.env Example.org1] 0)
    = (Ok 1002%N, w1)
    ∧ events (restoreOrganization Example.env b Example.org1
                Example.world).2
      = events w1
        ++ EvFindBuckets (BucketFilter.mk None (Some "telegraf") (Some 161%N))
           :: new
    ∧ createdBuckets new = [Bucket.mk 2817%N 1002%N "imported"].
Proof.
  cbn zeta.
  set (b := setFlag (setFlag Example.loaded "bucket" "telegraf")
              "new-bucket" "imported").
  assert (Hrun : restoreOrganization Example.env b Example.org1 Example.world
                 = (Ok tt,
                    (restoreOrganization Example.env b Example.org1
                       Example.world).2))
    by (vm_compute; reflexivity).
  assert (Hres : resolveOrganization Example.env b Example.org1
                   (mkWorld [logRestoringOrganization Example.env Example.org1]
                      0)
                 = (Ok 1002%N,
                    (resolveOrganization Example.env b Example.org1
                       (mkWorld
                          [logRestoringOrganization Example.env Example.org1]
                          0)).2))
    by (vm_compute; reflexivity).
  pose proof (proj2 (restoreOrganization_creates_matching_buckets Example.env
                       b Example.org1 Example.world _ _ (Ok tt) 1002%N Hrun
                       Hres)) as H.
  destruct H as (_ & _ & _ & H).
  assert (HB : FindBuckets Example.env
                 (BucketFilter.mk None (Some (bucketName b))
                    (Some (Organization.ID Example.org1)))
               = Ok [Example.telegraf]) by reflexivity.
  rewrite HB in H. destruct H as (new & Hnew & _ & Hok & _).
  eexists _, new. split; [exact Hres|]. split; [exact Hnew|].
  rewrite (Hok eq_refl). vm_compute. reflexivity.
Defined.

(** * Further properties of the restore command *)

(** ** loadIncremental: what it reads and what it keeps *)

Section LoadTrace.
Context (env : Env).

Lemma sameFlags_refl (b : cmdRestoreBuilder) : sameFlags b b.
Proof. by repeat split. Qed.

Lemma sameFlags_trans (b1 b2 b3 : cmdRestoreBuilder) :
  sameFlags b1 b2 → sameFlags b2 b3 → sameFlags b1 b3.
Proof.
  intros (? & ? & ? & ? & ? & ? & ?) (? & ? & ? & ? & ? & ? & ?).
  repeat split; congruence.
Qed.

(** The inner loop only looks for archives. *)
Lemma loadFiles_trace (files : list ManifestEntry.t) (b : cmdRestoreBuilder)
  (w : World) :
  ∃ new : list Event,
    loadFiles env b files w
    = (Ok (set_shardEntries b
             (foldl keepEntry (shardEntries b)
                (filter (λ sh, archivePresent env (path b) sh) files))),
       mkWorld (events w ++ new) (seed w))
    ∧ Forall (λ ev, isLocalRead ev = true) new.
Proof.
  revert b w. induction files as [|sh files IH]; intros b w.
  - exists []. rewrite app_nil_r. split; [by destruct b, w | constructor].
  - cbn [loadFiles]. run_step. rewrite filter_cons.
    destruct (Stat env (Join env (path b) (ManifestEntry.FileName sh)))
      eqn:HS.
    + assert (Hp : Is_true (archivePresent env (path b) sh)).
      { unfold archivePresent. rewrite HS. exact I. }
      rewrite decide_True by exact Hp.
      edestruct IH as (new & -> & Hnew). cbn [events seed path].
      exists (EvStat (Join env (path b) (ManifestEntry.FileName sh)) :: new).
      split; [by rewrite <- app_assoc | by constructor].
    + assert (Hp : ¬ Is_true (archivePresent env (path b) sh)).
      { unfold archivePresent. rewrite HS. intros []. }
      rewrite decide_False by exact Hp.
      edestruct IH as (new & -> & Hnew). cbn [events seed].
      exists (EvStat (Join env (path b) (ManifestEntry.FileName sh)) :: new).
      split; [by rewrite <- app_assoc | by constructor].
Qed.

(** The outer loop only reads the directory, keeps the command line, and
    keeps a snapshot that is already selected. *)
Lemma loadManifests_trace (l : list string) (b : cmdRestoreBuilder)
  (w : World) :
  ∃ (b' : cmdRestoreBuilder) (err : option error) (new : list Event),
    loadManifests env b l w
    = (Ok (b', err), mkWorld (events w ++ new) (seed w))
    ∧ Forall (λ ev, isLocalRead ev = true) new
    ∧ sameFlags b b'
    ∧ (∀ kv, kvEntry b = Some kv → kvEntry b' = Some kv).
Proof.
  revert b w. induction l as [|f l IH]; intros b w; cbn [loadManifests].
  - exists b, None, []. rewrite app_nil_r.
    split; [by destruct w|]. split; [constructor|].
    split; [apply sameFlags_refl | done].
  - run_step. destruct (Stat env f) as [[]|e].
    + edestruct IH as (b' & err & new & -> & Hnew & Hflags & Hkv).
      cbn [events seed]. exists b', err, (EvStat f :: new).
      split; [by rewrite <- app_assoc|]. split; [by constructor | done].
    + run_step. destruct (ReadFile env f) as [buf|e].
      2:{ exists b, (Some e), [EvStat f; EvReadFile f].
          split; [by rewrite <- !app_assoc|].
          split; [by repeat constructor|].
          split; [apply sameFlags_refl | done]. }
      destruct (Unmarshal env buf) as [m|e].
      2:{ eexists b, _, [EvStat f; EvReadFile f].
          split; [by rewrite <- !app_assoc|].
          split; [by repeat constructor|].
          split; [apply sameFlags_refl | done]. }
      run_step.
      set (b1 := match kvEntry b with
                 | Some _ => b
                 | None => set_kvEntry b (Some (Manifest.KV m))
                 end).
      assert (Hb1 : sameFlags b b1
                    ∧ ∀ kv, kvEntry b = Some kv → kvEntry b1 = Some kv).
      { subst b1. destruct (kvEntry b) eqn:Hk.
        - split; [apply sameFlags_refl|]. intros kv Hkv. congruence.
        - split; [by repeat split|]. intros kv Hkv. discriminate. }
      destruct Hb1 as [Hflags1 Hkv1].
      edestruct (loadFiles_trace (Manifest.Files m) b1) as (new1 & -> & Hnew1).
      cbn [events seed].
      edestruct IH as (b' & err & new & -> & Hnew & Hflags & Hkv).
      cbn [events seed]. exists b', err, (EvStat f :: EvReadFile f :: new1 ++ new).
      split; [by rewrite <- !app_assoc|]. split.
      { repeat (constructor; [done|]). by apply Forall_app. }
      split.
      * eapply sameFlags_trans; [exact Hflags1|]. exact Hflags.
      * intros kv Hk. apply Hkv. cbn. by apply Hkv1.
    + exists b, (Some e), [EvStat f]. split; [done|].
      split; [by repeat constructor|]. split; [apply sameFlags_refl | done].
Qed.

Lemma loadIncremental_trace (b : cmdRestoreBuilder) (w : World) :
  ∃ (b' : cmdRestoreBuilder) (err : option error) (new : list Event),
    loadIncremental env b w
    = (Ok (b', err), mkWorld (events w ++ new) (seed w))
    ∧ Forall (λ ev, isLocalRead ev = true) new
    ∧ sameFlags b b'
    ∧ (∀ kv, kvEntry b = Some kv → kvEntry b' = Some kv).
Proof.
  unfold loadIncremental. run_step.
  destruct (Glob env _) as [names|e].
  - destruct (Nat.eqb _ _).
    + eexists b, None, [_]. split; [done|]. split; [by repeat constructor|].
      split; [apply sameFlags_refl | done].
    + edestruct (loadManifests_trace (sortReverse names)
                   (set_shardEntries b ∅))
        as (b' & err & new & -> & Hnew & Hflags & Hkv).
      cbn [events seed]. eexists b', err, (_ :: new).
      split; [by rewrite <- app_assoc|]. split; [by constructor|].
      split; [|exact Hkv]. eapply sameFlags_trans; [|exact Hflags].
      by repeat split.
  - eexists b, (Some e), [_]. split; [done|]. split; [by repeat constructor|].
    split; [apply sameFlags_refl | done].
Qed.

Lemma localReads_no_remoteCalls (new : list Event) :
  Forall (λ ev, isLocalRead ev = true) new → remoteCalls new = [].
Proof.
  induction 1 as [|ev new Hev _ IH]; [done|].
  unfold remoteCalls in *. cbn. rewrite IH. by destruct ev.
Qed.

(** [restoreRunE] once the logger is built and the rename targets have
    their source filters. *)
Lemma restoreRunE_checked (b : cmdRestoreBuilder) (w : World) :
  NewLogger env = None →
  flagsConsistent b = true →
  restoreRunE env b w
  = match loadIncremental env b w with
    | (Ok (b1, Some err), w1) =>
        (Err (ErrorfError "restore failed while processing manifest files: %s"
                err), w1)
    | (Ok (b1, None), w1) =>
        match kvEntry b1 with
        | None =>
            (Err (ErrorfString "no manifest files found in: %s" (path b1)), w1)
        | Some _ =>
            match newHTTPClient env with
            | Some e => (Err e, w1)
            | None =>
                if full b1 then restoreFull env b1 w1
                else restorePartial env b1 w1
            end
        end
    | (Err e, w1) => (Err e, w1)
    end.
Proof.
  intros Hlog Hflags. unfold restoreRunE. rewrite Hlog. run_step.
  unfold flagsConsistent, missingSource in Hflags.
  apply andb_true_iff in Hflags as [H1 H2].
  apply negb_true_iff in H1, H2. rewrite H1, H2. run_step.
  destruct (loadIncremental env b w) as [[[b1 [err|]]|e] w1]; cbn [fst snd];
    try reflexivity.
  destruct (kvEntry b1); [|reflexivity].
  destruct (newHTTPClient env); run_step; [reflexivity|].
  by destruct (full b1).
Qed.

End LoadTrace.

(** ** loadIncremental: empty directories, unreadable manifests, ties *)

Section LoadEdges.
Context (env : Env).

Lemma firstKV_directories (l : list string) :
  (∀ f, f ∈ l → readManifest env f = Directory) → firstKV env l = None.
Proof.
  induction l as [|f l IH]; intros Hl; [done|]. cbn [firstKV].
  rewrite (Hl f) by apply list_elem_of_here. apply IH.
  intros g Hg. apply Hl. by apply list_elem_of_further.
Qed.

(** X1: a backup directory without manifest files.  When the directory
    holds no manifest file, or only directories whose name ends in
    ".manifest", [restoreRunE] fails with the no-manifest error that
    names the backup path, and has done nothing but read the directory. *)
Theorem restoreRunE_no_manifest (b : cmdRestoreBuilder) (w : World)
  (names : list string) :
  NewLogger env = None →
  flagsConsistent b = true →
  kvEntry b = None →
  Glob env (Join env (path b) "*.manifest") = Ok names →
  (∀ f, f ∈ names → readManifest env f = Directory) →
  ∃ new : list Event,
    restoreRunE env b w
    = (Err (ErrorfString "no manifest files found in: %s" (path b)),
       mkWorld (events w ++ new) (seed w))
    ∧ Forall (λ ev, isLocalRead ev = true) new
    ∧ remoteCalls new = [].
Proof.
  intros Hlog Hflags Hkv HG Hdirs. rewrite (restoreRunE_checked env b w Hlog Hflags).
  destruct (loadIncremental_trace env b w)
    as (b' & err & new & Hrun & Hnew & Hsame & _).
  rewrite Hrun. exists new.
  assert (Hres : err = None ∧ kvEntry b' = None).
  { rewrite (loadIncremental_run env b w names HG) in Hrun.
    destruct names as [|n names].
    - injection Hrun as <- <- _. by split.
    - edestruct (loadManifests_readable env (sortReverse (n :: names))
                   (set_shardEntries b ∅)) as [w' Hrun'].
      { apply Forall_forall. intros f Hf e.
        rewrite (Hdirs f) by (by apply elem_of_sortReverse). discriminate. }
      rewrite Hrun' in Hrun. injection Hrun as <- <- _. split; [done|].
      cbn. rewrite Hkv. apply firstKV_directories. intros f Hf.
      apply Hdirs. by apply (proj1 (elem_of_sortReverse _ _)). }
  destruct Hres as [-> Hkv']. rewrite Hkv'.
  destruct Hsame as (_ & _ & _ & _ & _ & _ & ->).
  split; [done|]. split; [done|]. by apply localReads_no_remoteCalls.
Qed.

(** The list up to its first unreadable file. *)
Lemma first_unreadable (l : list string) (f0 : string) (e0 : error) :
  f0 ∈ l → readManifest env f0 = Unreadable e0 →
  ∃ pre f e post,
    l = pre ++ f :: post
    ∧ Forall (readable env) pre
    ∧ readManifest env f = Unreadable e.
Proof.
  induction l as [|g l IH]; intros Hin Hf0; [by apply elem_of_nil in Hin|].
  destruct (readManifest env g) as [e| |m] eqn:Hg.
  - exists [], g, e, l. by repeat split.
  - destruct IH as (pre & f & e & post & -> & Hpre & Hf).
    + apply elem_of_cons in Hin as [->|Hin]; [congruence | done].
    + done.
    + exists (g :: pre), f, e, post. split; [done|]. split; [|done].
      constructor; [|done]. intros e'. by rewrite Hg.
  - destruct IH as (pre & f & e & post & -> & Hpre & Hf).
    + apply elem_of_cons in Hin as [->|Hin]; [congruence | done].
    + done.
    + exists (g :: pre), f, e, post. split; [done|]. split; [|done].
      constructor; [|done]. intros e'. by rewrite Hg.
Qed.

(** The loop returns the error of the first unreadable file. *)
Lemma loadManifests_unreadable (pre : list string) (f : string) (e : error)
  (post : list string) (b : cmdRestoreBuilder) (w : World) :
  Forall (readable env) pre →
  readManifest env f = Unreadable e →
  ∃ b' w', loadManifests env b (pre ++ f :: post) w = (Ok (b', Some e), w').
Proof.
  intros Hpre Hf. revert b w.
  induction pre as [|g pre IH]; intros b w; cbn [app loadManifests].
  - run_step. unfold readManifest in Hf.
    destruct (Stat env f) as [[]|e1]; [done| |injection Hf as <-; by eexists _, _].
    run_step. destruct (ReadFile env f) as [buf|e1];
      [|injection Hf as <-; by eexists _, _].
    destruct (Unmarshal env buf) as [m|e1]; [done|].
    injection Hf as <-. by eexists _, _.
  - apply Forall_cons in Hpre as [Hg Hpre]. specialize (IH Hpre).
    run_step. unfold readable, readManifest in Hg.
    destruct (Stat env g) as [[]|e1]; [apply IH| |by destruct (Hg e1)].
    run_step. destruct (ReadFile env g) as [buf|e1]; [|by destruct (Hg e1)].
    destruct (Unmarshal env buf) as [m|e1];
      [|by destruct (Hg (ErrorfError "read manifest: %v" e1))].
    run_step. edestruct loadFiles_run as [w1 ->]. apply IH.
Qed.

(** X2: an unreadable manifest.  When some manifest file of the
    directory cannot be stat'ed, read or parsed, [restoreRunE] fails with
    the error of the greatest such file in filename order, wrapped as a
    manifest-processing failure, and has done nothing but read the
    directory: nothing of a partly readable backup is restored. *)
Theorem restoreRunE_unreadable_manifest (b : cmdRestoreBuilder) (w : World)
  (names : list string) (f0 : string) (e0 : error) :
  NewLogger env = None →
  flagsConsistent b = true →
  Glob env (Join env (path b) "*.manifest") = Ok names →
  f0 ∈ names →
  readManifest env f0 = Unreadable e0 →
  ∃ (f : string) (e : error) (new : list Event),
    f ∈ names
    ∧ readManifest env f = Unreadable e
    ∧ (∀ g e', g ∈ names → readManifest env g = Unreadable e' →
         String.le g f)
    ∧ restoreRunE env b w
      = (Err (ErrorfError
                "restore failed while processing manifest files: %s" e),
         mkWorld (events w ++ new) (seed w))
    ∧ remoteCalls new = [].
Proof.
  intros Hlog Hflags HG Hin Hf0.
  rewrite (restoreRunE_checked env b w Hlog Hflags).
  destruct (loadIncremental_trace env b w)
    as (b' & err & new & Hrun & Hnew & _ & _).
  rewrite Hrun.
  destruct (first_unreadable (sortReverse names) f0 e0)
    as (pre & f & e & post & Hsplit & Hpre & Hf);
    [by apply elem_of_sortReverse | done |].
  exists f, e, new.
  assert (Hfin : f ∈ names).
  { apply elem_of_sortReverse. rewrite Hsplit. set_solver. }
  split; [done|]. split; [done|]. split.
  { intros g e' Hg Hge. apply (proj2 (elem_of_sortReverse _ _)) in Hg.
    pose proof (sortReverse_sorted names) as Hsorted.
    rewrite Hsplit in Hg, Hsorted.
    apply elem_of_app in Hg as [Hg|Hg].
    - rewrite Forall_forall in Hpre. by destruct (Hpre g Hg e').
    - apply StronglySorted_app_1_r, StronglySorted_cons in Hsorted
        as [Hall _].
      apply elem_of_cons in Hg as [->|Hg]; [done|].
      rewrite Forall_forall in Hall. by apply Hall. }
  rewrite (loadIncremental_run env b w names HG) in Hrun.
  destruct names as [|n names]; [by apply elem_of_nil in Hin|].
  rewrite Hsplit in Hrun.
  edestruct (loadManifests_unreadable pre f e post) as (b2 & w2 & Hrun2);
    [exact Hpre | exact Hf |].
  rewrite Hrun2 in Hrun. injection Hrun as <- <- _.
  split; [done|]. by apply localReads_no_remoteCalls.
Qed.

(** *** Where the entries of the plan come from *)

Lemma foldl_keepEntry_Forall (Q : N → ManifestEntry.t → Prop)
  (l : list ManifestEntry.t) (m : gmap N ManifestEntry.t) :
  (∀ sh, sh ∈ l → Q (ManifestEntry.ShardID sh) sh) →
  (∀ id e, m !! id = Some e → Q id e) →
  ∀ id e, foldl keepEntry m l !! id = Some e → Q id e.
Proof.
  revert m. induction l as [|sh l IH]; intros m Hl Hm; [exact Hm|].
  cbn [foldl]. apply IH.
  - intros sh' Hsh'. apply Hl. by apply list_elem_of_further.
  - intros id e. destruct (decide (ManifestEntry.ShardID sh = id)) as [<-|Hne].
    + rewrite keepEntry_lookup. unfold pick.
      destruct (m !! ManifestEntry.ShardID sh) as [k|] eqn:Hk.
      * destruct (After _ _); intros [= <-];
          [apply Hl, list_elem_of_here | by apply Hm].
      * intros [= <-]. apply Hl, list_elem_of_here.
    + rewrite keepEntry_lookup_ne by done. apply Hm.
Qed.

Lemma loadManifests_Forall (Q : N → ManifestEntry.t → Prop) (l : list string)
  (b b' : cmdRestoreBuilder) (err : option error) (w w' : World) :
  (∀ f m sh, f ∈ l → readManifest env f = Regular m →
     sh ∈ Manifest.Files m → Q (ManifestEntry.ShardID sh) sh) →
  (∀ id e, shardEntries b !! id = Some e → Q id e) →
  loadManifests env b l w = (Ok (b', err), w') →
  ∀ id e, shardEntries b' !! id = Some e → Q id e.
Proof.
  revert b w. induction l as [|f l IH]; intros b w Hl Hb;
    cbn [loadManifests].
  - by intros [= <- <- <-].
  - assert (Hl' : ∀ g m sh, g ∈ l → readManifest env g = Regular m →
              sh ∈ Manifest.Files m → Q (ManifestEntry.ShardID sh) sh)
      by (intros g m sh Hg; apply Hl; by apply list_elem_of_further).
    specialize (Hl f). unfold readManifest in Hl. run_step.
    destruct (Stat env f) as [[]|e1].
    + by apply IH.
    + run_step. destruct (ReadFile env f) as [buf|e1];
        [|by intros [= <- <- <-]].
      destruct (Unmarshal env buf) as [m|e1]; [|by intros [= <- <- <-]].
      run_step. edestruct loadFiles_run as [w1 ->]. apply IH; [done|].
      cbn [shardEntries set_shardEntries].
      apply foldl_keepEntry_Forall.
      * intros sh Hsh. apply list_elem_of_filter in Hsh as [_ Hsh].
        eapply Hl; [apply list_elem_of_here | done | done].
      * by destruct (kvEntry b).
    + by intros [= <- <- <-].
Qed.

(** X3: provenance of the plan.  Whatever [loadIncremental] returns,
    every entry of the shard map it leaves behind is a shard descriptor
    listed in one of the manifest files of the directory, stored under its
    own shard ID. *)
Theorem loadIncremental_plan_provenance (b b1 : cmdRestoreBuilder)
  (err : option error) (w w1 : World) (names : list string) :
  shardEntries b = ∅ →
  Glob env (Join env (path b) "*.manifest") = Ok names →
  loadIncremental env b w = (Ok (b1, err), w1) →
  ∀ id e, shardEntries b1 !! id = Some e →
    ManifestEntry.ShardID e = id
    ∧ ∃ f m, f ∈ names ∧ readManifest env f = Regular m
             ∧ e ∈ Manifest.Files m.
Proof.
  intros Hempty HG. rewrite (loadIncremental_run env b w names HG).
  destruct names as [|n names].
  - intros [= <- <- <-] id e. by rewrite Hempty, lookup_empty.
  - apply (loadManifests_Forall
             (λ id e, ManifestEntry.ShardID e = id
                      ∧ ∃ f m, f ∈ n :: names
                               ∧ readManifest env f = Regular m
                               ∧ e ∈ Manifest.Files m)).
    + intros f m sh Hf Hm Hsh. split; [done|]. exists f, m.
      split; [by apply (proj1 (elem_of_sortReverse _ _)) | done].
    + intros id e. cbn. by rewrite lookup_empty.
Qed.

(** *** Equal times *)

Lemma foldl_pick_first (l : list ManifestEntry.t) (k e : ManifestEntry.t) :
  foldl pick (Some k) l = Some e →
  (e = k
   ∧ ∀ x, x ∈ l →
       (ManifestEntry.LastModified x ≤ ManifestEntry.LastModified k)%Z)
  ∨ ((ManifestEntry.LastModified k < ManifestEntry.LastModified e)%Z
     ∧ firstGreatest l e).
Proof.
  revert k. induction l as [|sh l IH]; intros k; cbn [foldl].
  - intros [= ->]. left. split; [done|]. intros x Hx.
    by apply elem_of_nil in Hx.
  - unfold pick at 2, After.
    destruct (Z.ltb_spec (ManifestEntry.LastModified k)
                (ManifestEntry.LastModified sh)) as [Hlt|Hge];
      intros Hfold; apply IH in Hfold as [[-> Hall]|[Hlt' Hfirst]].
    + right. split; [done|]. exists [], l. split; [done|].
      split; [|done]. intros x Hx. by apply elem_of_nil in Hx.
    + right. split; [lia|].
      destruct Hfirst as (before & after & -> & Hb & Ha).
      exists (sh :: before), after. split; [done|]. split; [|done].
      intros x Hx. apply elem_of_cons in Hx as [->|Hx]; [done | by apply Hb].
    + left. split; [done|]. intros x Hx.
      apply elem_of_cons in Hx as [->|Hx]; [done | by apply Hall].
    + right. split; [done|].
      destruct Hfirst as (before & after & -> & Hb & Ha).
      exists (sh :: before), after. split; [done|]. split; [|done].
      intros x Hx. apply elem_of_cons in Hx as [->|Hx]; [lia | by apply Hb].
Qed.

(** X4: the plan without any assumption on the times.  After a
    successful load the plan maps a shard ID to the first of its
    descriptors, in the order in which [loadIncremental] reads them (newest
    manifest first, then the order inside the manifest), that no other
    one beats: among descriptors with the same greatest time the one read
    first wins.  The shard ID is absent only when it has no descriptor. *)
Theorem loadIncremental_keeps_first_greatest (b b1 : cmdRestoreBuilder)
  (w w1 : World) (names : list string) (id : N) :
  shardEntries b = ∅ →
  Glob env (Join env (path b) "*.manifest") = Ok names →
  loadIncremental env b w = (Ok (b1, None), w1) →
  match shardEntries b1 !! id with
  | Some e =>
      firstGreatest (candidates env (path b) (sortReverse names) id) e
  | None => candidates env (path b) (sortReverse names) id = []
  end.
Proof.
  intros Hempty HG Hrun.
  destruct (loadIncremental_merged env _ _ _ _ _ HG Hrun) as (_ & Hplan & _).
  assert (Hplan' : shardEntries b1
            = foldl keepEntry ∅
                (sortReverse names ≫= descriptors env (path b))).
  { rewrite Hplan. by destruct names. }
  rewrite Hplan', foldl_keepEntry_lookup, lookup_empty.
  fold (candidates env (path b) (sortReverse names) id).
  destruct (candidates env (path b) (sortReverse names) id) as [|c cands];
    [done|].
  cbn [foldl pick].
  destruct (foldl pick (Some c) cands) as [e|] eqn:Hfold.
  - apply foldl_pick_first in Hfold as [[-> Hall]|[Hlt Hfirst]].
    + exists [], cands. split; [done|]. split; [|done].
      intros x Hx. by apply elem_of_nil in Hx.
    + destruct Hfirst as (before & after & -> & Hb & Ha).
      exists (c :: before), after. split; [done|]. split; [|done].
      intros x Hx. apply elem_of_cons in Hx as [->|Hx]; [done | by apply Hb].
  - by destruct (foldl_pick_is_Some cands c) as [x Hx]; rewrite Hfold in Hx.
Qed.

End LoadEdges.

(** ** Full and partial restore keep to their own calls *)

Section Modes.
Context (env : Env).

(** [restoreRunE] by cases on the logger and on the command line. *)
Lemma restoreRunE_cases (b : cmdRestoreBuilder) (w : World) :
  restoreRunE env b w
  = match NewLogger env with
    | Some e => (Err e, w)
    | None =>
        if flagsConsistent b then
          match loadIncremental env b w with
          | (Ok (b1, Some err), w1) =>
              (Err (ErrorfError
                      "restore failed while processing manifest files: %s" err),
               w1)
          | (Ok (b1, None), w1) =>
              match kvEntry b1 with
              | None =>
                  (Err (ErrorfString "no manifest files found in: %s"
                          (path b1)), w1)
              | Some _ =>
                  match newHTTPClient env with
                  | Some e => (Err e, w1)
                  | None =>
                      if full b1 then restoreFull env b1 w1
                      else restorePartial env b1 w1
                  end
              end
          | (Err e, w1) => (Err e, w1)
          end
        else
          (Err (if missingSource (newOrgName b) (organization.id (org b))
                     (organization.name (org b))
                then errRenameOrg else errRenameBucket), w)
    end.
Proof.
  destruct (NewLogger env) as [e|] eqn:Hlog.
  { unfold restoreRunE. rewrite Hlog. reflexivity. }
  destruct (flagsConsistent b) eqn:Hflags.
  { by apply restoreRunE_checked. }
  unfold restoreRunE. rewrite Hlog. run_step.
  unfold flagsConsistent in Hflags. fold (missingSource (newOrgName b)
    (organization.id (org b)) (organization.name (org b))).
  fold (missingSource (newBucketName b) (bucketID b) (bucketName b)).
  destruct (missingSource (newOrgName b) _ _); [reflexivity|].
  cbn in Hflags. apply negb_false_iff in Hflags. rewrite Hflags. reflexivity.
Qed.

(** The events of a full restore. *)
Lemma restoreShards_events (b : cmdRestoreBuilder)
  (files : list ManifestEntry.t) (w : World) :
  ∃ (r : result unit) (new : list Event),
    restoreShards env b files w = (r, mkWorld (events w ++ new) (seed w))
    ∧ Forall (λ ev, isFullEvent ev = true) new.
Proof.
  revert w. induction files as [|file files IH]; intros w.
  - exists (Ok tt), []. rewrite app_nil_r. split; [by destruct w | constructor].
  - cbn [restoreShards]. rewrite run_bind.
    destruct (restoreShard_trace env b (ManifestEntry.ShardID file) file w)
      as (r1 & new1 & -> & _ & Hshape).
    assert (Hnew1 : Forall (λ ev, isFullEvent ev = true) new1).
    { eapply Forall_impl; [exact Hshape|]. by intros [] Hev. }
    destruct r1 as [[]|e]; [|by exists (Err e), new1].
    destruct (IH (mkWorld (events w ++ new1) (seed w)))
      as (r2 & new2 & -> & Hnew2). cbn [events seed].
    exists r2, (new1 ++ new2). split; [by rewrite app_assoc|].
    by apply Forall_app.
Qed.

Lemma restoreFull_events (b : cmdRestoreBuilder) (w w' : World)
  (r : result unit) :
  restoreFull env b w = (r, w') →
  ∃ new, events w' = events w ++ new
         ∧ Forall (λ ev, isFullEvent ev = true) new.
Proof.
  unfold restoreFull, restoreKVStore. destruct (kvEntry b) as [kv|].
  2:{ intros [= <- <-]. exists []. by rewrite app_nil_r. }
  run_step. destruct (Open env _) as [e|]; run_step.
  { intros [= <- <-]. eexists [_]. by repeat constructor. }
  destruct (RestoreKVStore env _ _) as [e|]; run_step.
  { intros [= <- <-]. eexists [_; _]. rewrite <- !app_assoc.
    by repeat constructor. }
  match goal with
  | |- restoreShards _ _ ?fs ?w0 = _ → _ =>
      destruct (restoreShards_events b fs w0) as (r2 & new2 & -> & Hnew2)
  end.
  intros [= <- <-]. cbn [events]. eexists (_ :: _ :: _ :: new2).
  rewrite <- !app_assoc. split; [reflexivity|]. by repeat constructor.
Qed.

(** The events of the restore of one organization, and the lookup it
    makes. *)
Lemma restoreOrganization_events (b : cmdRestoreBuilder)
  (org : Organization.t) (w w' : World) (r : result unit) :
  restoreOrganization env b org w = (r, w') →
  ∃ new, events w' = events w ++ new
         ∧ Forall (λ ev, isPartialEvent ev = true) new
         ∧ lookups new = [Organization.Name (newOrgOf b org)].
Proof.
  rewrite restoreOrganization_run, resolveOrganization_run. cbn zeta.
  cbn [events seed].
  assert (Hphase : ∀ newOrgID w1 pre,
            events w1 = events w ++ pre →
            Forall (λ ev, isPartialEvent ev = true) pre →
            lookups pre = [Organization.Name (newOrgOf b org)] →
            restoreOrganizationBuckets env b org newOrgID w1 = (r, w') →
            ∃ new, events w' = events w ++ new
                   ∧ Forall (λ ev, isPartialEvent ev = true) new
                   ∧ lookups new = [Organization.Name (newOrgOf b org)]).
  { intros newOrgID w1 pre Hw1 Hpre Hlook Hb.
    apply restoreOrganizationBuckets_trace in Hb as (new & Hnew & Hcases).
    exists (pre ++ new). rewrite Hnew, Hw1, app_assoc. split; [done|].
    assert (Hnew' : Forall (λ ev, isPartialEvent ev = true) new
                    ∧ lookups new = []).
    { destruct (bucketFilter env b org) as [filter|e].
      2:{ by destruct Hcases as [_ ->]. }
      destruct (FindBuckets env filter) as [buckets|e].
      2:{ destruct Hcases as [_ ->]. split; [by repeat constructor | done]. }
      destruct Hcases as (new' & -> & Hall & _).
      assert (H' : Forall (λ ev, isPartialEvent ev = true) new'
                   ∧ lookups new' = []).
      { clear -Hall. induction Hall as [|ev new' Hev _ [IH1 IH2]];
          [by split|].
        split.
        - constructor; [|done]. by destruct ev.
        - unfold lookups in *. cbn. rewrite IH2. by destruct ev. }
      destruct H' as [H1 H2]. split; [by constructor | done]. }
    destruct Hnew' as [H1 H2]. split; [by apply Forall_app|].
    unfold lookups in *. by rewrite omap_app, Hlook, H2. }
  destruct (FindOrganization env _ _) as [o|err].
  - intros Hrun. eapply Hphase; [| | |exact Hrun];
      [cbn [events]; rewrite <- ?app_assoc; reflexivity
      | by repeat constructor | done].
  - destruct (String.eqb (ErrorCode err) ENotFound).
    + destruct (CreateOrganization env _ _) as [o|e].
      * intros Hrun. eapply Hphase; [| | |exact Hrun];
          [cbn [events]; rewrite <- ?app_assoc; reflexivity
          | by repeat constructor | done].
      * intros [= <- <-]. eexists [_; _; _]. rewrite <- !app_assoc.
        split; [reflexivity|]. split; [by repeat constructor | done].
    + intros [= <- <-]. eexists [_; _]. rewrite <- !app_assoc.
      split; [reflexivity|]. split; [by repeat constructor | done].
Qed.

(** The loop over the organizations: one lookup each, in order, up to
    the first failure. *)
Lemma restoreOrgs_events (b : cmdRestoreBuilder)
  (orgs : list Organization.t) (w w' : World) (r : result unit) :
  restoreOrgs env b orgs w = (r, w') →
  ∃ new, events w' = events w ++ new
         ∧ Forall (λ ev, isPartialEvent ev = true) new
         ∧ (∃ n, (n ≤ length orgs)%nat
                 ∧ ((∃ e, r = Err e) → (0 < n)%nat)
                 ∧ lookups new
                   = map (λ org, Organization.Name (newOrgOf b org))
                       (take n orgs))
         ∧ (r = Ok tt →
            lookups new
            = map (λ org, Organization.Name (newOrgOf b org)) orgs).
Proof.
  revert w. induction orgs as [|org orgs IH]; intros w; cbn [restoreOrgs].
  - intros [= <- <-]. exists []. rewrite app_nil_r. split; [done|].
    split; [constructor|]. split; [|done]. exists 0%nat.
    split; [done|]. split; [|done]. by intros [e [=]].
  - rewrite run_bind.
    destruct (restoreOrganization env b org w) as [r1 w1] eqn:Horg.
    apply restoreOrganization_events in Horg as (new1 & Hnew1 & Hp1 & Hl1).
    destruct r1 as [[]|e].
    + intros Hrun. apply IH in Hrun as (new & Hnew & Hp & Hn & Hok).
      exists (new1 ++ new). rewrite Hnew, Hnew1, app_assoc.
      split; [done|]. split; [by apply Forall_app|]. split.
      * destruct Hn as (n & Hle & Hpos & Hlook). exists (S n).
        split; [cbn; lia|]. split; [lia|].
        unfold lookups in *. by rewrite omap_app, Hl1, Hlook.
      * intros Hr. unfold lookups in *. by rewrite omap_app, Hl1, (Hok Hr).
    + intros [= <- <-]. exists new1. split; [done|]. split; [done|].
      split; [|done]. exists 1%nat. split; [cbn; lia|]. split; [lia|].
      cbn. by rewrite take_0.
Qed.

Lemma restorePartial_events (b : cmdRestoreBuilder) (w w' : World)
  (r : result unit) :
  restorePartial env b w = (r, w') →
  ∃ new, events w' = events w ++ new
         ∧ Forall (λ ev, isPartialEvent ev = true) new.
Proof.
  unfold restorePartial. destruct (kvEntry b) as [kv|].
  2:{ intros [= <- <-]. exists []. by rewrite app_nil_r. }
  run_step. destruct (BoltOpen env _) as [e|]; run_step.
  { intros [= <- <-]. eexists [_]. by repeat constructor. }
  destruct (MetaOpen env) as [e|]; run_step.
  { intros [= <- <-]. eexists [_; _]. rewrite <- !app_assoc.
    by repeat constructor. }
  unfold restoreOrganizations.
  destruct (organizationFilter env b) as [filter|e].
  2:{ intros [= <- <-]. eexists [_; _]. rewrite <- !app_assoc.
      by repeat constructor. }
  run_step. destruct (FindOrganizations env filter) as [orgs|e].
  2:{ intros [= <- <-]. eexists [_; _; _]. rewrite <- !app_assoc.
      by repeat constructor. }
  destruct (restoreOrgs env b orgs _) as [r1 w1] eqn:Horgs.
  apply restoreOrgs_events in Horgs as (new & Hnew & Hp & _).
  cbn [events] in Hnew. destruct r1 as [[]|e]; run_step.
  - intros [= <- <-]. cbn [events]. rewrite Hnew.
    eexists (_ :: _ :: _ :: new ++ [_]). rewrite <- !app_assoc.
    split; [reflexivity|]. repeat (constructor; [done|]).
    apply Forall_app. split; [done | by repeat constructor].
  - intros [= <- <-]. rewrite Hnew. eexists (_ :: _ :: _ :: new).
    rewrite <- !app_assoc. split; [reflexivity|]. by repeat constructor.
Qed.

(** X5: a restore without [--full] never replaces the metadata store of
    the server: whatever the backup, the command line and the answers of
    the server, [restoreRunE] makes no [RestoreKVStore] call. *)
Theorem restoreRunE_partial_keeps_metadata (b : cmdRestoreBuilder)
  (w w' : World) (r : result unit) :
  full b = false →
  restoreRunE env b w = (r, w') →
  ∃ new, events w' = events w ++ new
         ∧ ∀ file answer, ¬ In (CallRestoreKVStore file answer) new.
Proof.
  intros Hfull. rewrite restoreRunE_cases.
  assert (Hno : ∀ new, Forall (λ ev, isPartialEvent ev = true) new →
                  ∀ file answer, ¬ In (CallRestoreKVStore file answer) new).
  { intros new Hall file answer Hin. rewrite Forall_forall in Hall.
    by apply list_elem_of_In, Hall in Hin. }
  assert (Hnil : ∃ new, events w = events w ++ new
                   ∧ ∀ file answer, ¬ In (CallRestoreKVStore file answer) new).
  { exists []. rewrite app_nil_r. split; [done|]. intros ? ? []. }
  destruct (NewLogger env); [by intros [= <- <-]|].
  destruct (flagsConsistent b); [|by intros [= <- <-]].
  destruct (loadIncremental_trace env b w)
    as (b1 & err & new1 & -> & Hnew1 & Hsame & _).
  assert (Hload : ∃ new, events w ++ new1 = events w ++ new
                    ∧ ∀ file answer, ¬ In (CallRestoreKVStore file answer) new).
  { exists new1. split; [done|]. apply Hno.
    eapply Forall_impl; [exact Hnew1|]. by intros []. }
  destruct err; [by intros [= <- <-]|].
  destruct (kvEntry b1); [|by intros [= <- <-]].
  destruct (newHTTPClient env); [by intros [= <- <-]|].
  destruct Hsame as (-> & _). rewrite Hfull.
  intros Hrun. apply restorePartial_events in Hrun as (new & Hnew & Hp).
  cbn [events] in Hnew. exists (new1 ++ new). rewrite Hnew, app_assoc.
  split; [done|]. apply Hno, Forall_app. split; [|done].
  eapply Forall_impl; [exact Hnew1|]. by intros [].
Qed.

(** X6: a restore with [--full] never reads the metadata store of the
    backup and never uses the tenant API: all that [restoreRunE] does is
    read the directory, log, open files of the backup, replace the metadata
    store and transfer shards. *)
Theorem restoreRunE_full_no_tenant_calls (b : cmdRestoreBuilder)
  (w w' : World) (r : result unit) :
  full b = true →
  restoreRunE env b w = (r, w') →
  ∃ new, events w' = events w ++ new
         ∧ Forall (λ ev, isLocalRead ev || isFullEvent ev = true) new.
Proof.
  intros Hfull. rewrite restoreRunE_cases.
  assert (Hnil : ∃ new, events w = events w ++ new
                   ∧ Forall (λ ev, isLocalRead ev || isFullEvent ev = true)
                       new).
  { exists []. rewrite app_nil_r. split; [done | constructor]. }
  destruct (NewLogger env); [by intros [= <- <-]|].
  destruct (flagsConsistent b); [|by intros [= <- <-]].
  destruct (loadIncremental_trace env b w)
    as (b1 & err & new1 & -> & Hnew1 & Hsame & _).
  assert (Hnew1' : Forall (λ ev, isLocalRead ev || isFullEvent ev = true) new1).
  { eapply Forall_impl; [exact Hnew1|]. intros ev ->. done. }
  assert (Hload : ∃ new, events w ++ new1 = events w ++ new
                    ∧ Forall (λ ev, isLocalRead ev || isFullEvent ev = true)
                        new) by (by exists new1).
  destruct err; [by intros [= <- <-]|].
  destruct (kvEntry b1); [|by intros [= <- <-]].
  destruct (newHTTPClient env); [by intros [= <- <-]|].
  destruct Hsame as (-> & _). rewrite Hfull.
  intros Hrun. apply restoreFull_events in Hrun as (new & Hnew & Hp).
  cbn [events] in Hnew. exists (new1 ++ new). rewrite Hnew, app_assoc.
  split; [done|]. apply Forall_app. split; [done|].
  eapply Forall_impl; [exact Hp|]. intros ev ->. apply orb_true_r.
Qed.

End Modes.

(** ** Partial restore: filters, empty selections, failures after creation *)

Section PartialEdges.
Context (env : Env) (b : cmdRestoreBuilder).

(** X7: when no organization of the backup matches the organization
    filter, [restorePartial] reports success: it opens the metadata store
    of the backup, enumerates the organizations, logs that the restore is
    complete, and makes no call to the server. *)
Theorem restorePartial_no_organization (kv : ManifestKVEntry.t)
  (filter : OrganizationFilter.t) (w : World) :
  kvEntry b = Some kv →
  BoltOpen env (Join env (path b) (ManifestKVEntry.FileName kv)) = None →
  MetaOpen env = None →
  organizationFilter env b = Ok filter →
  FindOrganizations env filter = Ok [] →
  restorePartial env b w
  = (Ok tt,
     mkWorld
       (events w
        ++ [EvBoltOpen (Join env (path b) (ManifestKVEntry.FileName kv));
            EvMetaOpen; EvFindOrganizations filter;
            EvLog Info "Restore complete" []])
       (seed w)).
Proof.
  intros Hkv Hbolt Hmeta Hfilter Horgs.
  unfold restorePartial, restoreOrganizations.
  rewrite Hkv. run_step. rewrite Hbolt. run_step. rewrite Hmeta. run_step.
  rewrite Hfilter. run_step. rewrite Horgs. cbn [restoreOrgs]. run_step.
  by rewrite <- !app_assoc.
Qed.

(** X8: the organization filter.  When [--org-id] is given it alone
    selects the organizations, also when [--org] is given as well; an
    organization ID that does not parse makes [restoreOrganizations] return
    the parse error before the backup's store is read. *)
Theorem restoreOrganizations_org_id_first (w : World) :
  organization.id (org b) ≠ "" →
  match IDFromString env (organization.id (org b)) with
  | Err e => restoreOrganizations env b w = (Err e, w)
  | Ok id =>
      ∀ r w', restoreOrganizations env b w = (r, w') →
        ∃ rest, events w'
                = events w
                  ++ EvFindOrganizations (OrganizationFilter.mk (Some id) None)
                     :: rest
  end.
Proof.
  intros Hid. apply String.eqb_neq in Hid.
  unfold restoreOrganizations, organizationFilter. rewrite Hid. cbn [negb].
  destruct (IDFromString env _) as [id|e]; [|reflexivity].
  intros r w'. run_step.
  destruct (FindOrganizations env _) as [orgs|e].
  - intros Hrun. apply restoreOrgs_events in Hrun as (new & Hnew & _).
    cbn [events] in Hnew. exists new. by rewrite Hnew, <- app_assoc.
  - intros [= <- <-]. by exists [].
Qed.

(** X9: a bucket ID that does not parse is found out late.
    [restoreOrganization] first resolves the organization on the server,
    creating it when the server does not know it, and only then returns
    the parse error; no bucket is enumerated. *)
Theorem restoreOrganization_invalid_bucket_id (org0 : Organization.t)
  (e : error) (w : World) :
  bucketID b ≠ "" →
  IDFromString env (bucketID b) = Err e →
  restoreOrganization env b org0 w
  = match resolveOrganization env b org0
            (mkWorld (events w ++ [logRestoringOrganization env org0])
               (seed w)) with
    | (Ok _, w1) => (Err e, w1)
    | (Err e', w1) => (Err e', w1)
    end.
Proof.
  intros Hid Hparse. apply String.eqb_neq in Hid.
  rewrite restoreOrganization_run.
  destruct (resolveOrganization env b org0 _) as [[newOrgID|e'] w1];
    [|reflexivity].
  unfold restoreOrganizationBuckets, bucketFilter.
  rewrite Hid. cbn [negb]. by rewrite Hparse.
Qed.

(** X14: an organization without a restorable bucket.  When the
    enumeration finds no bucket, or internal buckets only,
    [restoreOrganization] still resolves the organization on the server
    (creating it when needed) and then succeeds without another call. *)
Theorem restoreOrganization_no_restorable_bucket (org0 : Organization.t)
  (filter : BucketFilter.t) (buckets : list Bucket.t) (w : World) :
  bucketFilter env b org0 = Ok filter →
  FindBuckets env filter = Ok buckets →
  (∀ bkt, bkt ∈ buckets → HasPrefix (Bucket.Name bkt) "_" = true) →
  restoreOrganization env b org0 w
  = match resolveOrganization env b org0
            (mkWorld (events w ++ [logRestoringOrganization env org0])
               (seed w)) with
    | (Ok _, w1) =>
        (Ok tt, mkWorld (events w1 ++ [EvFindBuckets filter]) (seed w1))
    | (Err e, w1) => (Err e, w1)
    end.
Proof.
  intros Hfilter Hfind Hint. rewrite restoreOrganization_run.
  destruct (resolveOrganization env b org0 _) as [[newOrgID|e'] w1];
    [|reflexivity].
  unfold restoreOrganizationBuckets. rewrite Hfilter. run_step.
  rewrite Hfind. rewrite <- restoreBuckets_restorable.
  assert (Hnone : List.filter restorable buckets = []).
  { clear Hfind. induction buckets as [|bkt l IH]; [done|].
    cbn [List.filter]. unfold restorable at 1.
    rewrite (Hint bkt) by apply list_elem_of_here. cbn [negb].
    apply IH. intros bkt' Hb. apply Hint. by apply list_elem_of_further. }
  by rewrite Hnone.
Qed.


(** *** One bucket *)

(** X10: a bucket without shard catalog.  When the metadata store of
    the backup has no database for the bucket, [restoreBucket] has already
    created the bucket on the server when it finds out: unless the
    creation itself failed, it returns the database-not-found error, the
    bucket stays created, and nothing else is called. *)
Theorem restoreBucket_catalog_missing (bkt : Bucket.t) (w w' : World)
  (r : result unit) (new : list Event) :
  Database env (IDString env (Bucket.ID bkt)) = None →
  restoreBucket env b bkt w = (r, w') →
  events w' = events w ++ new →
  (∃ e, r = Err (ErrorfError "cannot create bucket: %w" e)
        ∧ remoteCalls new = [CallCreateBucket (newBucketOf b bkt) (Err e)])
  ∨ (∃ newBucket,
       r = Err (ErrorfString "bucket database not found: %s"
                  (IDString env (Bucket.ID bkt)))
       ∧ remoteCalls new
         = [CallCreateBucket (newBucketOf b bkt) (Ok newBucket)]).
Proof.
  intros Hdb Hrun Hnew. rewrite restoreBucket_run in Hrun.
  cbn zeta in Hrun. rewrite Hdb in Hrun.
  destruct (CreateBucket env _ _) as [newBucket|e];
    injection Hrun as <- <-; cbn [events] in Hnew;
    rewrite <- !app_assoc in Hnew; apply app_inv_head in Hnew as <-.
  - right. by exists newBucket.
  - left. by exists e.
Qed.

(** X11: the two bucket IDs.  The shard catalog sent to the server is
    the one the backup holds under the bucket's ID in the backup, and it
    is sent for the ID under which the server created the bucket: every
    [RestoreBucket] call follows a successful [CreateBucket] call and
    carries the ID that call returned. *)
Theorem restoreBucket_uses_assigned_id (bkt : Bucket.t) (w w' : World)
  (r : result unit) (new : list Event) (id : influxdb.ID)
  (buf : list Byte.byte) (answer : result (gmap N N)) :
  restoreBucket env b bkt w = (r, w') →
  events w' = events w ++ new →
  In (CallRestoreBucket id buf answer) new →
  ∃ (newBucket : Bucket.t) (dbi : DatabaseInfo) (before after : list Event),
    new = before ++ CallCreateBucket (newBucketOf b bkt) (Ok newBucket)
                 :: EvDatabase (IDString env (Bucket.ID bkt))
                 :: CallRestoreBucket id buf answer :: after
    ∧ id = Bucket.ID newBucket
    ∧ Database env (IDString env (Bucket.ID bkt)) = Some dbi
    ∧ MarshalBinary dbi = Ok buf.
Proof.
  intros Hrun Hnew Hcall. rewrite restoreBucket_run in Hrun.
  cbn zeta in Hrun.
  destruct (CreateBucket env _ _) as [newBucket|e].
  2:{ injection Hrun as <- <-. cbn [events] in Hnew.
      rewrite <- !app_assoc in Hnew. apply app_inv_head in Hnew as <-.
      cbn in Hcall. by destruct Hcall as [|[|]]. }
  destruct (Database env _) as [dbi|] eqn:Hdb.
  2:{ injection Hrun as <- <-. cbn [events] in Hnew.
      rewrite <- !app_assoc in Hnew. apply app_inv_head in Hnew as <-.
      cbn in Hcall. by destruct Hcall as [|[|[|]]]. }
  destruct (MarshalBinary dbi) as [buf'|e] eqn:Hbuf.
  2:{ injection Hrun as <- <-. cbn [events] in Hnew.
      rewrite <- !app_assoc in Hnew. apply app_inv_head in Hnew as <-.
      cbn in Hcall. by destruct Hcall as [|[|[|]]]. }
  destruct (RestoreBucket env _ _ _) as [m|e].
  2:{ injection Hrun as <- <-. cbn [events] in Hnew.
      rewrite <- !app_assoc in Hnew. apply app_inv_head in Hnew as <-.
      cbn [app] in Hcall.
      destruct Hcall as [|[|[|[Heq|[]]]]]; try done.
      injection Heq as <- <- <-. exists newBucket, dbi. by eexists [_], []. }
  match type of Hrun with
  | restoreBucketShards _ _ _ _ ?fs ?w0 = _ =>
      destruct (restoreBucketShards_events env b bkt m fs w0)
        as (r0 & loop & Hloop & Hshape)
  end.
  rewrite Hloop in Hrun. injection Hrun as -> <-.
  cbn [events] in Hnew. rewrite <- !app_assoc in Hnew.
  apply app_inv_head in Hnew as <-. cbn [app] in Hcall.
  destruct (shardEvent_not_bucket_call _ _ _ _ _ Hshape) as (_ & _ & Hnoloop).
  destruct Hcall as [|[|[|[Heq|Hin]]]]; try done.
  - injection Heq as <- <- <-. exists newBucket, dbi. by eexists [_], loop.
  - by destruct (Hnoloop _ _ _ Hin).
Qed.

(** The loop when the server mapped every shard of the bucket. *)
Lemma restoreBucketShards_mapped (bkt : Bucket.t) (shardIDMap : gmap N N)
  (files : list ManifestEntry.t) (w : World) :
  (∀ g, g ∈ files →
     ManifestEntry.BucketID g = IDString env (Bucket.ID bkt) →
     is_Some (shardIDMap !! ManifestEntry.ShardID g)) →
  ∃ (r : result unit) (new : list Event),
    restoreBucketShards env b bkt shardIDMap files w
    = (r, mkWorld (events w ++ new) (seed w))
    ∧ (∀ f, ¬ In (warnMetaNotFound f) new)
    ∧ match r with
      | Ok _ => remoteCalls new = omap (remapped env b bkt shardIDMap) files
      | Err e =>
          ∃ done g rest newID,
            files = done ++ g :: rest
            ∧ ManifestEntry.BucketID g = IDString env (Bucket.ID bkt)
            ∧ shardIDMap !! ManifestEntry.ShardID g = Some newID
            ∧ (remoteCalls new
               = omap (remapped env b bkt shardIDMap) done
               ∨ remoteCalls new
                 = omap (remapped env b bkt shardIDMap) done
                   ++ [transfer env b newID g (Some e)])
      end.
Proof.
  revert w. induction files as [|g files IH]; intros w Hall.
  - exists (Ok tt), []. rewrite app_nil_r.
    split; [by destruct w|]. split; [intros f []|done].
  - assert (Hall' : ∀ g', g' ∈ files →
              ManifestEntry.BucketID g' = IDString env (Bucket.ID bkt) →
              is_Some (shardIDMap !! ManifestEntry.ShardID g'))
      by (intros g' Hg'; apply Hall; by apply list_elem_of_further).
    cbn [restoreBucketShards].
    destruct (String.eqb (IDString env (Bucket.ID bkt))
                (ManifestEntry.BucketID g)) eqn:Hg; cbn [negb].
    + destruct (Hall g) as [newID HnewID]; [apply list_elem_of_here| |].
      { symmetry. by apply String.eqb_eq. }
      rewrite HnewID, run_bind.
      destruct (restoreShard_trace env b newID g w)
        as (r1 & new1 & -> & Hr1 & Hshape).
      assert (Hnowarn : ∀ f, ¬ In (warnMetaNotFound f) new1)
        by (intros f; by eapply transfer_not_warning).
      destruct Hr1 as [[-> Hc1] | (e & -> & Hc1)].
      * destruct (IH (mkWorld (events w ++ new1) (seed w)) Hall')
          as (r2 & new2 & -> & Hno2 & Hr2). cbn [events seed].
        exists r2, (new1 ++ new2). split; [by rewrite app_assoc|]. split.
        { intros f Hin. apply in_app_iff in Hin as [Hin|Hin];
            [by eapply Hnowarn | by eapply Hno2]. }
        rewrite remoteCalls_app, Hc1. cbn [omap list_omap].
        rewrite (remapped_own env b bkt shardIDMap g newID Hg HnewID).
        destruct r2 as [[]|e]; [by rewrite Hr2|].
        destruct Hr2 as (done & g' & rest & id' & -> & Hg' & Hid' & Hc2).
        exists (g :: done), g', rest, id'. split; [done|].
        split; [done|]. split; [done|]. cbn [omap list_omap].
        rewrite (remapped_own env b bkt shardIDMap g newID Hg HnewID).
        destruct Hc2 as [-> | ->]; [by left | by right].
      * exists (Err e), new1. split; [done|]. split; [done|].
        exists [], g, files, newID. split; [done|].
        split; [symmetry; by apply String.eqb_eq|]. split; [done|].
        destruct Hc1 as [-> | ->]; [by left | by right].
    + destruct (IH w Hall') as (r2 & new2 & -> & Hno2 & Hr2).
      exists r2, new2. split; [done|]. split; [done|]. cbn [omap list_omap].
      rewrite (remapped_other env b bkt shardIDMap g Hg).
      destruct r2 as [[]|e]; [done|].
      destruct Hr2 as (done & g' & rest & id' & -> & Hg' & Hid' & Hc2).
      exists (g :: done), g', rest, id'.
      split; [done|]. split; [done|]. split; [done|]. cbn [omap list_omap].
      by rewrite (remapped_other env b bkt shardIDMap g Hg).
Qed.

(** X12: a bucket whose shards the server all mapped.  When the map
    returned by [RestoreBucket] has an ID for every entry of the plan that
    belongs to the bucket, [restoreBucket] transfers these entries, in the
    order of the loop and each under its remapped ID, and no entry of
    another bucket; no warning is logged.  It succeeds when all transfers
    do, and otherwise stops at the first transfer that fails. *)
Theorem restoreBucket_all_mapped (bkt : Bucket.t) (w w' : World)
  (r : result unit) (new : list Event) (id : influxdb.ID)
  (buf : list Byte.byte) (shardIDMap : gmap N N) :
  restoreBucket env b bkt w = (r, w') →
  events w' = events w ++ new →
  In (CallRestoreBucket id buf (Ok shardIDMap)) new →
  (∀ g, g ∈ rangeOrder env (seed w) (shardEntries b) →
     ManifestEntry.BucketID g = IDString env (Bucket.ID bkt) →
     is_Some (shardIDMap !! ManifestEntry.ShardID g)) →
  let order := rangeOrder env (seed w) (shardEntries b) in
  (∀ f, ¬ In (warnMetaNotFound f) new)
  ∧ ∃ newBucket : Bucket.t,
      let calls :=
        [CallCreateBucket (newBucketOf b bkt) (Ok newBucket);
         CallRestoreBucket id buf (Ok shardIDMap)] in
      match r with
      | Ok _ =>
          remoteCalls new
          = calls ++ omap (remapped env b bkt shardIDMap) order
      | Err e =>
          ∃ done g rest newID,
            order = done ++ g :: rest
            ∧ ManifestEntry.BucketID g = IDString env (Bucket.ID bkt)
            ∧ shardIDMap !! ManifestEntry.ShardID g = Some newID
            ∧ (remoteCalls new
               = calls ++ omap (remapped env b bkt shardIDMap) done
               ∨ remoteCalls new
                 = calls ++ omap (remapped env b bkt shardIDMap) done
                   ++ [transfer env b newID g (Some e)])
      end.
Proof.
  intros Hrun Hnew Hcall Hall. cbn zeta.
  rewrite restoreBucket_run in Hrun. cbn zeta in Hrun.
  destruct (CreateBucket env _ _) as [newBucket|e].
  2:{ injection Hrun as <- <-. cbn [events] in Hnew.
      rewrite <- !app_assoc in Hnew. apply app_inv_head in Hnew as <-.
      cbn in Hcall. by destruct Hcall as [|[|]]. }
  destruct (Database env _) as [dbi|].
  2:{ injection Hrun as <- <-. cbn [events] in Hnew.
      rewrite <- !app_assoc in Hnew. apply app_inv_head in Hnew as <-.
      cbn in Hcall. by destruct Hcall as [|[|[|]]]. }
  destruct (MarshalBinary dbi) as [buf'|e].
  2:{ injection Hrun as <- <-. cbn [events] in Hnew.
      rewrite <- !app_assoc in Hnew. apply app_inv_head in Hnew as <-.
      cbn in Hcall. by destruct Hcall as [|[|[|]]]. }
  destruct (RestoreBucket env _ _ _) as [m|e].
  2:{ injection Hrun as <- <-. cbn [events] in Hnew.
      rewrite <- !app_assoc in Hnew. apply app_inv_head in Hnew as <-.
      cbn in Hcall. by destruct Hcall as [|[|[|[|]]]]. }
  match type of Hrun with
  | restoreBucketShards _ _ _ _ ?fs ?w0 = _ =>
      destruct (restoreBucketShards_events env b bkt m fs w0)
        as (r0 & loop & Hloop & Hshape)
  end.
  rewrite Hloop in Hrun. injection Hrun as -> <-.
  cbn [events] in Hnew. rewrite <- !app_assoc in Hnew.
  apply app_inv_head in Hnew as <-. cbn [app] in *.
  destruct (shardEvent_not_bucket_call _ _ _ _ _ Hshape) as (_ & _ & Hnoloop).
  assert (Hm : Bucket.ID newBucket = id ∧ buf' = buf ∧ m = shardIDMap).
  { destruct Hcall as [|[|[|[Heq|Hin]]]]; try done.
    - by injection Heq as -> -> ->.
    - by destruct (Hnoloop _ _ _ Hin). }
  destruct Hm as (-> & -> & ->). clear Hcall.
  edestruct (restoreBucketShards_mapped bkt shardIDMap
               (rangeOrder env (seed w) (shardEntries b)))
    as (r1 & loop1 & Hloop1 & Hnowarn & Hr1); [exact Hall|].
  rewrite Hloop1 in Hloop. injection Hloop as -> Hl.
  apply app_inv_head in Hl as ->. split.
  { intros f [|[|[|[|Hin]]]]; try done. by eapply Hnowarn. }
  exists newBucket. cbn zeta. unfold remoteCalls in *. cbn.
  destruct r as [[]|e].
  - by rewrite Hr1.
  - destruct Hr1 as (done & g & rest & newID & Hsplit & Hg & HnewID & Hc).
    exists done, g, rest, newID. split; [done|]. split; [done|].
    split; [done|]. destruct Hc as [-> | ->]; [by left | by right].
Qed.

End PartialEdges.

(** X15: [loadIncremental] only reads.  Whatever the directory holds, it
    does nothing but glob, stat and read files; it returns the builder with
    the command line as it was, and with the snapshot that was already
    selected, if there was one. *)
Theorem loadIncremental_reads_only (env : Env) (b : cmdRestoreBuilder)
  (w : World) :
  ∃ (b' : cmdRestoreBuilder) (err : option error) (new : list Event),
    loadIncremental env b w
    = (Ok (b', err), mkWorld (events w ++ new) (seed w))
    ∧ Forall (λ ev, isLocalRead ev = true) new
    ∧ sameFlags b b'
    ∧ (∀ kv, kvEntry b = Some kv → kvEntry b' = Some kv).
Proof. apply loadIncremental_trace. Qed.

(** * The further properties on the example directory *)

Lemma restoreRunE_no_manifest_witness :
  Glob Example.env "empty/*.manifest" = Ok []
  ∧ ∃ new : list Event,
      restoreRunE Example.env Edge.emptyBuilder Example.world
      = (Err (ErrorfString "no manifest files found in: %s" "empty"),
         mkWorld new 0)
      ∧ remoteCalls new = [].
Proof.
  split; [reflexivity|].
  destruct (restoreRunE_no_manifest Example.env Edge.emptyBuilder
              Example.world [] eq_refl eq_refl eq_refl eq_refl
              (λ f Hf, False_ind _ (proj1 (elem_of_nil f) Hf)))
    as (new & Hrun & _ & Hcalls).
  exists new. split; [exact Hrun | exact Hcalls].
Defined.

Lemma restoreRunE_unreadable_manifest_witness :
  readManifest Edge.envCorrupt "backup/20230102T000000Z.manifest"
  = Unreadable (ErrorfError "read manifest: %v" Edge.syntaxError)
  ∧ ∃ (f : string) (e : error) (new : list Event),
      f ∈ Example.names
      ∧ restoreRunE Edge.envCorrupt Example.builder Example.world
        = (Err (ErrorfError
                  "restore failed while processing manifest files: %s" e),
           mkWorld new 0)
      ∧ remoteCalls new = [].
Proof.
  split; [reflexivity|].
  assert (Hin : "backup/20230102T000000Z.manifest" ∈ Example.names).
  { apply list_elem_of_further, list_elem_of_here. }
  destruct (restoreRunE_unreadable_manifest Edge.envCorrupt Example.builder
              Example.world Example.names _ _ eq_refl eq_refl eq_refl Hin
              eq_refl)
    as (f & e & new & Hf & _ & _ & Hrun & Hcalls).
  exists f, e, new. split; [exact Hf|]. split; [exact Hrun | exact Hcalls].
Defined.

Lemma loadIncremental_plan_provenance_witness :
  shardEntries Example.loaded !! 7%N = Some Example.shard7_0102
  ∧ ∃ f m, f ∈ Example.names ∧ readManifest Example.env f = Regular m
           ∧ Example.shard7_0102 ∈ Manifest.Files m.
Proof.
  assert (Hl : shardEntries Example.loaded !! 7%N = Some Example.shard7_0102)
    by (vm_compute; reflexivity).
  split; [exact Hl|].
  refine (proj2 (loadIncremental_plan_provenance Example.env Example.builder
                   Example.loaded None Example.world
                   (loadIncremental Example.env Example.builder
                      Example.world).2
                   Example.names eq_refl eq_refl _ 7%N Example.shard7_0102
                   Hl)).
  vm_compute. reflexivity.
Defined.

Lemma loadIncremental_keeps_first_greatest_witness :
  match shardEntries Example.loaded !! 7%N with
  | Some e =>
      firstGreatest
        (candidates Example.env "backup" (sortReverse Example.names) 7) e
  | None =>
      candidates Example.env "backup" (sortReverse Example.names) 7 = []
  end.
Proof.
  refine (loadIncremental_keeps_first_greatest Example.env Example.builder
            Example.loaded Example.world
            (loadIncremental Example.env Example.builder Example.world).2
            Example.names 7%N eq_refl eq_refl _).
  vm_compute. reflexivity.
Defined.

Lemma restoreRunE_partial_keeps_metadata_witness :
  full Example.builder = false
  ∧ ∃ new,
      events (restoreRunE Example.env Example.builder Example.world).2 = new
      ∧ ∀ file answer, ¬ In (CallRestoreKVStore file answer) new.
Proof.
  split; [reflexivity|].
  exact (restoreRunE_partial_keeps_metadata Example.env Example.builder
           Example.world _ _ eq_refl (surjective_pairing _)).
Defined.

Lemma restoreRunE_full_no_tenant_calls_witness :
  full Edge.fullBuilder = true
  ∧ ∃ new,
      events (restoreRunE Example.env Edge.fullBuilder Example.world).2 = new
      ∧ Forall (λ ev, isLocalRead ev || isFullEvent ev = true) new.
Proof.
  split; [reflexivity|].
  exact (restoreRunE_full_no_tenant_calls Example.env Edge.fullBuilder
           Example.world _ _ eq_refl (surjective_pairing _)).
Defined.

Lemma restorePartial_no_organization_witness :
  FindOrganizations Edge.envNoOrg (OrganizationFilter.mk None None) = Ok []
  ∧ restorePartial Edge.envNoOrg Example.loaded Example.world
    = (Ok tt,
       mkWorld
         [EvBoltOpen "backup/20230102T000000Z.bolt"; EvMetaOpen;
          EvFindOrganizations (OrganizationFilter.mk None None);
          EvLog Info "Restore complete" []] 0).
Proof.
  split; [reflexivity|].
  assert (Hkv : kvEntry Example.loaded = Some Example.kv_0102)
    by (vm_compute; reflexivity).
  exact (restorePartial_no_organization Edge.envNoOrg Example.loaded
           Example.kv_0102 (OrganizationFilter.mk None None) Example.world
           Hkv eq_refl eq_refl eq_refl eq_refl).
Defined.

Lemma restoreOrganizations_org_id_first_witness :
  organization.id (org Edge.orgIDBuilder) ≠ ""
  ∧ ∀ r w',
      restoreOrganizations Example.env Edge.orgIDBuilder Example.world
      = (r, w') →
      ∃ rest, events w'
              = EvFindOrganizations
                  (OrganizationFilter.mk (Some 2817%N) None) :: rest.
Proof.
  assert (Hid : organization.id (org Edge.orgIDBuilder) ≠ "") by discriminate.
  split; [exact Hid|].
  exact (restoreOrganizations_org_id_first Example.env Edge.orgIDBuilder
           Example.world Hid).
Defined.

Lemma restoreOrganization_invalid_bucket_id_witness :
  let b := setFlag Example.loaded "bucket-id" "telegraf" in
  bucketID b ≠ ""
  ∧ ∃ e w',
      IDFromString Example.env (bucketID b) = Err e
      ∧ restoreOrganization Example.env b Example.org1 Example.world
        = (Err e, w')
      ∧ remoteCalls (events w')
        = [CallFindOrganization "org1"
             (Err (External ENotFound "organization not found"));
           CallCreateOrganization Example.org1
             (Ok (Organization.mk 1002%N "org1"))].
Proof.
  cbn zeta.
  assert (Hid : bucketID (setFlag Example.loaded "bucket-id" "telegraf") ≠ "")
    by discriminate.
  split; [exact Hid|].
  eexists _, _. split; [reflexivity|].
  rewrite (restoreOrganization_invalid_bucket_id Example.env
             (setFlag Example.loaded "bucket-id" "telegraf") Example.org1 _
             Example.world Hid eq_refl).
  split; vm_compute; reflexivity.
Defined.

Lemma restoreOrganization_no_restorable_bucket_witness :
  let b := setFlag Example.loaded "bucket" "_tasks" in
  FindBuckets Example.env (BucketFilter.mk None (Some "_tasks") (Some 161%N))
  = Ok [Example.tasks]
  ∧ ∃ w',
      restoreOrganization Example.env b Example.org1 Example.world
      = (Ok tt, w')
      ∧ remoteCalls (events w')
        = [CallFindOrganization "org1"
             (Err (External ENotFound "organization not found"));
           CallCreateOrganization Example.org1
             (Ok (Organization.mk 1002%N "org1"))].
Proof.
  cbn zeta. split; [reflexivity|]. eexists.
  assert (Hint : ∀ bkt, bkt ∈ [Example.tasks] →
                   HasPrefix (Bucket.Name bkt) "_" = true).
  { intros bkt Hb. apply list_elem_of_singleton in Hb as ->. reflexivity. }
  rewrite (restoreOrganization_no_restorable_bucket Example.env
             (setFlag Example.loaded "bucket" "_tasks") Example.org1
             (BucketFilter.mk None (Some "_tasks") (Some 161%N))
             [Example.tasks] Example.world eq_refl eq_refl Hint).
  split; vm_compute; reflexivity.
Defined.


Lemma restoreBucket_catalog_missing_witness :
  Database Edge.envNoDatabase "0000000000000b01" = None
  ∧ ∃ newBucket,
      (restoreBucket Edge.envNoDatabase Example.loaded
         (cloneInto 1001%N Example.telegraf) Example.world).1
      = Err (ErrorfString "bucket database not found: %s" "0000000000000b01")
      ∧ remoteCalls
          (events (restoreBucket Edge.envNoDatabase Example.loaded
                     (cloneInto 1001%N Example.telegraf) Example.world).2)
        = [CallCreateBucket (Bucket.mk 2817%N 1001%N "telegraf") (Ok newBucket)].
Proof.
  split; [reflexivity|].
  destruct (restoreBucket_catalog_missing Edge.envNoDatabase Example.loaded
              (cloneInto 1001%N Example.telegraf) Example.world _ _ _
              eq_refl (surjective_pairing _) eq_refl)
    as [(e & Hr & _)|(newBucket & Hr & Hcalls)].
  - exfalso. vm_compute in Hr. discriminate.
  - exists newBucket. split; [exact Hr | exact Hcalls].
Defined.

Lemma restoreBucket_uses_assigned_id_witness :
  ∃ (newBucket : Bucket.t) (before after : list Event),
    events (restoreBucket Example.env Example.loaded
              (cloneInto 1001%N Example.telegraf) Example.world).2
    = before ++ CallCreateBucket (Bucket.mk 2817%N 1001%N "telegraf")
                  (Ok newBucket)
               :: EvDatabase "0000000000000b01"
               :: CallRestoreBucket 2001%N [Byte.x0a] (Ok {[7%N := 70%N]})
               :: after
    ∧ 2001%N = Bucket.ID newBucket.
Proof.
  assert (Hcall : In (CallRestoreBucket 2001%N [Byte.x0a] (Ok {[7%N := 70%N]}))
                    (events (restoreBucket Example.env Example.loaded
                               (cloneInto 1001%N Example.telegraf)
                               Example.world).2)).
  { vm_compute. do 3 right. left. reflexivity. }
  destruct (restoreBucket_uses_assigned_id Example.env Example.loaded
              (cloneInto 1001%N Example.telegraf) Example.world _ _ _ _ _ _
              (surjective_pairing _) eq_refl Hcall)
    as (newBucket & dbi & before & after & Hnew & Hid & _).
  exists newBucket, before, after. split; [exact Hnew | exact Hid].
Defined.

Lemma restoreBucket_all_mapped_witness :
  let w' := (restoreBucket Edge.envMapped Example.loaded
               (cloneInto 1001%N Example.telegraf) Example.world).2 in
  (∀ f, ¬ In (warnMetaNotFound f) (events w'))
  ∧ ∃ newBucket,
      remoteCalls (events w')
      = [CallCreateBucket (Bucket.mk 2817%N 1001%N "telegraf") (Ok newBucket);
         CallRestoreBucket 2001%N [Byte.x0a] (Ok {[7%N := 70%N; 8%N := 80%N]});
         CallRestoreShard 80%N "backup/20230101T000000Z.s8.tar.gz" None;
         CallRestoreShard 70%N "backup/20230102T000000Z.s7.tar.gz" None].
Proof.
  cbn zeta.
  assert (Hrun : restoreBucket Edge.envMapped Example.loaded
                   (cloneInto 1001%N Example.telegraf) Example.world
                 = (Ok tt,
                    (restoreBucket Edge.envMapped Example.loaded
                       (cloneInto 1001%N Example.telegraf) Example.world).2))
    by (vm_compute; reflexivity).
  assert (Hcall : In (CallRestoreBucket 2001%N [Byte.x0a]
                        (Ok {[7%N := 70%N; 8%N := 80%N]}))
                    (events (restoreBucket Edge.envMapped Example.loaded
                               (cloneInto 1001%N Example.telegraf)
                               Example.world).2)).
  { vm_compute. do 3 right. left. reflexivity. }
  assert (Hall : ∀ g,
            g ∈ rangeOrder Edge.envMapped 0 (shardEntries Example.loaded) →
            ManifestEntry.BucketID g
            = IDString Edge.envMapped (Bucket.ID (cloneInto 1001%N Example.telegraf)) →
            is_Some (({[7%N := 70%N; 8%N := 80%N]} : gmap N N)
                       !! ManifestEntry.ShardID g)).
  { intros g Hg _.
    assert (Horder : rangeOrder Edge.envMapped 0 (shardEntries Example.loaded)
                     = [Example.shard8_0101; Example.shard7_0102])
      by (vm_compute; reflexivity).
    rewrite Horder in Hg.
    apply elem_of_cons in Hg as [->|Hg]; [by eexists|].
    apply list_elem_of_singleton in Hg as ->. by eexists. }
  destruct (restoreBucket_all_mapped Edge.envMapped Example.loaded
              (cloneInto 1001%N Example.telegraf) Example.world _ (Ok tt) _
              2001%N [Byte.x0a] {[7%N := 70%N; 8%N := 80%N]} Hrun eq_refl
              Hcall Hall)
    as (Hnowarn & newBucket & Hcalls).
  split; [exact Hnowarn|]. exists newBucket. rewrite Hcalls.
  vm_compute. reflexivity.
Defined.
